(** * The article chunker of the Tunisian labour code: model and properties

    A shallow embedding of [src/modules/chunking.py] (class
    [CodeTravailChunker]): Python strings as lists of code points, the
    regular expressions of the parser as syntax trees run by a
    backtracking matcher, the chunker object as a record threaded through
    its methods, an exception as [None].  Where the identity of the chunk
    list matters, the methods are read a second time with the list as an
    object on a heap, and the two readings are proved to agree.  The
    persistence methods are modelled down to the bytes of the file: the
    JSON encoder and decoder of the standard library on the values the
    chunker stores, the UTF-8 codec and the line-end translation of text
    files. *)

From Stdlib Require Import String Ascii NArith Bool Arith Lia List.
Import ListNotations.

Set Implicit Arguments.
Local Open Scope N_scope.

(* ===================================================================== *)
(** ** Python strings *)
(* ===================================================================== *)

(** A [str] is a sequence of Unicode code points. *)
Abbreviation char := N (only parsing).
Abbreviation str := (list N) (only parsing).

(** A source literal (all literals of the module are ASCII). *)
Definition lit (s : string) : str :=
  map N_of_ascii (list_ascii_of_string s).
Arguments lit s%_string.

Fixpoint str_eqb (a b : str) : bool :=
  match a, b with
  | [], [] => true
  | x :: a', y :: b' => (x =? y) && str_eqb a' b'
  | _, _ => false
  end.

(** The rows of the interpreter's Unicode database that the module reads:
    [str.strip], [\s] (both Py_UNICODE_ISSPACE) and [\d]
    (Py_UNICODE_ISDECIMAL).  They vary with the Unicode version of the
    interpreter, so the development is parametric in them. *)
Class UnicodeDB := {
  isspace : char -> bool;
  isdecimal : char -> bool
}.

Definition in_range (lo hi c : char) : bool := (lo <=? c) && (c <=? hi).

(** Whitespace of CPython 3: bidirectional class WS, B or S, or category Zs. *)
Definition cpython_isspace (c : char) : bool :=
  in_range 0x09 0x0D c || in_range 0x1C 0x20 c || (c =? 0x85) || (c =? 0xA0)
  || (c =? 0x1680) || in_range 0x2000 0x200A c || (c =? 0x2028)
  || (c =? 0x2029) || (c =? 0x202F) || (c =? 0x205F) || (c =? 0x3000).

(** Decimal digits (category Nd) of Unicode 15.0: the zero of every
    block of ten. *)
Definition nd_zeros : list char :=
  [0x30; 0x660; 0x6F0; 0x7C0; 0x966; 0x9E6; 0xA66; 0xAE6; 0xB66; 0xBE6;
   0xC66; 0xCE6; 0xD66; 0xDE6; 0xE50; 0xED0; 0xF20; 0x1040; 0x1090;
   0x17E0; 0x1810; 0x1946; 0x19D0; 0x1A80; 0x1A90; 0x1B50; 0x1BB0;
   0x1C40; 0x1C50; 0xA620; 0xA8D0; 0xA900; 0xA9D0; 0xA9F0; 0xAA50;
   0xABF0; 0xFF10; 0x104A0; 0x10D30; 0x11066; 0x110F0; 0x11136; 0x111D0;
   0x112F0; 0x11450; 0x114D0; 0x11650; 0x116C0; 0x11730; 0x118E0;
   0x11950; 0x11C50; 0x11D50; 0x11DA0; 0x11F50; 0x16A60; 0x16AC0;
   0x16B50; 0x1D7CE; 0x1D7D8; 0x1D7E2; 0x1D7EC; 0x1D7F6; 0x1E140;
   0x1E2F0; 0x1E4F0; 0x1E950; 0x1FBF0].

Definition cpython_isdecimal (c : char) : bool :=
  existsb (fun z => in_range z (z + 9) c) nd_zeros.

Definition cpython : UnicodeDB :=
  {| isspace := cpython_isspace; isdecimal := cpython_isdecimal |}.

Section PyStr.
Context {U : UnicodeDB}.

(** Truth value of an optional string: [None] and [""] are false. *)
Definition truthy (o : option str) : bool :=
  match o with
  | Some (_ :: _) => true
  | _ => false
  end.

Definition nonempty (A : Type) (l : list A) : bool :=
  match l with [] => false | _ => true end.

Definition nonempty_opt (A : Type) (o : option A) : bool :=
  match o with Some _ => true | None => false end.

Fixpoint lstrip (s : str) : str :=
  match s with
  | c :: s' => if isspace c then lstrip s' else s
  | [] => []
  end.

Definition rstrip (s : str) : str := rev (lstrip (rev s)).

(** [s.strip()] *)
Definition strip (s : str) : str := rstrip (lstrip s).

(** [s.split(sep)] for a one-character separator: never an empty list. *)
Fixpoint split (sep : char) (s : str) : list str :=
  match s with
  | [] => [[]]
  | c :: s' =>
      if c =? sep then [] :: split sep s'
      else match split sep s' with
           | w :: ws => (c :: w) :: ws
           | [] => [[c]]
           end
  end.

(** [s.replace(a, b)] for one-character [a] and [b]. *)
Definition replace (a b : char) (s : str) : str :=
  map (fun c => if c =? a then b else c) s.

(** [a in s] for a one-character [a]. *)
Definition contains (a : char) (s : str) : bool := existsb (N.eqb a) s.

(** [sep.join(parts)] *)
Fixpoint join (sep : str) (parts : list str) : str :=
  match parts with
  | [] => []
  | [p] => p
  | p :: ps => p ++ sep ++ join sep ps
  end.

End PyStr.

(* ===================================================================== *)
(** ** Regular expressions ([re.match], [re.search]) *)
(* ===================================================================== *)

(** The members of a character set. *)
Inductive item :=
| IChr (c : char)            (* a literal character *)
| IRange (lo hi : char)      (* lo-hi *)
| ISpace                     (* \s *)
| IDigit.                    (* \d *)

(** One-character matchers. *)
Inductive atom :=
| AAny                       (* . *)
| AItem (i : item)           (* \s, \d or an escaped character *)
| ASet (items : list item)   (* [...] *)
| ANot (items : list item).  (* [^...] *)

Inductive regex :=
| RLit (s : str)             (* a literal word *)
| RAtom (a : atom)
| RStar (a : atom)           (* a*, greedy *)
| RPlus (a : atom)           (* a+, greedy *)
| RSeq (r1 r2 : regex)
| RAlt (r1 r2 : regex)       (* r1|r2, left first *)
| ROpt (r : regex)           (* (?:r)?, greedy *)
| RGroup (n : nat) (r : regex)  (* capturing group number n *)
| RBol                       (* ^ *)
| REol.                      (* $ *)

Definition groups := list (nat * str).

Fixpoint group (n : nat) (g : groups) : option str :=
  match g with
  | [] => None
  | (m, s) :: g' => if Nat.eqb m n then Some s else group n g'
  end.

Definition is_ascii_lower (c : char) : bool := in_range 97 122 c.
Definition is_ascii_upper (c : char) : bool := in_range 65 90 c.
Definition ascii_lower (c : char) : char :=
  if is_ascii_upper c then c + 32 else c.

(** Case-insensitive comparison of the subject character [c] with the
    ASCII pattern character [x] under [re.IGNORECASE] on [str]: the two
    cases of the letter, and the four non-ASCII characters that fold to
    an ASCII letter (U+0130 and U+0131 to i, U+017F to s, U+212A to k). *)
Definition ci_eq (x c : char) : bool :=
  let lx := ascii_lower x in
  if is_ascii_lower lx then
    (c =? lx) || (c =? lx - 32)
    || ((lx =? 105) && ((c =? 0x130) || (c =? 0x131)))
    || ((lx =? 115) && (c =? 0x17F))
    || ((lx =? 107) && (c =? 0x212A))
  else c =? x.

Fixpoint range_from (lo : char) (n : nat) : list char :=
  match n with
  | O => []
  | S n' => lo :: range_from (lo + 1) n'
  end.

Section Re.
Context {U : UnicodeDB}.

(** The flag [re.I]. *)
Variable ignorecase : bool.

Definition chr_match (x c : char) : bool :=
  if ignorecase then ci_eq x c else c =? x.

Definition item_match (i : item) (c : char) : bool :=
  match i with
  | IChr x => chr_match x c
  | IRange lo hi =>
      if ignorecase
      then existsb (fun x => ci_eq x c) (range_from lo (N.to_nat (hi + 1 - lo)))
      else in_range lo hi c
  | ISpace => isspace c
  | IDigit => isdecimal c
  end.

Definition atom_match (a : atom) (c : char) : bool :=
  match a with
  | AAny => negb (c =? 10)
  | AItem i => item_match i c
  | ASet items => existsb (fun i => item_match i c) items
  | ANot items => negb (existsb (fun i => item_match i c) items)
  end.

(** The literal [l] at the head of [s]; returns what follows it. *)
Fixpoint eat_lit (l s : str) : option str :=
  match l, s with
  | [], _ => Some s
  | x :: l', c :: s' => if chr_match x c then eat_lit l' s' else None
  | _ :: _, [] => None
  end.

Section Run.
Variable R : Type.

(** Greedy repetition: the longest run of [p] first, then shorter ones. *)
Fixpoint rep (p : char -> bool) (s : str) (k : str -> option R) : option R :=
  match s with
  | c :: s' =>
      if p c
      then match rep p s' k with
           | Some r => Some r
           | None => k s
           end
      else k s
  | [] => k []
  end.

(** The backtracking matcher, with the rest of the pattern as the
    continuation [k]; [total] is the length of the whole subject. *)
Fixpoint run (total : nat) (r : regex) (s : str) (g : groups)
    (k : str -> groups -> option R) : option R :=
  match r with
  | RLit l =>
      match eat_lit l s with
      | Some s' => k s' g
      | None => None
      end
  | RAtom a =>
      match s with
      | c :: s' => if atom_match a c then k s' g else None
      | [] => None
      end
  | RStar a => rep (atom_match a) s (fun s' => k s' g)
  | RPlus a =>
      match s with
      | c :: s' =>
          if atom_match a c then rep (atom_match a) s' (fun s' => k s' g)
          else None
      | [] => None
      end
  | RSeq r1 r2 => run total r1 s g (fun s' g' => run total r2 s' g' k)
  | RAlt r1 r2 =>
      match run total r1 s g k with
      | Some x => Some x
      | None => run total r2 s g k
      end
  | ROpt r1 =>
      match run total r1 s g k with
      | Some x => Some x
      | None => k s g
      end
  | RGroup n r1 =>
      run total r1 s g
        (fun s' g' => k s' ((n, firstn (length s - length s')%nat s) :: g'))
  | RBol => if Nat.eqb (length s) total then k s g else None
  | REol =>
      match s with
      | [] => k s g
      | [c] => if c =? 10 then k s g else None
      | _ => None
      end
  end.

End Run.

(** [re.match(r, s, flags)]: the groups of the match at position 0. *)
Definition re_match (r : regex) (s : str) : option groups :=
  run (length s) r s [] (fun _ g => Some g).

(** [re.search(r, s, flags)]: the leftmost match. *)
Fixpoint search_from (total : nat) (r : regex) (s : str) : option groups :=
  match run total r s [] (fun _ g => Some g) with
  | Some g => Some g
  | None =>
      match s with
      | _ :: s' => search_from total r s'
      | [] => None
      end
  end.

Definition re_search (r : regex) (s : str) : option groups :=
  search_from (length s) r s.

End Re.

Declare Scope re_scope.
Delimit Scope re_scope with re.
Infix ";;" := RSeq (at level 61, right associativity) : re_scope.
Infix "||" := RAlt : re_scope.

Definition chars (s : string) : list item := map IChr (lit s).
Definition word (s : string) : regex := RLit (lit s).
Arguments chars s%_string.
Arguments word s%_string.


(* ===================================================================== *)
(** ** Python values *)
(* ===================================================================== *)

(** The values the chunker builds and stores: [None], booleans, strings,
    lists, and dicts with string keys in insertion order. *)
#[warnings="-register-all"]
Inductive pyval :=
| VNone
| VBool (b : bool)
| VStr (s : str)
| VList (l : list pyval)
| VDict (d : list (str * pyval)).

Definition of_opt (o : option str) : pyval :=
  match o with
  | Some s => VStr s
  | None => VNone
  end.

(** [f"{x}"] for a string or [None]. *)
Definition fmt (o : option str) : str :=
  match o with
  | Some s => s
  | None => lit "None"
  end.

(** [d[k]] on a dict. *)
Fixpoint lookup (k : str) (d : list (str * pyval)) : option pyval :=
  match d with
  | [] => None
  | (k', v) :: d' => if str_eqb k' k then Some v else lookup k d'
  end.

Definition getitem (k : string) (v : pyval) : option pyval :=
  match v with
  | VDict d => lookup (lit k) d
  | _ => None
  end.

Arguments getitem k%_string v.

Definition keys (v : pyval) : list str :=
  match v with
  | VDict d => map fst d
  | _ => []
  end.

(** [v.append(x)]: only lists have the method. *)
Definition py_append (v x : pyval) : option pyval :=
  match v with
  | VList l => Some (VList (l ++ [x]))
  | _ => None
  end.

(** [len(v)]: [None] and booleans have no length. *)
Definition py_len (v : pyval) : option nat :=
  match v with
  | VStr s => Some (length s)
  | VList l => Some (length l)
  | VDict d => Some (length d)
  | _ => None
  end.

(** Sequencing of calls that may raise. *)
Notation "x <- e ;; k" :=
  (match e with Some x => k | None => None end)
  (at level 61, e at next level, right associativity).

(* ===================================================================== *)
(** ** class CodeTravailChunker *)
(* ===================================================================== *)

Record chunker := mkChunker {
  chunks : pyval;
  current_livre : option str;
  current_titre : option str;
  current_chapitre : option str;
  current_section : option str;
  current_article : option str;
  current_article_number : option str;
  current_article_text : list str
}.

Definition set_chunks v (s : chunker) :=
  mkChunker v (current_livre s) (current_titre s) (current_chapitre s)
    (current_section s) (current_article s) (current_article_number s)
    (current_article_text s).
Definition set_current_livre v (s : chunker) :=
  mkChunker (chunks s) v (current_titre s) (current_chapitre s)
    (current_section s) (current_article s) (current_article_number s)
    (current_article_text s).
Definition set_current_titre v (s : chunker) :=
  mkChunker (chunks s) (current_livre s) v (current_chapitre s)
    (current_section s) (current_article s) (current_article_number s)
    (current_article_text s).
Definition set_current_chapitre v (s : chunker) :=
  mkChunker (chunks s) (current_livre s) (current_titre s) v
    (current_section s) (current_article s) (current_article_number s)
    (current_article_text s).
Definition set_current_section v (s : chunker) :=
  mkChunker (chunks s) (current_livre s) (current_titre s)
    (current_chapitre s) v (current_article s) (current_article_number s)
    (current_article_text s).
Definition set_current_article v (s : chunker) :=
  mkChunker (chunks s) (current_livre s) (current_titre s)
    (current_chapitre s) (current_section s) v (current_article_number s)
    (current_article_text s).
Definition set_current_article_number v (s : chunker) :=
  mkChunker (chunks s) (current_livre s) (current_titre s)
    (current_chapitre s) (current_section s) (current_article s) v
    (current_article_text s).
Definition set_current_article_text v (s : chunker) :=
  mkChunker (chunks s) (current_livre s) (current_titre s)
    (current_chapitre s) (current_section s) (current_article s)
    (current_article_number s) v.

(** [_reset_context] *)
Definition _reset_context (s : chunker) : chunker :=
  let s := set_current_livre None s in
  let s := set_current_titre None s in
  let s := set_current_chapitre None s in
  let s := set_current_section None s in
  let s := set_current_article None s in
  let s := set_current_article_number None s in
  set_current_article_text [] s.

(** [__init__]: the freshly constructed chunker. *)
Definition __init__ : chunker :=
  _reset_context (mkChunker (VList []) None None None None None None []).

(** *** The patterns of the module, all used with [re.I] *)

Definition ws : atom := AItem ISpace.
Definition digit : atom := AItem IDigit.
Definition roman : atom := ASet (chars "IVXLCDM").
(** The tail shared by the five line patterns: a greedy run of [\s.:],
    then group 2, which is the rest of the line (dot-star), then [$]. *)
Definition tail_re : regex :=
  (RStar (ASet (ISpace :: chars ".:")) ;; RGroup 2 (RStar AAny) ;; REol)%re.

(** "^LIVRE\s+(PREMIER|DEUXIEME|TROISIEME|QUATRIEME|CINQUIEME|[IVXLCDM]+)" and the tail *)
Definition livre_re : regex :=
  (RBol ;; word "LIVRE" ;; RPlus ws ;;
   RGroup 1 (word "PREMIER" || word "DEUXIEME" || word "TROISIEME"
             || word "QUATRIEME" || word "CINQUIEME" || RPlus roman) ;;
   tail_re)%re.

(** "^Titre\s+([a-z]+|[IVXLCDM]+)" and the tail *)
Definition titre_re : regex :=
  (RBol ;; word "Titre" ;; RPlus ws ;;
   RGroup 1 (RPlus (ASet [IRange 97 122]) || RPlus roman) ;; tail_re)%re.

(** "^Chapitre\s+([a-z]+|[IVXLCDM]+)" and the tail *)
Definition chapitre_re : regex :=
  (RBol ;; word "Chapitre" ;; RPlus ws ;;
   RGroup 1 (RPlus (ASet [IRange 97 122]) || RPlus roman) ;; tail_re)%re.

(** "^Section\s+([IVXLCDM]+|[0-9]+)" and the tail *)
Definition section_re : regex :=
  (RBol ;; word "Section" ;; RPlus ws ;;
   RGroup 1 (RPlus roman || RPlus (ASet [IRange 48 57])) ;; tail_re)%re.

(** "^(?:Art\.|Article)\s*(\d+(?:-\d+)?)" and the tail *)
Definition article_re : regex :=
  (RBol ;; (word "Art." || word "Article") ;; RStar ws ;;
   RGroup 1 (RPlus digit ;; ROpt (word "-" ;; RPlus digit)) ;; tail_re)%re.

(** "^(LIVRE|Titre|Chapitre|Section|Art)" *)
Definition keyword_re : regex :=
  (RBol ;; RGroup 1 (word "LIVRE" || word "Titre" || word "Chapitre"
                     || word "Section" || word "Art"))%re.

(** "Livre\s+([^\s.]+)" and its three siblings in [_create_chunk]. *)
Definition level_re (keyword : string) : regex :=
  (word keyword ;; RPlus ws ;; RGroup 1 (RPlus (ANot (ISpace :: chars "."))))%re.

Arguments level_re keyword%_string.

Section Chunker.
Context {U : UnicodeDB}.

Definition re_I := true.

(** One of the four blocks of [_create_chunk] that add an ancestor
    heading to [hierarchy_parts]; they differ in the keyword only. *)
Definition hierarchy_part (keyword : string) (current : option str)
  : list str :=
  if truthy current then
    match re_search re_I (level_re keyword) (fmt current) with
    | Some m => [lit keyword ++ lit " " ++ fmt (group 1 m)]
    | None => []
    end
  else [].
Arguments hierarchy_part keyword%_string current.

(** [_create_chunk]; [None] is the AttributeError raised by [replace]
    when [current_article_number] is [None], or the TypeError raised by
    [join] when [current_article] is [None]. *)
Definition _create_chunk (s : chunker) : option pyval :=
  let full_text := strip (join (lit " ") (current_article_text s)) in
  number <- current_article_number s ;;
  _ <- current_article s ;;
  let article_id := replace 45 95 number in
  let chunk_id := lit "CT_TN_A" ++ article_id in
  let hierarchy_parts :=
    hierarchy_part "Livre" (current_livre s)
    ++ hierarchy_part "Titre" (current_titre s)
    ++ hierarchy_part "Chapitre" (current_chapitre s)
    ++ hierarchy_part "Section" (current_section s)
    ++ [fmt (current_article s)] in
  let is_sub_article := contains 45 number in
  let base_article :=
    if is_sub_article then hd [] (split 45 number) else number in
  Some (VDict
    [ (lit "id", VStr chunk_id);
      (lit "text", VStr full_text);
      (lit "metadata", VDict
        [ (lit "livre", of_opt (current_livre s));
          (lit "titre", of_opt (current_titre s));
          (lit "chapitre", of_opt (current_chapitre s));
          (lit "section", of_opt (current_section s));
          (lit "article", of_opt (current_article s));
          (lit "article_number", VStr number);
          (lit "base_article", VStr base_article);
          (lit "is_sub_article", VBool is_sub_article);
          (lit "law", VStr (lit "Code du travail tunisien"));
          (lit "chunk_type", VStr (lit "article"));
          (lit "citation",
             VStr (lit "Code du travail tunisien, art. " ++ number));
          (lit "hierarchy_path", VStr (join (lit " > ") hierarchy_parts)) ]) ]).

(** [_save_article_chunk], the flush. *)
Definition _save_article_chunk (s : chunker) : option chunker :=
  if truthy (current_article s) && nonempty (current_article_text s) then
    let cleaned_text :=
      map strip
        (filter (fun line => nonempty (strip line)) (current_article_text s)) in
    if nonempty cleaned_text then
      let s := set_current_article_text cleaned_text s in
      chunk <- _create_chunk s ;;
      chunks' <- py_append (chunks s) chunk ;;
      let s := set_chunks chunks' s in
      Some (set_current_article_text [] s)
    else Some s
  else Some s.

(** The lookahead of the four heading branches: when the inline title is
    empty and there is a next line that does not start with a keyword,
    that line is the title and the cursor skips it (the flag). *)
Definition continuation (title : str) (next : option str) : str * bool :=
  if negb (nonempty title) then
    match next with
    | Some next_line =>
        match re_match re_I keyword_re next_line with
        | None => (next_line, true)
        | Some _ => (title, false)
        end
    | None => (title, false)
    end
  else (title, false).

(** [f"Livre {num}" + (f". {title}" if title else "")] *)
Definition label (keyword : string) (num : option str) (title : str) : str :=
  lit keyword ++ lit " " ++ fmt num
  ++ (if nonempty title then lit ". " ++ title else []).
Arguments label keyword%_string num title.

(** The branch of a line matched by the LIVRE pattern. *)
Definition on_livre (m : groups) (next : option str) (s : chunker)
  : option (chunker * bool) :=
  s <- _save_article_chunk s ;;
  let livre_num := group 1 m in
  g2 <- group 2 m ;;
  let livre_title := strip g2 in
  let '(livre_title, consumed) := continuation livre_title next in
  let s := set_current_livre (Some (label "Livre" livre_num livre_title)) s in
  let s := set_current_titre None s in
  let s := set_current_chapitre None s in
  let s := set_current_section None s in
  let s := set_current_article None s in
  let s := set_current_article_number None s in
  Some (s, consumed).

(** The branch of a line matched by the Titre pattern. *)
Definition on_titre (m : groups) (next : option str) (s : chunker)
  : option (chunker * bool) :=
  s <- _save_article_chunk s ;;
  let titre_num := group 1 m in
  g2 <- group 2 m ;;
  let titre_title := strip g2 in
  let '(titre_title, consumed) := continuation titre_title next in
  let s := set_current_titre (Some (label "Titre" titre_num titre_title)) s in
  let s := set_current_chapitre None s in
  let s := set_current_section None s in
  let s := set_current_article None s in
  let s := set_current_article_number None s in
  Some (s, consumed).

(** The branch of a line matched by the Chapitre pattern. *)
Definition on_chapitre (m : groups) (next : option str) (s : chunker)
  : option (chunker * bool) :=
  s <- _save_article_chunk s ;;
  let chap_num := group 1 m in
  g2 <- group 2 m ;;
  let chap_title := strip g2 in
  let '(chap_title, consumed) := continuation chap_title next in
  let s := set_current_chapitre (Some (label "Chapitre" chap_num chap_title)) s in
  let s := set_current_section None s in
  let s := set_current_article None s in
  let s := set_current_article_number None s in
  Some (s, consumed).

(** The branch of a line matched by the Section pattern. *)
Definition on_section (m : groups) (next : option str) (s : chunker)
  : option (chunker * bool) :=
  s <- _save_article_chunk s ;;
  let sec_num := group 1 m in
  g2 <- group 2 m ;;
  let sec_title := strip g2 in
  let '(sec_title, consumed) := continuation sec_title next in
  let s := set_current_section (Some (label "Section" sec_num sec_title)) s in
  let s := set_current_article None s in
  let s := set_current_article_number None s in
  Some (s, consumed).

(** The branch of a line matched by the article pattern. *)
Definition on_article (m : groups) (s : chunker) : option (chunker * bool) :=
  s <- _save_article_chunk s ;;
  let s := set_current_article_number (group 1 m) s in
  let s :=
    set_current_article
      (Some (lit "Article " ++ fmt (current_article_number s))) s in
  g2 <- group 2 m ;;
  let article_text := strip g2 in
  let s :=
    if nonempty article_text
    then set_current_article_text (current_article_text s ++ [article_text]) s
    else s in
  Some (s, false).

(** The last block of the loop body: the line is body text of the
    active article unless it starts with a keyword. *)
Definition on_other (line : str) (s : chunker) : option (chunker * bool) :=
  let s :=
    if truthy (current_article s)
       && negb (nonempty_opt (re_match re_I keyword_re line))
    then set_current_article_text (current_article_text s ++ [line]) s
    else s in
  Some (s, false).

(** One iteration of the [while] loop of [parse_text] on [lines[i]];
    [next] is [lines[i + 1]] when [i + 1 < len(lines)].  The flag of the
    result tells whether the cursor moves by two. *)
Definition step (line : str) (next : option str) (s : chunker)
  : option (chunker * bool) :=
  match re_match re_I livre_re line with
  | Some livre_match => on_livre livre_match next s
  | None =>
  match re_match re_I titre_re line with
  | Some titre_match => on_titre titre_match next s
  | None =>
  match re_match re_I chapitre_re line with
  | Some chapitre_match => on_chapitre chapitre_match next s
  | None =>
  match re_match re_I section_re line with
  | Some section_match => on_section section_match next s
  | None =>
  match re_match re_I article_re line with
  | Some article_match => on_article article_match s
  | None => on_other line s
  end end end end end.

(** The [while i < len(lines)] loop, on the lines from the cursor on. *)
Fixpoint parse_loop (lines : list str) (s : chunker) : option chunker :=
  match lines with
  | [] => Some s
  | line :: rest =>
      match step line (hd_error rest) s with
      | None => None
      | Some (s', consumed) =>
          match rest with
          | _ :: rest' =>
              if consumed then parse_loop rest' s' else parse_loop rest s'
          | [] => parse_loop rest s'
          end
      end
  end.

(** [[line.strip() for line in text.split('\n') if line.strip()]] *)
Definition normalize (text : str) : list str :=
  map strip (filter (fun line => nonempty (strip line)) (split 10 text)).

(** [parse_text]: the chunker after the call and the list it returns,
    which is [self.chunks] itself. *)
Definition parse_text (text : str) (s : chunker) : option (chunker * pyval) :=
  let lines := normalize text in
  s <- parse_loop lines s ;;
  s <- _save_article_chunk s ;;
  _ <- py_len (chunks s) ;;
  Some (s, chunks s).

(** What [extract_text_from_pdf] returns for a path ([None] when the
    file cannot be opened or read): PyPDF2 is outside the module. *)
Variable extract_text_from_pdf : str -> option str.

(** [process_pdf] *)
Definition process_pdf (pdf_path : str) (s : chunker)
  : option (chunker * pyval) :=
  let s := set_chunks (VList []) s in
  let s := _reset_context s in
  text <- extract_text_from_pdf pdf_path ;;
  parse_text text s.

(** [get_chunks] *)
Definition get_chunks (s : chunker) : pyval := chunks s.

End Chunker.


(* ===================================================================== *)
(** ** The text file layer: [open(path, mode, encoding='utf-8')] *)
(* ===================================================================== *)

(** What the two [open] calls of the module rely on: the strict UTF-8
    codec and the translation of line ends in text mode. *)

(** A byte is a number below 256. *)
Definition byte := N.

Definition is_surrogate (c : char) : bool := in_range 0xD800 0xDFFF c.

(** The strict UTF-8 encoder: a surrogate raises UnicodeEncodeError. *)
Definition utf8_encode_char (c : char) : option (list byte) :=
  if c <? 0x80 then Some [c]
  else if c <? 0x800 then Some [0xC0 + c / 64; 0x80 + c mod 64]
  else if c <? 0x10000 then
    if is_surrogate c then None
    else Some [0xE0 + c / 4096; 0x80 + (c / 64) mod 64; 0x80 + c mod 64]
  else if c <? 0x110000 then
    Some [0xF0 + c / 262144; 0x80 + (c / 4096) mod 64;
          0x80 + (c / 64) mod 64; 0x80 + c mod 64]
  else None.

Fixpoint utf8_encode (s : str) : option (list byte) :=
  match s with
  | [] => Some []
  | c :: s' =>
      bs <- utf8_encode_char c ;;
      bs' <- utf8_encode s' ;;
      Some (bs ++ bs')
  end.

Definition is_cont (b : byte) : bool := in_range 0x80 0xBF b.

Definition cons_char (c : char) (o : option str) : option str :=
  match o with
  | Some s => Some (c :: s)
  | None => None
  end.

(** The strict UTF-8 decoder: truncated, overlong, surrogate and
    out-of-range sequences raise UnicodeDecodeError. *)
Fixpoint utf8_decode (bs : list byte) : option str :=
  match bs with
  | [] => Some []
  | b0 :: r0 =>
      if b0 <? 0x80 then cons_char b0 (utf8_decode r0)
      else if b0 <? 0xC0 then None
      else if b0 <? 0xE0 then
        match r0 with
        | b1 :: r1 =>
            let c := (b0 - 0xC0) * 64 + (b1 - 0x80) in
            if is_cont b1 && (0x80 <=? c)
            then cons_char c (utf8_decode r1) else None
        | _ => None
        end
      else if b0 <? 0xF0 then
        match r0 with
        | b1 :: b2 :: r2 =>
            let c := (b0 - 0xE0) * 4096 + (b1 - 0x80) * 64 + (b2 - 0x80) in
            if is_cont b1 && is_cont b2 && (0x800 <=? c)
               && negb (is_surrogate c)
            then cons_char c (utf8_decode r2) else None
        | _ => None
        end
      else if b0 <? 0xF8 then
        match r0 with
        | b1 :: b2 :: b3 :: r3 =>
            let c := (b0 - 0xF0) * 262144 + (b1 - 0x80) * 4096
                     + (b2 - 0x80) * 64 + (b3 - 0x80) in
            if is_cont b1 && is_cont b2 && is_cont b3 && (0x10000 <=? c)
               && (c <? 0x110000)
            then cons_char c (utf8_decode r3) else None
        | _ => None
        end
      else None
  end.

(** The platform of the interpreter decides [os.linesep]. *)
Inductive platform := Posix | Windows.

Definition linesep (p : platform) : str :=
  match p with
  | Posix => [10]
  | Windows => [13; 10]
  end.

(** Writing in text mode with the default [newline=None]: every line feed
    becomes [os.linesep]. *)
Definition write_newlines (p : platform) (text : str) : str :=
  flat_map (fun c => if c =? 10 then linesep p else [c]) text.

(** Reading in text mode with the default [newline=None]: CR LF and a
    lone CR become a line feed. *)
Fixpoint read_newlines (text : str) : str :=
  match text with
  | [] => []
  | c :: r =>
      if c =? 13 then
        match r with
        | d :: r' => if d =? 10 then 10 :: read_newlines r'
                     else 10 :: read_newlines r
        | [] => [10]
        end
      else c :: read_newlines r
  end.

(** The files of the machine, by path.  Opening a path for writing is
    taken to succeed; an absent file cannot be read. *)
Definition filesystem := str -> option (list byte).

Definition write_file (path : str) (content : list byte) (fs : filesystem)
  : filesystem :=
  fun p => if str_eqb p path then Some content else fs p.

(** [f.write(text)] on a file opened with ['w'] and UTF-8. *)
Definition write_text (p : platform) (path text : str) (fs : filesystem)
  : option filesystem :=
  content <- utf8_encode (write_newlines p text) ;;
  Some (write_file path content fs).

(** [f.read()] on a file opened with ['r'] and UTF-8. *)
Definition read_text (path : str) (fs : filesystem) : option str :=
  content <- fs path ;;
  text <- utf8_decode content ;;
  Some (read_newlines text).

(* ===================================================================== *)
(** ** [json.dump(obj, f, ensure_ascii=False, indent=2)] *)
(* ===================================================================== *)

(** The encoder of the standard library ([json.encoder]:
    [encode_basestring], and the list and dict loops of
    [_make_iterencode] with the separators that an indent gives, a comma
    between items and a colon and a space after a key), on the values the
    chunker stores. *)

Definition hex_digit (d : N) : char := if d <? 10 then 48 + d else 87 + d.

(** The replacement of one character by [encode_basestring]: the quote,
    the backslash and the control characters are escaped, everything else
    is written as it is. *)
Definition escape_char (c : char) : str :=
  if c =? 34 then [92; 34]
  else if c =? 92 then lit "\\"
  else if c =? 10 then lit "\n"
  else if c =? 13 then lit "\r"
  else if c =? 9 then lit "\t"
  else if c =? 8 then lit "\b"
  else if c =? 12 then lit "\f"
  else if c <? 0x20 then lit "\u00" ++ [hex_digit (c / 16); hex_digit (c mod 16)]
  else [c].

Definition encode_basestring (s : str) : str :=
  [34] ++ flat_map escape_char s ++ [34].

(** A line feed and the indentation of a nesting level, two spaces each. *)
Definition newline_indent (level : nat) : str := 10 :: repeat 32 (2 * level).

(** The text of a value at a nesting level. *)
Fixpoint dumps (level : nat) (v : pyval) : str :=
  match v with
  | VNone => lit "null"
  | VBool b => if b then lit "true" else lit "false"
  | VStr s => encode_basestring s
  | VList [] => lit "[]"
  | VList (x :: xs) =>
      lit "[" ++ newline_indent (S level) ++ dumps (S level) x
      ++ concat (map (fun y => lit "," ++ newline_indent (S level)
                               ++ dumps (S level) y) xs)
      ++ newline_indent level ++ lit "]"
  | VDict [] => lit "{}"
  | VDict ((k, x) :: d) =>
      lit "{" ++ newline_indent (S level) ++ encode_basestring k ++ lit ": "
      ++ dumps (S level) x
      ++ concat (map (fun kv => lit "," ++ newline_indent (S level)
                                ++ encode_basestring (fst kv) ++ lit ": "
                                ++ dumps (S level) (snd kv)) d)
      ++ newline_indent level ++ lit "}"
  end.

(* ===================================================================== *)
(** ** [json.load(f)] *)
(* ===================================================================== *)

(** The decoder of the standard library ([json.decoder] and
    [json.scanner]: [scanstring], [JSONObject], [JSONArray], [scan_once],
    [decode]). *)

Definition is_json_ws (c : char) : bool :=
  (c =? 32) || (c =? 9) || (c =? 10) || (c =? 13).

Fixpoint skip_ws (s : str) : str :=
  match s with
  | c :: s' => if is_json_ws c then skip_ws s' else s
  | [] => []
  end.

Definition hex_value (c : char) : option N :=
  if in_range 48 57 c then Some (c - 48)
  else if in_range 97 102 c then Some (c - 87)
  else if in_range 65 70 c then Some (c - 55)
  else None.

Definition hex4 (h1 h2 h3 h4 : char) : option N :=
  d1 <- hex_value h1 ;; d2 <- hex_value h2 ;;
  d3 <- hex_value h3 ;; d4 <- hex_value h4 ;;
  Some (((d1 * 16 + d2) * 16 + d3) * 16 + d4).

(** The character of a one-letter escape. *)
Definition unescape (e : char) : option char :=
  if e =? 34 then Some 34
  else if e =? 92 then Some 92
  else if e =? 47 then Some 47
  else if e =? 98 then Some 8
  else if e =? 102 then Some 12
  else if e =? 110 then Some 10
  else if e =? 114 then Some 13
  else if e =? 116 then Some 9
  else None.

Definition cons_scanned (c : char) (o : option (str * str))
  : option (str * str) :=
  match o with
  | Some (t, rest) => Some (c :: t, rest)
  | None => None
  end.

(** [scanstring] in strict mode, from the character after the opening
    quote: the string and what follows its closing quote. *)
Fixpoint scanstring (s : str) : option (str * str) :=
  match s with
  | [] => None
  | c :: r =>
      if c =? 34 then Some ([], r)
      else if c =? 92 then
        match r with
        | [] => None
        | e :: r1 =>
            if e =? 117 then
              match r1 with
              | h1 :: h2 :: h3 :: h4 :: r2 =>
                  match hex4 h1 h2 h3 h4 with
                  | None => None
                  | Some uni =>
                      match r2 with
                      | [] => None
                      | b :: u :: l1 :: l2 :: l3 :: l4 :: ((_ :: _) as r3) =>
                          if in_range 0xD800 0xDBFF uni && (b =? 92)
                             && (u =? 117)
                          then
                            match hex4 l1 l2 l3 l4 with
                            | None => None
                            | Some uni2 =>
                                if in_range 0xDC00 0xDFFF uni2
                                then cons_scanned
                                       (0x10000 + (uni - 0xD800) * 1024
                                        + (uni2 - 0xDC00))
                                       (scanstring r3)
                                else cons_scanned uni (scanstring r2)
                            end
                          else cons_scanned uni (scanstring r2)
                      | _ :: _ => cons_scanned uni (scanstring r2)
                      end
                  end
              | _ => None
              end
            else
              match unescape e with
              | Some c' => cons_scanned c' (scanstring r1)
              | None => None
              end
        end
      else if c <? 0x20 then None
      else cons_scanned c (scanstring r)
  end.

(** [s] without the literal [l] at its head. *)
Fixpoint eat (l s : str) : option str :=
  match l, s with
  | [], _ => Some s
  | x :: l', c :: s' => if c =? x then eat l' s' else None
  | _ :: _, [] => None
  end.

(** [dict(pairs)]: a repeated key keeps its first place and takes the
    last value. *)
Fixpoint dict_set (k : str) (v : pyval) (d : list (str * pyval))
  : list (str * pyval) :=
  match d with
  | [] => [(k, v)]
  | (k', v') :: d' =>
      if str_eqb k' k then (k', v) :: d' else (k', v') :: dict_set k v d'
  end.

Definition dict_of_pairs (pairs : list (str * pyval)) : list (str * pyval) :=
  fold_left (fun d kv => dict_set (fst kv) (snd kv) d) pairs [].

(** The scanner, with the number of nested calls it may still make.
    [scan_once] reads one value; [JSONArray] and [JSONObject] read the
    items after the first, bracket or brace included.  A number (or NaN,
    Infinity) is outside the values modelled here and stops the scan. *)
Fixpoint scan_once (fuel : nat) (s : str) : option (pyval * str) :=
  match fuel with
  | O => None
  | S n =>
      match s with
      | [] => None
      | c :: r =>
          if c =? 34 then
            match scanstring r with
            | Some (t, rest) => Some (VStr t, rest)
            | None => None
            end
          else if c =? 123 then
            match skip_ws r with
            | c1 :: r1 =>
                if c1 =? 125 then Some (VDict [], r1)
                else if c1 =? 34 then JSONObject n r1 []
                else None
            | [] => None
            end
          else if c =? 91 then
            match skip_ws r with
            | c1 :: r1 =>
                if c1 =? 93 then Some (VList [], r1)
                else JSONArray n (c1 :: r1) []
            | [] => None
            end
          else
            match eat (lit "null") s, eat (lit "true") s, eat (lit "false") s with
            | Some rest, _, _ => Some (VNone, rest)
            | _, Some rest, _ => Some (VBool true, rest)
            | _, _, Some rest => Some (VBool false, rest)
            | _, _, _ => None
            end
      end
  end

with JSONArray (fuel : nat) (s : str) (values : list pyval)
  : option (pyval * str) :=
  match fuel with
  | O => None
  | S n =>
      match scan_once n s with
      | None => None
      | Some (value, s1) =>
          match skip_ws s1 with
          | c :: s2 =>
              if c =? 93 then Some (VList (rev (value :: values)), s2)
              else if c =? 44 then JSONArray n (skip_ws s2) (value :: values)
              else None
          | [] => None
          end
      end
  end

with JSONObject (fuel : nat) (s : str) (pairs : list (str * pyval))
  : option (pyval * str) :=
  match fuel with
  | O => None
  | S n =>
      match scanstring s with
      | None => None
      | Some (key, s1) =>
          match skip_ws s1 with
          | c :: s2 =>
              if c =? 58 then
                match scan_once n (skip_ws s2) with
                | None => None
                | Some (value, s3) =>
                    match skip_ws s3 with
                    | c' :: s4 =>
                        if c' =? 125 then
                          Some (VDict (dict_of_pairs
                                         (rev ((key, value) :: pairs))), s4)
                        else if c' =? 44 then
                          match skip_ws s4 with
                          | q :: s5 =>
                              if q =? 34
                              then JSONObject n s5 ((key, value) :: pairs)
                              else None
                          | [] => None
                          end
                        else None
                    | [] => None
                    end
                end
              else None
          | [] => None
          end
      end
  end.

(** [json.loads(text)]: one value, with whitespace around it and nothing
    else. *)
Definition loads (text : str) : option pyval :=
  match scan_once (S (length text)) (skip_ws text) with
  | Some (v, rest) =>
      match skip_ws rest with
      | [] => Some v
      | _ => None
      end
  | None => None
  end.

(** [save_to_json]: the file system after the call. *)
Definition save_to_json (p : platform) (output_path : str) (s : chunker)
    (fs : filesystem) : option filesystem :=
  fs <- write_text p output_path (dumps 0 (chunks s)) fs ;;
  _ <- py_len (chunks s) ;;
  Some fs.

(** [load_from_json]: the chunker after the call and the value returned. *)
Definition load_from_json (input_path : str) (s : chunker) (fs : filesystem)
  : option (chunker * pyval) :=
  text <- read_text input_path fs ;;
  v <- loads text ;;
  let s := set_chunks v s in
  _ <- py_len (chunks s) ;;
  Some (s, chunks s).

(* ===================================================================== *)
(** ** [get_statistics] and [chunk_pdf] *)
(* ===================================================================== *)

(** Truth value of a value: [None], [False] and the empty string, list
    and dict are false. *)
Definition py_truthy (v : pyval) : bool :=
  match v with
  | VNone => false
  | VBool b => b
  | VStr s => nonempty s
  | VList l => nonempty l
  | VDict d => nonempty d
  end.

(** [for x in v]: the items of a list, the keys of a dict, the characters
    of a string; [None] and booleans are not iterable. *)
Definition py_iter (v : pyval) : option (list pyval) :=
  match v with
  | VList l => Some l
  | VDict d => Some (map (fun kv => VStr (fst kv)) d)
  | VStr s => Some (map (fun c => VStr [c]) s)
  | _ => None
  end.

(** [a == b] on hashable values. *)
Definition py_eqb (a b : pyval) : bool :=
  match a, b with
  | VNone, VNone => true
  | VBool x, VBool y => Bool.eqb x y
  | VStr x, VStr y => str_eqb x y
  | _, _ => false
  end.

(** [st.add(x)] on a set, kept as the list of its members in the order
    they came; a list or a dict is unhashable (TypeError). *)
Definition set_add (x : pyval) (st : list pyval) : option (list pyval) :=
  match x with
  | VList _ | VDict _ => None
  | _ => if existsb (py_eqb x) st then Some st else Some (st ++ [x])
  end.

(** The local dict [stats] of [get_statistics]. *)
Record stats := mkStats {
  total_chunks : nat;
  total_articles : nat;
  sub_articles : nat;
  base_articles : nat;
  livres : list pyval;
  titres : list pyval;
  chapitres : list pyval;
  sections : list pyval
}.

(** [if meta[key]: st.add(meta[key])] *)
Definition add_label (key : string) (meta : pyval) (st : list pyval)
  : option (list pyval) :=
  v <- getitem key meta ;;
  if py_truthy v then set_add v st else Some st.
Arguments add_label key%_string meta st.

(** The body of the loop of [get_statistics] on one chunk; [None] is the
    KeyError of a missing key or the TypeError of a value that is not a
    dict or cannot be hashed. *)
Definition count_chunk (chunk : pyval) (st : stats) : option stats :=
  meta <- getitem "metadata" chunk ;;
  sub <- getitem "is_sub_article" meta ;;
  let '(n_sub, n_base) :=
    if py_truthy sub then (S (sub_articles st), base_articles st)
    else (sub_articles st, S (base_articles st)) in
  li <- add_label "livre" meta (livres st) ;;
  ti <- add_label "titre" meta (titres st) ;;
  ch <- add_label "chapitre" meta (chapitres st) ;;
  se <- add_label "section" meta (sections st) ;;
  Some (mkStats (total_chunks st) (total_articles st) n_sub n_base li ti ch se).

Fixpoint count_chunks (items : list pyval) (st : stats) : option stats :=
  match items with
  | [] => Some st
  | chunk :: items' => st <- count_chunk chunk st ;; count_chunks items' st
  end.

(** [get_statistics]: the dict of counts it returns, in the order of the
    source. *)
Definition get_statistics (s : chunker) : option (list (str * nat)) :=
  n <- py_len (chunks s) ;;
  let st := mkStats n n 0 0 [] [] [] [] in
  items <- py_iter (chunks s) ;;
  st <- count_chunks items st ;;
  Some [ (lit "total_chunks", total_chunks st);
         (lit "total_articles", total_articles st);
         (lit "base_articles", base_articles st);
         (lit "sub_articles", sub_articles st);
         (lit "livres", length (livres st));
         (lit "titres", length (titres st));
         (lit "chapitres", length (chapitres st));
         (lit "sections", length (sections st)) ].

(** [stats[key]] on the dict returned. *)
Fixpoint count_of (k : str) (d : list (str * nat)) : option nat :=
  match d with
  | [] => None
  | (k', n) :: d' => if str_eqb k' k then Some n else count_of k d'
  end.

(** [chunk_pdf]: the list it returns and the file system after the call;
    [output_json] is [None] when the argument is left out. *)
Definition chunk_pdf {U : UnicodeDB} (extract_text_from_pdf : str -> option str)
    (p : platform) (pdf_path : str) (output_json : option str)
    (fs : filesystem) : option (pyval * filesystem) :=
  let chunker := __init__ in
  match process_pdf extract_text_from_pdf pdf_path chunker with
  | Some (chunker, out) =>
      fs <- (if truthy output_json
             then save_to_json p (fmt output_json) chunker fs
             else Some fs) ;;
      Some (out, fs)
  | None => None
  end.

(* ===================================================================== *)
(** ** The chunker as an object: the chunk list on the heap *)
(* ===================================================================== *)

(** [self.chunks] is a reference to a list object: [append] changes that
    object in place, [parse_text] returns the reference itself, and the
    assignment [self.chunks = []] binds the attribute to a new object and
    leaves the old one to whoever still holds it.  Where a property
    depends on which list a caller holds, the methods are read with the
    objects on a heap; the chunks themselves stay values, since the module
    never changes a chunk once it is appended. *)

Definition ref := nat.

(** The objects allocated so far, by address. *)
Definition heap := list pyval.

Definition deref (h : heap) (r : ref) : option pyval := nth_error h r.

(** A new object: the heap with it, and its address. *)
Definition alloc (v : pyval) (h : heap) : heap * ref := (h ++ [v], length h).

(** The object at [r] replaced by [v]: a change in place. *)
Fixpoint store (h : heap) (r : ref) (v : pyval) : heap :=
  match h, r with
  | [], _ => []
  | _ :: h', O => v :: h'
  | x :: h', S r' => x :: store h' r' v
  end.

(** [obj.append(x)] on the object at [r]: only lists have the method. *)
Definition heap_append (h : heap) (r : ref) (x : pyval) : option heap :=
  match deref h r with
  | Some (VList l) => Some (store h r (VList (l ++ [x])))
  | _ => None
  end.

Module Obj.

Record chunker := mkChunker {
  chunks : ref;
  current_livre : option str;
  current_titre : option str;
  current_chapitre : option str;
  current_section : option str;
  current_article : option str;
  current_article_number : option str;
  current_article_text : list str
}.

Definition set_chunks v (s : chunker) :=
  mkChunker v (current_livre s) (current_titre s) (current_chapitre s)
    (current_section s) (current_article s) (current_article_number s)
    (current_article_text s).
Definition set_current_livre v (s : chunker) :=
  mkChunker (chunks s) v (current_titre s) (current_chapitre s)
    (current_section s) (current_article s) (current_article_number s)
    (current_article_text s).
Definition set_current_titre v (s : chunker) :=
  mkChunker (chunks s) (current_livre s) v (current_chapitre s)
    (current_section s) (current_article s) (current_article_number s)
    (current_article_text s).
Definition set_current_chapitre v (s : chunker) :=
  mkChunker (chunks s) (current_livre s) (current_titre s) v
    (current_section s) (current_article s) (current_article_number s)
    (current_article_text s).
Definition set_current_section v (s : chunker) :=
  mkChunker (chunks s) (current_livre s) (current_titre s)
    (current_chapitre s) v (current_article s) (current_article_number s)
    (current_article_text s).
Definition set_current_article v (s : chunker) :=
  mkChunker (chunks s) (current_livre s) (current_titre s)
    (current_chapitre s) (current_section s) v (current_article_number s)
    (current_article_text s).
Definition set_current_article_number v (s : chunker) :=
  mkChunker (chunks s) (current_livre s) (current_titre s)
    (current_chapitre s) (current_section s) (current_article s) v
    (current_article_text s).
Definition set_current_article_text v (s : chunker) :=
  mkChunker (chunks s) (current_livre s) (current_titre s)
    (current_chapitre s) (current_section s) (current_article s)
    (current_article_number s) v.

(** [_reset_context] *)
Definition _reset_context (s : chunker) : chunker :=
  let s := set_current_livre None s in
  let s := set_current_titre None s in
  let s := set_current_chapitre None s in
  let s := set_current_section None s in
  let s := set_current_article None s in
  let s := set_current_article_number None s in
  set_current_article_text [] s.

(** [__init__]: a new list object for [self.chunks]. *)
Definition __init__ (h : heap) : chunker * heap :=
  let '(h, r) := alloc (VList []) h in
  (_reset_context (mkChunker r None None None None None None []), h).

Section Methods.
Context {U : UnicodeDB}.

(** [_create_chunk]: it reads the context only. *)
Definition _create_chunk (s : chunker) : option pyval :=
  let full_text := strip (join (lit " ") (current_article_text s)) in
  number <- current_article_number s ;;
  _ <- current_article s ;;
  let article_id := replace 45 95 number in
  let chunk_id := lit "CT_TN_A" ++ article_id in
  let hierarchy_parts :=
    hierarchy_part "Livre" (current_livre s)
    ++ hierarchy_part "Titre" (current_titre s)
    ++ hierarchy_part "Chapitre" (current_chapitre s)
    ++ hierarchy_part "Section" (current_section s)
    ++ [fmt (current_article s)] in
  let is_sub_article := contains 45 number in
  let base_article :=
    if is_sub_article then hd [] (split 45 number) else number in
  Some (VDict
    [ (lit "id", VStr chunk_id);
      (lit "text", VStr full_text);
      (lit "metadata", VDict
        [ (lit "livre", of_opt (current_livre s));
          (lit "titre", of_opt (current_titre s));
          (lit "chapitre", of_opt (current_chapitre s));
          (lit "section", of_opt (current_section s));
          (lit "article", of_opt (current_article s));
          (lit "article_number", VStr number);
          (lit "base_article", VStr base_article);
          (lit "is_sub_article", VBool is_sub_article);
          (lit "law", VStr (lit "Code du travail tunisien"));
          (lit "chunk_type", VStr (lit "article"));
          (lit "citation",
             VStr (lit "Code du travail tunisien, art. " ++ number));
          (lit "hierarchy_path", VStr (join (lit " > ") hierarchy_parts)) ]) ]).

(** [_save_article_chunk]: the chunk is appended to the list object that
    [self.chunks] refers to; the attribute itself is not assigned. *)
Definition _save_article_chunk (s : chunker) (h : heap)
  : option (chunker * heap) :=
  if truthy (current_article s) && nonempty (current_article_text s) then
    let cleaned_text :=
      map strip
        (filter (fun line => nonempty (strip line)) (current_article_text s)) in
    if nonempty cleaned_text then
      let s := set_current_article_text cleaned_text s in
      chunk <- _create_chunk s ;;
      h <- heap_append h (chunks s) chunk ;;
      Some (set_current_article_text [] s, h)
    else Some (s, h)
  else Some (s, h).

Definition on_livre (m : groups) (next : option str) (s : chunker) (h : heap)
  : option (chunker * heap * bool) :=
  match _save_article_chunk s h with
  | Some (s, h) =>
      let livre_num := group 1 m in
      g2 <- group 2 m ;;
      let livre_title := strip g2 in
      let '(livre_title, consumed) := continuation livre_title next in
      let s :=
        set_current_livre (Some (label "Livre" livre_num livre_title)) s in
      let s := set_current_titre None s in
      let s := set_current_chapitre None s in
      let s := set_current_section None s in
      let s := set_current_article None s in
      let s := set_current_article_number None s in
      Some (s, h, consumed)
  | None => None
  end.

Definition on_titre (m : groups) (next : option str) (s : chunker) (h : heap)
  : option (chunker * heap * bool) :=
  match _save_article_chunk s h with
  | Some (s, h) =>
      let titre_num := group 1 m in
      g2 <- group 2 m ;;
      let titre_title := strip g2 in
      let '(titre_title, consumed) := continuation titre_title next in
      let s :=
        set_current_titre (Some (label "Titre" titre_num titre_title)) s in
      let s := set_current_chapitre None s in
      let s := set_current_section None s in
      let s := set_current_article None s in
      let s := set_current_article_number None s in
      Some (s, h, consumed)
  | None => None
  end.

Definition on_chapitre (m : groups) (next : option str) (s : chunker)
    (h : heap) : option (chunker * heap * bool) :=
  match _save_article_chunk s h with
  | Some (s, h) =>
      let chap_num := group 1 m in
      g2 <- group 2 m ;;
      let chap_title := strip g2 in
      let '(chap_title, consumed) := continuation chap_title next in
      let s :=
        set_current_chapitre (Some (label "Chapitre" chap_num chap_title)) s in
      let s := set_current_section None s in
      let s := set_current_article None s in
      let s := set_current_article_number None s in
      Some (s, h, consumed)
  | None => None
  end.

Definition on_section (m : groups) (next : option str) (s : chunker)
    (h : heap) : option (chunker * heap * bool) :=
  match _save_article_chunk s h with
  | Some (s, h) =>
      let sec_num := group 1 m in
      g2 <- group 2 m ;;
      let sec_title := strip g2 in
      let '(sec_title, consumed) := continuation sec_title next in
      let s :=
        set_current_section (Some (label "Section" sec_num sec_title)) s in
      let s := set_current_article None s in
      let s := set_current_article_number None s in
      Some (s, h, consumed)
  | None => None
  end.

Definition on_article (m : groups) (s : chunker) (h : heap)
  : option (chunker * heap * bool) :=
  match _save_article_chunk s h with
  | Some (s, h) =>
      let s := set_current_article_number (group 1 m) s in
      let s :=
        set_current_article
          (Some (lit "Article " ++ fmt (current_article_number s))) s in
      g2 <- group 2 m ;;
      let article_text := strip g2 in
      let s :=
        if nonempty article_text
        then set_current_article_text
               (current_article_text s ++ [article_text]) s
        else s in
      Some (s, h, false)
  | None => None
  end.

Definition on_other (line : str) (s : chunker) (h : heap)
  : option (chunker * heap * bool) :=
  let s :=
    if truthy (current_article s)
       && negb (nonempty_opt (re_match re_I keyword_re line))
    then set_current_article_text (current_article_text s ++ [line]) s
    else s in
  Some (s, h, false).

(** One iteration of the loop of [parse_text]. *)
Definition step (line : str) (next : option str) (s : chunker) (h : heap)
  : option (chunker * heap * bool) :=
  match re_match re_I livre_re line with
  | Some livre_match => on_livre livre_match next s h
  | None =>
  match re_match re_I titre_re line with
  | Some titre_match => on_titre titre_match next s h
  | None =>
  match re_match re_I chapitre_re line with
  | Some chapitre_match => on_chapitre chapitre_match next s h
  | None =>
  match re_match re_I section_re line with
  | Some section_match => on_section section_match next s h
  | None =>
  match re_match re_I article_re line with
  | Some article_match => on_article article_match s h
  | None => on_other line s h
  end end end end end.

Fixpoint parse_loop (lines : list str) (s : chunker) (h : heap)
  : option (chunker * heap) :=
  match lines with
  | [] => Some (s, h)
  | line :: rest =>
      match step line (hd_error rest) s h with
      | None => None
      | Some (s', h', consumed) =>
          match rest with
          | _ :: rest' =>
              if consumed then parse_loop rest' s' h'
              else parse_loop rest s' h'
          | [] => parse_loop rest s' h'
          end
      end
  end.

(** [parse_text]: the chunker and the heap after the call, and the
    reference it returns, which is [self.chunks] itself. *)
Definition parse_text (text : str) (s : chunker) (h : heap)
  : option (chunker * heap * ref) :=
  let lines := normalize text in
  match parse_loop lines s h with
  | Some (s, h) =>
      match _save_article_chunk s h with
      | Some (s, h) =>
          v <- deref h (chunks s) ;;
          _ <- py_len v ;;
          Some (s, h, chunks s)
      | None => None
      end
  | None => None
  end.

Variable extract_text_from_pdf : str -> option str.

(** [process_pdf]: [self.chunks] is bound to a new list object before
    the parse. *)
Definition process_pdf (pdf_path : str) (s : chunker) (h : heap)
  : option (chunker * heap * ref) :=
  let '(h, r) := alloc (VList []) h in
  let s := set_chunks r s in
  let s := _reset_context s in
  text <- extract_text_from_pdf pdf_path ;;
  parse_text text s h.

End Methods.

End Obj.

(* ===================================================================== *)
(** * The vocabulary of the properties *)
(* ===================================================================== *)

(** The part of [s] before the first [a], all of [s] when it has none. *)
Fixpoint before_first (a : char) (s : str) : str :=
  match s with
  | [] => []
  | c :: s' => if c =? a then [] else c :: before_first a s'
  end.

(** The groups a pattern sets on every path through it. *)
Fixpoint binds (r : regex) (n : nat) : bool :=
  match r with
  | RSeq r1 r2 => binds r1 n || binds r2 n
  | RAlt r1 r2 => binds r1 n && binds r2 n
  | RGroup m r1 => Nat.eqb m n || binds r1 n
  | _ => false
  end.

(** The first character of the subject under a pattern that starts with
    [^] and a word. *)
Definition starts_with_chr (ic : bool) (x : char) (s : str) : bool :=
  match s with
  | c :: _ => chr_match ic x c
  | [] => false
  end.

(** The five keywords start with different letters: L, T, C, S, A. *)
Definition initials : list char := [76; 84; 67; 83; 65].

(** [[line.strip() for line in lines if line.strip()]] *)
Definition cleaned_lines {U : UnicodeDB} (lines : list str) : list str :=
  map strip (filter (fun line => nonempty (strip line)) lines).

(** Every chunk the flush adds comes from [_create_chunk]. *)
Definition extends (P : pyval -> Prop) (s s' : chunker) : Prop :=
  forall l, chunks s = VList l ->
  exists new, chunks s' = VList (l ++ new) /\ Forall P new.

(** The state in which [parse_text] cannot raise: the chunk list is a
    list, and an active article has its number. *)
Definition ready (s : chunker) : Prop :=
  (exists l, chunks s = VList l)
  /\ (truthy (current_article s) = true -> current_article_number s <> None).

(** What a matcher does on a match: from the groups, the next line and
    the chunker, the chunker after the line and the lookahead flag. *)
Definition handler := groups -> option str -> chunker -> option (chunker * bool).

(** The dispatch in the words of the specification: the five matchers as
    an ordered list of pattern and handler, in the priority order Book,
    Title, Chapter, Section, Article. *)
Definition matchers {U : UnicodeDB} : list (regex * handler) :=
  [ (livre_re, on_livre); (titre_re, on_titre); (chapitre_re, on_chapitre);
    (section_re, on_section); (article_re, fun m _ s => on_article m s) ].

(** The first matcher of a list that accepts the line, with its groups. *)
Fixpoint first_match {U : UnicodeDB} (ms : list (regex * handler))
    (line : str) : option (handler * groups) :=
  match ms with
  | [] => None
  | (r, h) :: ms' =>
      match re_match re_I r line with
      | Some m => Some (h, m)
      | None => first_match ms' line
      end
  end.

(** The line starts with one of the five keywords (the lookahead test). *)
Definition keyword_line {U : UnicodeDB} (line : str) : bool :=
  nonempty_opt (re_match re_I keyword_re line).

(** The four heading levels, with the pattern, the keyword of the label,
    the field and the branch of each. *)
Inductive level := Livre | Titre | Chapitre | Section.

Definition level_pattern (lv : level) : regex :=
  match lv with
  | Livre => livre_re
  | Titre => titre_re
  | Chapitre => chapitre_re
  | Section => section_re
  end.

Definition level_keyword (lv : level) : string :=
  match lv with
  | Livre => "Livre"
  | Titre => "Titre"
  | Chapitre => "Chapitre"
  | Section => "Section"
  end.

Definition level_label (lv : level) (s : chunker) : option str :=
  match lv with
  | Livre => current_livre s
  | Titre => current_titre s
  | Chapitre => current_chapitre s
  | Section => current_section s
  end.

Definition on_level {U : UnicodeDB} (lv : level) : handler :=
  match lv with
  | Livre => on_livre
  | Titre => on_titre
  | Chapitre => on_chapitre
  | Section => on_section
  end.

(** What C5 says of a chunk: with [number] its article number,
    [is_sub_article] tells whether the number has a hyphen,
    [base_article] is the number up to its first hyphen, and [id] is the
    law code followed by the number with underscores for hyphens. *)
Definition derived_fields (c : pyval) : Prop :=
  exists meta number base sub,
    getitem "metadata" c = Some meta
    /\ getitem "article_number" meta = Some (VStr number)
    /\ getitem "is_sub_article" meta = Some (VBool sub)
    /\ (sub = true <-> In 45 number)
    /\ getitem "base_article" meta = Some (VStr base)
    /\ (In 45 number ->
        exists rest, number = base ++ 45 :: rest /\ ~ In 45 base)
    /\ (~ In 45 number -> base = number)
    /\ getitem "id" c
       = Some (VStr (lit "CT_TN_A"
                     ++ map (fun ch => if ch =? 45 then 95 else ch) number)).

(** The keys of a chunk, in the order of the source. *)
Definition chunk_keys : list str := map lit ["id"; "text"; "metadata"]%string.

(** The keys of the metadata, in the order of the source. *)
Definition metadata_keys : list str :=
  map lit ["livre"; "titre"; "chapitre"; "section"; "article";
           "article_number"; "base_article"; "is_sub_article"; "law";
           "chunk_type"; "citation"; "hierarchy_path"]%string.

(** The keys of the metadata as C6 names them. *)
Definition claimed_metadata_keys : list str :=
  map lit ["book"; "title"; "chapter"; "section"; "article";
           "article_number"; "base_article"; "is_sub_article"; "law";
           "chunk_type"; "citation"; "hierarchy_path"]%string.

(** The shape of a chunk: its keys, the keys of its metadata, and the two
    constant fields. *)
Definition chunk_shape (c : pyval) : Prop :=
  keys c = chunk_keys
  /\ exists meta,
       getitem "metadata" c = Some meta
       /\ keys meta = metadata_keys
       /\ getitem "law" meta = Some (VStr (lit "Code du travail tunisien"))
       /\ getitem "chunk_type" meta = Some (VStr (lit "article")).

(** A code point of the Unicode range, and one that UTF-8 can encode. *)
Definition in_unicode (c : char) : bool := c <? 0x110000.
Definition encodable (c : char) : bool := in_unicode c && negb (is_surrogate c).

(** Every character of every string of a value, keys included. *)
Fixpoint chars_ok (p : char -> bool) (v : pyval) : bool :=
  match v with
  | VStr s => forallb p s
  | VList l => forallb (chars_ok p) l
  | VDict d => forallb (fun kv => forallb p (fst kv) && chars_ok p (snd kv)) d
  | _ => true
  end.

(** No string occurs twice in the list. *)
Fixpoint distinct (l : list str) : bool :=
  match l with
  | [] => true
  | k :: l' => negb (existsb (str_eqb k) l') && distinct l'
  end.

(** The keys of every dict of a value are distinct. *)
Fixpoint keys_ok (v : pyval) : bool :=
  match v with
  | VList l => forallb keys_ok l
  | VDict d => distinct (map fst d) && forallb (fun kv => keys_ok (snd kv)) d
  | _ => true
  end.

(** What every Python object of these types satisfies: code points in the
    Unicode range and dicts without repeated keys. *)
Definition pyobject (v : pyval) : bool := chars_ok in_unicode v && keys_ok v.

(** No string of the value holds a surrogate code point. *)
Definition surrogate_free (v : pyval) : bool :=
  chars_ok (fun c => negb (is_surrogate c)) v.

(** The nested calls the scanner makes on the text of a value. *)
Fixpoint size (v : pyval) : nat :=
  match v with
  | VList l => S (list_sum (map (fun x => S (size x)) l))
  | VDict d => S (list_sum (map (fun kv => S (size (snd kv))) d))
  | _ => 1
  end.

(** Induction on a value, with the hypothesis for every item of a list
    and every value of a dict. *)
Fixpoint pyval_nested_ind (P : pyval -> Prop)
    (HNone : P VNone) (HBool : forall b, P (VBool b))
    (HStr : forall s, P (VStr s))
    (HList : forall l, Forall P l -> P (VList l))
    (HDict : forall d, Forall (fun kv => P (snd kv)) d -> P (VDict d))
    (v : pyval) {struct v} : P v :=
  match v with
  | VNone => HNone
  | VBool b => HBool b
  | VStr s => HStr s
  | VList l =>
      HList l
        ((fix items (l : list pyval) : Forall P l :=
            match l with
            | [] => Forall_nil P
            | x :: l' =>
                Forall_cons x
                  (pyval_nested_ind HNone HBool HStr HList HDict x) (items l')
            end) l)
  | VDict d =>
      HDict d
        ((fix members (d : list (str * pyval))
            : Forall (fun kv => P (snd kv)) d :=
            match d with
            | [] => Forall_nil _
            | kv :: d' =>
                Forall_cons kv
                  (pyval_nested_ind HNone HBool HStr HList HDict (snd kv))
                  (members d')
            end) d)
  end.

(** A value starts with a quote, a brace, a bracket, or n, t, f. *)
Definition value_start (c : char) : bool :=
  (c =? 34) || (c =? 123) || (c =? 91) || (c =? 110) || (c =? 116)
  || (c =? 102).

(** What [dumps] writes after the first item of a list, followed by
    [rest]. *)
Definition items_tail (k : nat) (xs : list pyval) (rest : str) : str :=
  concat (map (fun y => lit "," ++ newline_indent (S k) ++ dumps (S k) y) xs)
  ++ newline_indent k ++ lit "]" ++ rest.

(** The same after the first member of a dict. *)
Definition members_tail (k : nat) (d : list (str * pyval)) (rest : str) : str :=
  concat (map (fun kv => lit "," ++ newline_indent (S k)
                         ++ encode_basestring (fst kv) ++ lit ": "
                         ++ dumps (S k) (snd kv)) d)
  ++ newline_indent k ++ lit "}" ++ rest.

(** The statement proved of every value by induction: the scanner reads
    the value back from its text, whatever follows. *)
Definition reads_back (v : pyval) : Prop :=
  keys_ok v = true ->
  forall k n rest, (size v <= n)%nat ->
  scan_once n (dumps k v ++ rest) = Some (v, rest).

(** The printable ASCII characters. *)
Definition printable (c : char) : bool := in_range 0x20 0x7E c.

(** ** The vocabulary of the further properties *)

(** A string that does not start with a whitespace character. *)
Definition head_ok {U : UnicodeDB} (s : str) : bool :=
  match s with
  | c :: _ => negb (isspace c)
  | [] => true
  end.

(** A string without whitespace at either end. *)
Definition trimmed {U : UnicodeDB} (s : str) : bool :=
  head_ok s && head_ok (rev s).

(** The position of a heading level in the hierarchy, from the top. *)
Definition rank (lv : level) : nat :=
  match lv with
  | Livre => 0
  | Titre => 1
  | Chapitre => 2
  | Section => 3
  end.

(** The metadata key of a heading level. *)
Definition level_key (lv : level) : string :=
  match lv with
  | Livre => "livre"
  | Titre => "titre"
  | Chapitre => "chapitre"
  | Section => "section"
  end.

(** The assignments of a heading branch: the label of the level is set,
    the labels below it, the article label and the article number are
    cleared. *)
Definition heading_update (lv : level) (lbl : str) (s : chunker) : chunker :=
  match lv with
  | Livre =>
      mkChunker (chunks s) (Some lbl) None None None None None
        (current_article_text s)
  | Titre =>
      mkChunker (chunks s) (current_livre s) (Some lbl) None None None None
        (current_article_text s)
  | Chapitre =>
      mkChunker (chunks s) (current_livre s) (current_titre s) (Some lbl)
        None None None (current_article_text s)
  | Section =>
      mkChunker (chunks s) (current_livre s) (current_titre s)
        (current_chapitre s) (Some lbl) None None (current_article_text s)
  end.

(** The assignments of the article branch. *)
Definition article_update (number : option str) (article_text : str)
    (s : chunker) : chunker :=
  mkChunker (chunks s) (current_livre s) (current_titre s)
    (current_chapitre s) (current_section s)
    (Some (lit "Article " ++ fmt number)) number
    (current_article_text s
     ++ (if nonempty article_text then [article_text] else [])).

(** The last block of the loop body. *)
Definition body_update {U : UnicodeDB} (line : str) (s : chunker) : chunker :=
  if truthy (current_article s) && negb (keyword_line line)
  then set_current_article_text (current_article_text s ++ [line]) s
  else s.

(** The line is accepted by the article pattern. *)
Definition article_line {U : UnicodeDB} (line : str) : bool :=
  nonempty_opt (re_match re_I article_re line).

(** One when an article is active, zero otherwise. *)
Definition active (s : chunker) : nat :=
  if truthy (current_article s) then 1%nat else 0%nat.

(** A call of a public method that parses. *)
Inductive call :=
| CallParseText (text : str)
| CallProcessPdf (pdf_path : str).

(** A sequence of calls on one chunker; [None] when one of them raises. *)
Fixpoint run_calls {U : UnicodeDB} (extract : str -> option str)
    (calls : list call) (s : chunker) : option chunker :=
  match calls with
  | [] => Some s
  | c :: calls' =>
      match (match c with
             | CallParseText text => parse_text text s
             | CallProcessPdf pdf_path => process_pdf extract pdf_path s
             end) with
      | Some (s', _) => run_calls extract calls' s'
      | None => None
      end
  end.

(** The extraction succeeds on every path that the calls process. *)
Fixpoint extractable (extract : str -> option str) (calls : list call)
  : Prop :=
  match calls with
  | [] => True
  | CallParseText _ :: calls' => extractable extract calls'
  | CallProcessPdf pdf_path :: calls' =>
      extract pdf_path <> None /\ extractable extract calls'
  end.

(** The article label is the word Article and the article number. *)
Definition labelled (s : chunker) : Prop :=
  forall a, current_article s = Some a ->
  exists number,
    current_article_number s = Some number /\ a = lit "Article " ++ number.

(** The article fields of a chunk agree with its article number. *)
Definition article_fields (c : pyval) : Prop :=
  exists meta number path,
    getitem "metadata" c = Some meta
    /\ getitem "article_number" meta = Some (VStr number)
    /\ getitem "article" meta = Some (VStr (lit "Article " ++ number))
    /\ getitem "citation" meta
       = Some (VStr (lit "Code du travail tunisien, art. " ++ number))
    /\ getitem "hierarchy_path" meta
       = Some (VStr (path ++ lit "Article " ++ number))
    /\ (path = [] \/ exists path', path = path' ++ lit " > ").

(** The text of a chunk is not empty and has no whitespace at its ends. *)
Definition text_field {U : UnicodeDB} (c : pyval) : Prop :=
  exists t, getitem "text" c = Some (VStr t) /\ t <> [] /\ trimmed t = true.

(** The article number of the chunk has a hyphen. *)
Definition sub_chunk (c : pyval) : bool :=
  match getitem "metadata" c with
  | Some meta =>
      match getitem "article_number" meta with
      | Some (VStr number) => contains 45 number
      | _ => false
      end
  | None => false
  end.

(** The value of a metadata field occurs among the chunks. *)
Definition label_among (key : string) (l : list pyval) (v : pyval) : Prop :=
  exists c meta,
    In c l /\ getitem "metadata" c = Some meta /\ getitem key meta = Some v.
Arguments label_among key%_string l v.

(** What [get_statistics] needs of a chunk: a metadata dict whose
    [is_sub_article] is a boolean that tells whether the number has a
    hyphen, and whose four heading fields are strings or [None]. *)
Definition countable (c : pyval) : Prop :=
  exists meta number,
    getitem "metadata" c = Some meta
    /\ getitem "article_number" meta = Some (VStr number)
    /\ getitem "is_sub_article" meta = Some (VBool (contains 45 number))
    /\ forall lv, exists o, getitem (level_key lv) meta = Some (of_opt o).

(** The set of [get_statistics] for a heading level, and the key of its
    count in the result. *)
Definition level_set (lv : level) (st : stats) : list pyval :=
  match lv with
  | Livre => livres st
  | Titre => titres st
  | Chapitre => chapitres st
  | Section => sections st
  end.

Definition level_count (lv : level) : string :=
  match lv with
  | Livre => "livres"
  | Titre => "titres"
  | Chapitre => "chapitres"
  | Section => "sections"
  end.

(** The [is_sub_article] field of the chunk is true. *)
Definition flagged_sub (c : pyval) : bool :=
  match getitem "metadata" c with
  | Some meta =>
      match getitem "is_sub_article" meta with
      | Some v => py_truthy v
      | None => false
      end
  | None => false
  end.

(** Every character of every group satisfies [Q]. *)
Definition groups_all (Q : char -> bool) (g : groups) : bool :=
  forallb (fun ng => forallb Q (snd ng)) g.

Definition opt_all (Q : char -> bool) (o : option str) : bool :=
  match o with
  | Some x => forallb Q x
  | None => true
  end.

(** Every character that the chunker holds satisfies [Q]. *)
Definition state_chars (Q : char -> bool) (s : chunker) : bool :=
  chars_ok Q (chunks s)
  && opt_all Q (current_livre s) && opt_all Q (current_titre s)
  && opt_all Q (current_chapitre s) && opt_all Q (current_section s)
  && opt_all Q (current_article s) && opt_all Q (current_article_number s)
  && forallb (forallb Q) (current_article_text s).

(** What a pattern accepts, apart from the order in which the matcher
    tries the alternatives: [r] takes the subject from [s] to [s'] and
    the groups from [g] to [g']. *)
Fixpoint spans {U : UnicodeDB} (ic : bool) (total : nat) (r : regex)
    (s : str) (g : groups) (s' : str) (g' : groups) : Prop :=
  match r with
  | RLit l => eat_lit ic l s = Some s' /\ g' = g
  | RAtom a => (exists c, s = c :: s' /\ atom_match ic a c = true) /\ g' = g
  | RStar a =>
      (exists w, s = w ++ s' /\ forallb (atom_match ic a) w = true) /\ g' = g
  | RPlus a =>
      (exists w, w <> [] /\ s = w ++ s'
                 /\ forallb (atom_match ic a) w = true) /\ g' = g
  | RSeq r1 r2 =>
      exists s1 g1, spans ic total r1 s g s1 g1 /\ spans ic total r2 s1 g1 s' g'
  | RAlt r1 r2 => spans ic total r1 s g s' g' \/ spans ic total r2 s g s' g'
  | ROpt r1 => (s' = s /\ g' = g) \/ spans ic total r1 s g s' g'
  | RGroup n r1 =>
      exists g1 w, spans ic total r1 s g s' g1 /\ s = w ++ s'
                   /\ g' = (n, w) :: g1
  | RBol => s' = s /\ g' = g /\ length s = total
  | REol => s' = s /\ g' = g /\ (s = [] \/ s = [10])
  end.

(** A string of decimal digits, not empty. *)
Definition is_digits {U : UnicodeDB} (d : str) : bool :=
  nonempty d && forallb isdecimal d.

(** The form of an article number: digits, or digits, a hyphen, digits. *)
Definition article_number_form {U : UnicodeDB} (number : str) : Prop :=
  exists d1,
    is_digits d1 = true
    /\ (number = d1
        \/ exists d2, is_digits d2 = true /\ number = d1 ++ 45 :: d2).

(** The characters that the line patterns skip after the number. *)
Definition sep_char {U : UnicodeDB} (c : char) : bool :=
  isspace c || (c =? 46) || (c =? 58).

(** The string is the word, up to the case of its letters. *)
Definition is_word (w : string) (s : str) : Prop :=
  eat_lit re_I (lit w) s = Some [].
Arguments is_word w%_string s.

(** An active article has a number of the form above. *)
Definition numbered {U : UnicodeDB} (s : chunker) : Prop :=
  forall number, current_article_number s = Some number ->
  article_number_form number.

(** The fields of a chunk that derive from its article number, for a
    number of the form above: [base_article] is the digits before the
    hyphen, [is_sub_article] tells whether there is a hyphen, and [id] is
    the law code and the number with an underscore for the hyphen. *)
Definition number_fields {U : UnicodeDB} (c : pyval) : Prop :=
  exists meta d1,
    is_digits d1 = true
    /\ getitem "metadata" c = Some meta
    /\ getitem "base_article" meta = Some (VStr d1)
    /\ ((getitem "article_number" meta = Some (VStr d1)
         /\ getitem "is_sub_article" meta = Some (VBool false)
         /\ getitem "id" c = Some (VStr (lit "CT_TN_A" ++ d1)))
        \/ exists d2,
             is_digits d2 = true
             /\ getitem "article_number" meta = Some (VStr (d1 ++ 45 :: d2))
             /\ getitem "is_sub_article" meta = Some (VBool true)
             /\ getitem "id" c
                = Some (VStr (lit "CT_TN_A" ++ d1 ++ 95 :: d2))).

(** The characters that the number of a heading can hold: the ASCII
    letters and digits, and the four characters that [re.I] takes for the
    letters i, s and k. *)
Definition numeral_char (c : char) : bool :=
  in_range 48 57 c || in_range 65 90 c || in_range 97 122 c
  || (c =? 0x130) || (c =? 0x131) || (c =? 0x17F) || (c =? 0x212A).

Definition is_numeral (num : str) : bool :=
  nonempty num && forallb numeral_char num.

(** What the hierarchy path needs of the tables of the interpreter: the
    space is whitespace, and no letter or digit above is. *)
Definition plain_spaces {U : UnicodeDB} : Prop :=
  isspace 32 = true /\ forall c, numeral_char c = true -> isspace c = false.

(** Every heading label of the chunker is the keyword of its level, a
    space and a number, with or without a title after a dot. *)
Definition headed (s : chunker) : Prop :=
  forall lv lbl, level_label lv s = Some lbl ->
  exists num title,
    is_numeral num = true /\ lbl = label (level_keyword lv) (Some num) title.

(** The part of the hierarchy path for a level whose number is [num]. *)
Definition path_part (lv : level) (num : option str) : list str :=
  match num with
  | Some n => [lit (level_keyword lv) ++ lit " " ++ n]
  | None => []
  end.

(** The heading field of a chunk for a level: [None], or a label with
    the number [num]. *)
Definition heading_field (lv : level) (field : pyval) (num : option str)
  : Prop :=
  match num with
  | Some n =>
      is_numeral n = true
      /\ exists title, field = VStr (label (level_keyword lv) (Some n) title)
  | None => field = VNone
  end.

(** The hierarchy path of a chunk names, from the Book to the Section,
    the keyword and the number of each heading the chunk has, and then
    the article label, with " > " between them. *)
Definition path_field (c : pyval) : Prop :=
  exists meta a (nums : level -> option str),
    getitem "metadata" c = Some meta
    /\ getitem "article" meta = Some (VStr a)
    /\ (forall lv, exists field,
          getitem (level_key lv) meta = Some field
          /\ heading_field lv field (nums lv))
    /\ getitem "hierarchy_path" meta
       = Some (VStr (join (lit " > ")
                       (path_part Livre (nums Livre)
                        ++ path_part Titre (nums Titre)
                        ++ path_part Chapitre (nums Chapitre)
                        ++ path_part Section (nums Section)
                        ++ [a]))).

(** Any character but the line feed. *)
Definition not_newline (c : char) : bool := negb (c =? 10).



(** ** The data of the examples *)

(** A chunker in the middle of Article 1, with one body line. *)
Definition in_article_1 : chunker :=
  mkChunker (VList []) None None None None
    (Some (lit "Article 1")) (Some (lit "1")) [lit "foo"].

(** A chunker inside Book I, Title II, Chapter I, Section 3. *)
Definition in_section_3 : chunker :=
  mkChunker (VList []) (Some (lit "Livre I")) (Some (lit "Titre II"))
    (Some (lit "Chapitre I")) (Some (lit "Section 3"))
    (Some (lit "Article 7")) (Some (lit "7")) [lit "texte"].

(** The parse of a sub-article on a fresh chunker. *)
Definition sub_article_text : str := lit "Art. 1-2 Des dispositions.".

(** The chunker after that parse. *)
Definition sub_article_state : chunker :=
  match parse_text (U := cpython) sub_article_text __init__ with
  | Some (s, _) => s
  | None => __init__
  end.

(** The extraction of a one-article document. *)
Definition one_article (path : str) : option str := Some (lit "Art. 1 foo").

(** The chunker after the parse of that document. *)
Definition one_article_state : chunker :=
  match parse_text (U := cpython) (lit "Art. 1 foo") __init__ with
  | Some (s, _) => s
  | None => __init__
  end.

(** The chunker after the parse of an article whose body is a lone
    surrogate, U+D800. *)
Definition surrogate_state : chunker :=
  match parse_text (U := cpython) (lit "Art. 1 " ++ [0xD800]) __init__ with
  | Some (s, _) => s
  | None => __init__
  end.

(** The chunker after the parse of an article with accented text. *)
Definition accent_state : chunker :=
  match parse_text (U := cpython)
          (lit "Art. 5-2 Les cong" ++ [233] ++ lit "s pay" ++ [233]
           ++ lit "s.") __init__ with
  | Some (s, _) => s
  | None => __init__
  end.

(** The chunks of a chunker, as a list. *)
Definition chunk_list (s : chunker) : list pyval :=
  match chunks s with
  | VList l => l
  | _ => []
  end.

(** The empty file system. *)
Definition no_files : filesystem := fun _ => None.

(** The chunker after the flush of Article 1. *)
Definition flushed_article_1 : chunker :=
  match _save_article_chunk (U := cpython) in_article_1 with
  | Some s => s
  | None => in_article_1
  end.

(** A document of a Book, a Title, an article and a sub-article. *)
Definition two_articles_text : str :=
  lit "LIVRE I" ++ [10] ++ lit "Titre II. Des salaires" ++ [10]
  ++ lit "Art. 1 foo" ++ [10] ++ lit "Art. 1-2 bar".

Definition two_articles_state : chunker :=
  match parse_text (U := cpython) two_articles_text __init__ with
  | Some (s, _) => s
  | None => __init__
  end.

Definition two_articles_stats : list (str * nat) :=
  match get_statistics two_articles_state with
  | Some d => d
  | None => []
  end.

(** An article with accented text. *)
Definition accent_text : str :=
  lit "Art. 5-2 Les cong" ++ [233] ++ lit "s pay" ++ [233] ++ lit "s.".

(** An article line with inline text, and its groups. *)
Definition article_8_line : str := lit "Art. 8. Le texte".
Definition article_8_groups : groups :=
  [(2%nat, lit "Le texte"); (1%nat, lit "8")].

(** Calls of both parsing methods on one chunker. *)
Definition mixed_calls : list call :=
  [CallParseText (lit "Art. 1 foo"); CallProcessPdf (lit "code.pdf");
   CallParseText (lit "bar")].





(* ===================================================================== *)
(** * Properties *)
(* ===================================================================== *)

(** ** Strings *)

Lemma str_eqb_eq (a b : str) : str_eqb a b = true <-> a = b.
Proof.
  revert b; induction a as [|x a IH]; intros [|y b]; simpl; split;
    try congruence; try reflexivity.
  - rewrite andb_true_iff, N.eqb_eq, IH. intros [-> ->]. reflexivity.
  - intros H; injection H as -> ->. now rewrite N.eqb_refl, (proj2 (IH b)).
Qed.

Lemma str_eqb_refl (a : str) : str_eqb a a = true.
Proof. now apply str_eqb_eq. Qed.

Lemma split_hd (a : char) (s : str) : hd [] (split a s) = before_first a s.
Proof.
  induction s as [|c s IH]; simpl; [reflexivity|].
  destruct (c =? a); [reflexivity|].
  destruct (split a s) as [|w ws]; simpl in *; now rewrite <- IH.
Qed.

Lemma before_first_absent (a : char) (s : str) :
  ~ In a s -> before_first a s = s.
Proof.
  induction s as [|c s IH]; simpl; intros H; [reflexivity|].
  destruct (N.eqb_spec c a) as [->|_]; [exfalso; auto|].
  rewrite IH; auto.
Qed.

Lemma before_first_prefix (a : char) (s : str) :
  In a s -> exists rest, s = before_first a s ++ a :: rest
                         /\ ~ In a (before_first a s).
Proof.
  induction s as [|c s IH]; simpl; intros H; [contradiction|].
  destruct (N.eqb_spec c a) as [->|Hne].
  - exists s. split; [reflexivity | intros []].
  - destruct H as [H|H]; [congruence|].
    destruct (IH H) as (rest & E & Hn). exists rest. split.
    + simpl. now rewrite <- E.
    + simpl. intros [?|?]; auto.
Qed.

Lemma contains_In (a : char) (s : str) : contains a s = true <-> In a s.
Proof.
  unfold contains. rewrite existsb_exists. split.
  - intros (x & Hx & E). apply N.eqb_eq in E. now subst.
  - intros H. exists a. split; [assumption | apply N.eqb_refl].
Qed.

Section StripFacts.
Context {U : UnicodeDB}.

Lemma lstrip_blank (s : str) : forallb isspace s = true -> lstrip s = [].
Proof.
  induction s as [|c s IH]; simpl; [reflexivity|].
  rewrite andb_true_iff. intros [-> H]. auto.
Qed.

Lemma strip_blank (s : str) : forallb isspace s = true -> strip s = [].
Proof. intros H. unfold strip. now rewrite (lstrip_blank _ H). Qed.

Lemma split_blank (s : str) :
  forallb isspace s = true ->
  Forall (fun w => forallb isspace w = true) (split 10 s).
Proof.
  induction s as [|c s IH]; simpl.
  - repeat constructor.
  - rewrite andb_true_iff. intros [Hc H]. specialize (IH H).
    destruct (c =? 10).
    + constructor; [reflexivity | assumption].
    + destruct (split 10 s) as [|w ws].
      * repeat constructor. simpl. now rewrite Hc.
      * inversion IH; subst. constructor; [|assumption].
        simpl. now rewrite Hc.
Qed.

Lemma normalize_blank (text : str) :
  forallb isspace text = true -> normalize text = [].
Proof.
  intros H. unfold normalize. apply split_blank in H.
  induction H as [|w ws Hw _ IH]; simpl; [reflexivity|].
  now rewrite (strip_blank _ Hw).
Qed.

End StripFacts.

(** ** The matcher *)

Section MatcherFacts.
Context {U : UnicodeDB}.
Variable ic : bool.

Lemma rep_inv (R : Type) p s (k : str -> option R) x :
  rep p s k = Some x -> exists s', k s' = Some x.
Proof.
  induction s as [|c s IH]; simpl; [eauto|].
  destruct (p c); [|eauto].
  destruct (rep p s k) eqn:E; [|eauto].
  intros [= ->]. auto.
Qed.

(** A successful run reaches its continuation, with the groups of the
    pattern set and the earlier ones kept. *)
Lemma run_inv (R : Type) total r : forall s g (k : str -> groups -> option R) x,
  run ic total r s g k = Some x ->
  exists s' g', k s' g' = Some x
    /\ forall n, binds r n = true \/ group n g <> None -> group n g' <> None.
Proof.
  induction r as [l|a|a|a|r1 IH1 r2 IH2|r1 IH1 r2 IH2|r1 IH1|m r1 IH1| |];
    intros s g k x; simpl.
  - destruct (eat_lit ic l s) as [s1|]; [|discriminate]. intros H.
    exists s1, g. split; [assumption|]. intros n [?|?]; [discriminate|assumption].
  - destruct s as [|c s]; [discriminate|].
    destruct (atom_match ic a c); [|discriminate]. intros H.
    exists s, g. split; [assumption|]. intros n [?|?]; [discriminate|assumption].
  - intros H. apply rep_inv in H as [s' H].
    exists s', g. split; [assumption|]. intros n [?|?]; [discriminate|assumption].
  - destruct s as [|c s]; [discriminate|].
    destruct (atom_match ic a c); [|discriminate]. intros H.
    apply rep_inv in H as [s' H].
    exists s', g. split; [assumption|]. intros n [?|?]; [discriminate|assumption].
  - intros H. apply IH1 in H as (s1 & g1 & H & B1).
    apply IH2 in H as (s2 & g2 & H & B2).
    exists s2, g2. split; [assumption|]. intros n Hn. apply B2.
    destruct Hn as [Hn|Hn].
    + apply orb_true_iff in Hn as [Hn|Hn]; [right; apply B1|]; auto.
    + right. apply B1. auto.
  - destruct (run ic total r1 s g k) eqn:E.
    + intros [= ->]. apply IH1 in E as (s1 & g1 & H & B1).
      exists s1, g1. split; [assumption|]. intros n [Hn|Hn]; apply B1; auto.
      apply andb_true_iff in Hn as [Hn _]. auto.
    + intros H. apply IH2 in H as (s1 & g1 & H & B1).
      exists s1, g1. split; [assumption|]. intros n [Hn|Hn]; apply B1; auto.
      apply andb_true_iff in Hn as [_ Hn]. auto.
  - destruct (run ic total r1 s g k) eqn:E.
    + intros [= ->]. apply IH1 in E as (s1 & g1 & H & B1).
      exists s1, g1. split; [assumption|]. intros n [Hn|Hn]; [discriminate|].
      apply B1; auto.
    + intros H. exists s, g. split; [assumption|].
      intros n [Hn|Hn]; [discriminate|assumption].
  - intros H. apply IH1 in H as (s1 & g1 & H & B1).
    eexists s1, _. split; [exact H|]. intros n Hn. simpl.
    destruct (Nat.eqb m n) eqn:E; [discriminate|]. apply B1.
    destruct Hn as [Hn|Hn]; auto.
  - destruct (Nat.eqb (length s) total); [|discriminate]. intros H.
    exists s, g. split; [assumption|]. intros n [?|?]; [discriminate|assumption].
  - intros H. exists s, g. split.
    + destruct s as [|c [|d s]]; try discriminate; [assumption|].
      destruct (c =? 10); [assumption|discriminate].
    + intros n [?|?]; [discriminate|assumption].
Qed.

Lemma re_match_binds r s m n :
  re_match ic r s = Some m -> binds r n = true -> group n m <> None.
Proof.
  unfold re_match. intros H B. apply run_inv in H as (s' & g' & [= ->] & Hg).
  apply Hg. auto.
Qed.

Lemma eat_lit_first x l s :
  eat_lit ic (x :: l) s <> None -> starts_with_chr ic x s = true.
Proof.
  destruct s as [|c s]; simpl; [congruence|].
  destruct (chr_match ic x c); congruence.
Qed.

Lemma eat_lit_app l1 l2 s :
  eat_lit ic (l1 ++ l2) s <> None -> eat_lit ic l1 s <> None.
Proof.
  revert s; induction l1 as [|x l1 IH]; intros s; simpl; [congruence|].
  destruct s as [|c s]; [congruence|].
  destruct (chr_match ic x c); [apply IH | congruence].
Qed.

End MatcherFacts.

(** ** The line patterns *)

Lemma ci_eq_cases (x c : char) :
  is_ascii_lower (ascii_lower x) = true -> ci_eq x c = true ->
  let lx := ascii_lower x in
  c = lx \/ c = lx - 32 \/ (lx = 105 /\ (c = 0x130 \/ c = 0x131))
  \/ (lx = 115 /\ c = 0x17F) \/ (lx = 107 /\ c = 0x212A).
Proof.
  unfold ci_eq. intros -> H. cbv zeta.
  rewrite !orb_true_iff, !andb_true_iff, !orb_true_iff, !N.eqb_eq in H.
  tauto.
Qed.

Lemma initials_exclusive (x y c : char) :
  In x initials -> In y initials -> x <> y ->
  ci_eq x c = true -> ci_eq y c = false.
Proof.
  intros Hx Hy Hne H. simpl in Hx, Hy.
  repeat destruct Hx as [<-|Hx]; try contradiction;
    apply ci_eq_cases in H; try reflexivity; cbv zeta in H;
    repeat destruct Hy as [<-|Hy]; try contradiction; try congruence;
    repeat match type of H with
           | _ \/ _ => destruct H as [H|H]
           | _ /\ _ => destruct H as [? H]
           end; subst; try reflexivity; try discriminate.
Qed.

Section PatternFacts.
Context {U : UnicodeDB}.

(** A pattern [^word...] matches only a subject that starts with the word. *)
Lemma match_word w r s :
  re_match re_I (RBol ;; RLit w ;; r)%re s <> None -> eat_lit re_I w s <> None.
Proof.
  unfold re_match. simpl. rewrite Nat.eqb_refl.
  destruct (eat_lit re_I w s); congruence.
Qed.

Lemma no_word_no_match w r s :
  eat_lit re_I w s = None -> re_match re_I (RBol ;; RLit w ;; r)%re s = None.
Proof.
  intros H. destruct (re_match re_I (RBol ;; RLit w ;; r)%re s) eqn:E;
    [|reflexivity].
  exfalso. apply (@match_word w r s); congruence.
Qed.

Lemma match_alt_word w1 w2 r s :
  re_match re_I (RBol ;; (RLit w1 || RLit w2) ;; r)%re s <> None ->
  eat_lit re_I w1 s <> None \/ eat_lit re_I w2 s <> None.
Proof.
  unfold re_match. simpl. rewrite Nat.eqb_refl.
  destruct (eat_lit re_I w1 s); [left; congruence|].
  destruct (eat_lit re_I w2 s); [right; congruence|cbn; congruence].
Qed.

Lemma match_article_word s :
  re_match re_I article_re s <> None -> eat_lit re_I (lit "Art") s <> None.
Proof.
  intros H. apply match_alt_word in H as [H|H].
  - apply (@eat_lit_app re_I (lit "Art") (lit ".") s). exact H.
  - apply (@eat_lit_app re_I (lit "Art") (lit "icle") s). exact H.
Qed.

Lemma alt5_match_iff w1 w2 w3 w4 w5 s :
  re_match re_I
    (RBol ;; RGroup 1 (RLit w1 || RLit w2 || RLit w3 || RLit w4 || RLit w5))%re
    s <> None <->
  eat_lit re_I w1 s <> None \/ eat_lit re_I w2 s <> None
  \/ eat_lit re_I w3 s <> None \/ eat_lit re_I w4 s <> None
  \/ eat_lit re_I w5 s <> None.
Proof.
  unfold re_match. simpl. rewrite Nat.eqb_refl.
  destruct (eat_lit re_I w1 s); destruct (eat_lit re_I w2 s);
    destruct (eat_lit re_I w3 s); destruct (eat_lit re_I w4 s);
    destruct (eat_lit re_I w5 s); cbn;
    split; intros H; try congruence;
    repeat destruct H as [H|H]; try congruence;
    repeat (first [left; congruence | right]); congruence.
Qed.

(** The lookahead pattern matches exactly the lines that start with one
    of the five keywords. *)
Lemma keyword_match_iff s :
  re_match re_I keyword_re s <> None <->
  eat_lit re_I (lit "LIVRE") s <> None \/ eat_lit re_I (lit "Titre") s <> None
  \/ eat_lit re_I (lit "Chapitre") s <> None
  \/ eat_lit re_I (lit "Section") s <> None
  \/ eat_lit re_I (lit "Art") s <> None.
Proof. apply alt5_match_iff. Qed.

(** Every line that one of the five matchers accepts starts with a
    keyword. *)
Lemma matcher_keyword s :
  re_match re_I livre_re s <> None \/ re_match re_I titre_re s <> None
  \/ re_match re_I chapitre_re s <> None \/ re_match re_I section_re s <> None
  \/ re_match re_I article_re s <> None ->
  re_match re_I keyword_re s <> None.
Proof.
  intros H. apply keyword_match_iff.
  destruct H as [H|[H|[H|[H|H]]]].
  - left. revert H. apply match_word.
  - right; left. revert H. apply match_word.
  - right; right; left. revert H. apply match_word.
  - right; right; right; left. revert H. apply match_word.
  - right; right; right; right. revert H. apply match_article_word.
Qed.

Lemma initial_excludes x y l1 l2 s :
  In x initials -> In y initials -> x <> y ->
  eat_lit re_I (x :: l1) s <> None -> eat_lit re_I (y :: l2) s = None.
Proof.
  intros Hx Hy Hne H. apply eat_lit_first in H.
  destruct s as [|c s]; [discriminate|]. simpl in H |- *.
  unfold chr_match, re_I in H |- *.
  now rewrite (@initials_exclusive x y c Hx Hy Hne H).
Qed.

(** A line matched as a chapter heading is matched by neither of the two
    patterns tried before. *)
Lemma chapitre_exclusive s :
  re_match re_I chapitre_re s <> None ->
  re_match re_I livre_re s = None /\ re_match re_I titre_re s = None.
Proof.
  intros H. apply match_word in H. split; apply no_word_no_match.
  - apply (@initial_excludes 67 76 (lit "hapitre") (lit "IVRE") s);
      [simpl; tauto | simpl; tauto | discriminate | exact H].
  - apply (@initial_excludes 67 84 (lit "hapitre") (lit "itre") s);
      [simpl; tauto | simpl; tauto | discriminate | exact H].
Qed.

End PatternFacts.

(** ** The flush *)

Section FlushFacts.
Context {U : UnicodeDB}.

Lemma nonempty_false (A : Type) (l : list A) : nonempty l = false <-> l = [].
Proof. destruct l; simpl; split; congruence. Qed.

Lemma cleaned_blank (lines : list str) :
  Forall (fun line => strip line = []) lines -> cleaned_lines lines = [].
Proof.
  unfold cleaned_lines. induction 1 as [|x l Hx _ IH]; simpl; [reflexivity|].
  now rewrite Hx.
Qed.

Lemma cleaned_nonblank (lines : list str) :
  Exists (fun line => strip line <> []) lines ->
  nonempty (cleaned_lines lines) = true.
Proof.
  unfold cleaned_lines. induction 1 as [x l Hx|x l _ IH]; simpl.
  - destruct (strip x); [congruence | reflexivity].
  - destruct (nonempty (strip x)); [reflexivity | assumption].
Qed.

(** The flush leaves every field but the chunk list and the body lines. *)
Lemma flush_frame (s s' : chunker) :
  _save_article_chunk s = Some s' ->
  current_livre s' = current_livre s /\ current_titre s' = current_titre s
  /\ current_chapitre s' = current_chapitre s
  /\ current_section s' = current_section s
  /\ current_article s' = current_article s
  /\ current_article_number s' = current_article_number s.
Proof.
  unfold _save_article_chunk.
  destruct (truthy (current_article s) && nonempty (current_article_text s));
    [|intros [= <-]; tauto].
  destruct (nonempty _); [|intros [= <-]; tauto].
  destruct (_create_chunk _) as [c|]; [|discriminate].
  destruct (py_append _ c) as [v|]; [|discriminate].
  intros [= <-]. simpl. tauto.
Qed.

Lemma extends_refl P s : extends P s s.
Proof. intros l H. exists []. rewrite app_nil_r. auto. Qed.

Lemma extends_trans P s1 s2 s3 :
  extends P s1 s2 -> extends P s2 s3 -> extends P s1 s3.
Proof.
  intros H1 H2 l Hl. destruct (H1 l Hl) as (n1 & E1 & F1).
  destruct (H2 _ E1) as (n2 & E2 & F2). exists (n1 ++ n2).
  rewrite app_assoc. split; [assumption | now apply Forall_app].
Qed.

Lemma extends_same P s s' : chunks s' = chunks s -> extends P s s'.
Proof. intros E l H. exists []. rewrite app_nil_r, E. auto. Qed.

Variable P : pyval -> Prop.
Hypothesis created : forall t c, _create_chunk t = Some c -> P c.

Lemma flush_extends (s s' : chunker) :
  _save_article_chunk s = Some s' -> extends P s s'.
Proof.
  unfold _save_article_chunk.
  destruct (truthy (current_article s) && nonempty (current_article_text s));
    [|intros [= <-]; apply extends_refl].
  destruct (nonempty _); [|intros [= <-]; apply extends_refl].
  destruct (_create_chunk _) as [c|] eqn:Ec; [|discriminate].
  destruct (py_append _ c) as [v|] eqn:Ea; [|discriminate].
  intros [= <-] l Hl. simpl in *. rewrite Hl in Ea. injection Ea as <-.
  exists [c]. split; [reflexivity|]. repeat constructor. eapply created, Ec.
Qed.

End FlushFacts.

(** C4 (as the code has it). The flush does nothing when no article is
    active or every body line is blank after trimming.  Otherwise it
    appends exactly one chunk, built from the trimmed non-blank lines, and
    empties the body lines; the four heading labels are unchanged, and so
    are the article label and the article number. *)
Theorem save_article_chunk_effect {U : UnicodeDB} (s : chunker) :
  (truthy (current_article s) = false
   \/ Forall (fun line => strip line = []) (current_article_text s) ->
   _save_article_chunk s = Some s)
  /\
  (forall l number,
     truthy (current_article s) = true ->
     Exists (fun line => strip line <> []) (current_article_text s) ->
     chunks s = VList l ->
     current_article_number s = Some number ->
     exists chunk,
       _create_chunk
         (set_current_article_text (cleaned_lines (current_article_text s)) s)
       = Some chunk
       /\ _save_article_chunk s
          = Some (mkChunker (VList (l ++ [chunk]))
                    (current_livre s) (current_titre s) (current_chapitre s)
                    (current_section s) (current_article s)
                    (current_article_number s) [])).
Proof.
  split.
  - intros [H|H]; unfold _save_article_chunk.
    + now rewrite H.
    + destruct (truthy _ && nonempty _); [|reflexivity].
      fold (cleaned_lines (current_article_text s)).
      now rewrite (cleaned_blank H).
  - intros l number Ha Hx Hl Hn.
    destruct (_create_chunk
                (set_current_article_text
                   (cleaned_lines (current_article_text s)) s))
      as [chunk|] eqn:Ec.
    + exists chunk. split; [reflexivity|]. unfold _save_article_chunk.
      rewrite Ha. assert (Hne : nonempty (current_article_text s) = true).
      { destruct Hx; reflexivity. }
      rewrite Hne. simpl andb. cbv iota.
      fold (cleaned_lines (current_article_text s)).
      rewrite (cleaned_nonblank Hx), Ec. simpl. rewrite Hl. reflexivity.
    + exfalso. unfold _create_chunk in Ec. simpl in Ec. rewrite Hn in Ec.
      destruct (current_article s); discriminate.
Qed.

(** ** The loop *)

Section LoopFacts.
Context {U : UnicodeDB}.

Lemma bound_group r line m n :
  binds r n = true -> re_match re_I r line = Some m ->
  exists g, group n m = Some g.
Proof.
  intros B H. apply re_match_binds with (n := n) in H; [|assumption].
  destruct (group n m); [eauto | congruence].
Qed.

Lemma livre_group2 line m :
  re_match re_I livre_re line = Some m -> exists g2, group 2 m = Some g2.
Proof. now apply bound_group. Qed.

Lemma titre_group2 line m :
  re_match re_I titre_re line = Some m -> exists g2, group 2 m = Some g2.
Proof. now apply bound_group. Qed.

Lemma chapitre_group2 line m :
  re_match re_I chapitre_re line = Some m -> exists g2, group 2 m = Some g2.
Proof. now apply bound_group. Qed.

Lemma section_group2 line m :
  re_match re_I section_re line = Some m -> exists g2, group 2 m = Some g2.
Proof. now apply bound_group. Qed.

Lemma article_group2 line m :
  re_match re_I article_re line = Some m -> exists g2, group 2 m = Some g2.
Proof. now apply bound_group. Qed.

Lemma article_group1 line m :
  re_match re_I article_re line = Some m -> exists g1, group 1 m = Some g1.
Proof. now apply bound_group. Qed.

Lemma flush_ready (s : chunker) :
  ready s -> exists s', _save_article_chunk s = Some s' /\ ready s'.
Proof.
  intros [[l Hl] Hn]. unfold _save_article_chunk.
  destruct (truthy (current_article s)) eqn:Ha; simpl andb;
    [|exists s; split; [reflexivity | split; eauto]].
  destruct (nonempty (current_article_text s));
    [|exists s; split; [reflexivity | split; eauto]].
  destruct (nonempty _); [|exists s; split; [reflexivity | split; eauto]].
  unfold _create_chunk. simpl current_article_number. simpl current_article.
  destruct (current_article_number s) as [n|] eqn:En; [|now destruct Hn].
  destruct (current_article s) as [a|] eqn:Ea; [|discriminate].
  simpl. rewrite Hl. simpl. eexists. split; [reflexivity|]. split; simpl.
  - eauto.
  - rewrite En. discriminate.
Qed.

(** Each branch of the loop body flushes first, or leaves the chunks. *)
Lemma step_chunks line next s s' b :
  step line next s = Some (s', b) ->
  (exists s1, _save_article_chunk s = Some s1 /\ chunks s' = chunks s1)
  \/ chunks s' = chunks s.
Proof.
  unfold step, on_livre, on_titre, on_chapitre, on_section, on_article,
    on_other.
  repeat match goal with
         | |- context [match re_match ?f ?r ?l with _ => _ end] =>
             destruct (re_match f r l)
         end;
    try (destruct (_save_article_chunk s) as [s1|]; [|discriminate];
         destruct (group 2 _); [|discriminate];
         try destruct (continuation _ _);
         intros [= <- <-]; left; exists s1; split; [reflexivity|];
         try destruct (nonempty _); reflexivity).
  intros [= <- <-]. right. destruct (_ && _); reflexivity.
Qed.

Lemma step_ready line next s :
  ready s -> exists s' b, step line next s = Some (s', b) /\ ready s'.
Proof.
  intros Hr. destruct (flush_ready Hr) as (s1 & Hf & [[l1 Hl1] Hn1]).
  unfold step.
  destruct (re_match re_I livre_re line) as [m|] eqn:E1.
  { destruct (livre_group2 _ E1) as [g2 Hg]. unfold on_livre.
    rewrite Hf, Hg. destruct (continuation _ _).
    eexists _, _. split; [reflexivity|]. split; simpl; [eauto|discriminate]. }
  destruct (re_match re_I titre_re line) as [m|] eqn:E2.
  { destruct (titre_group2 _ E2) as [g2 Hg]. unfold on_titre.
    rewrite Hf, Hg. destruct (continuation _ _).
    eexists _, _. split; [reflexivity|]. split; simpl; [eauto|discriminate]. }
  destruct (re_match re_I chapitre_re line) as [m|] eqn:E3.
  { destruct (chapitre_group2 _ E3) as [g2 Hg]. unfold on_chapitre.
    rewrite Hf, Hg. destruct (continuation _ _).
    eexists _, _. split; [reflexivity|]. split; simpl; [eauto|discriminate]. }
  destruct (re_match re_I section_re line) as [m|] eqn:E4.
  { destruct (section_group2 _ E4) as [g2 Hg]. unfold on_section.
    rewrite Hf, Hg. destruct (continuation _ _).
    eexists _, _. split; [reflexivity|]. split; simpl; [eauto|discriminate]. }
  destruct (re_match re_I article_re line) as [m|] eqn:E5.
  { destruct (article_group2 _ E5) as [g2 Hg].
    destruct (article_group1 _ E5) as [g1 Hg1]. unfold on_article.
    rewrite Hf, Hg. eexists _, _. split; [reflexivity|].
    destruct (nonempty (strip g2)); split; simpl; eauto;
      rewrite Hg1; discriminate. }
  unfold on_other. eexists _, _. split; [reflexivity|].
  destruct Hr as [[l Hl] Hn].
  destruct (_ && _); split; simpl; eauto.
Qed.

Lemma parse_loop_ready lines : forall s,
  ready s -> exists s', parse_loop lines s = Some s' /\ ready s'.
Proof.
  assert (H : forall n lines, (length lines <= n)%nat -> forall s,
             ready s -> exists s', parse_loop lines s = Some s' /\ ready s').
  { induction n as [|n IH]; intros [|line rest] Hlen s Hr; simpl in *;
      try lia; try (exists s; split; [reflexivity | assumption]).
    destruct (step_ready line (hd_error rest) Hr) as (s1 & b & -> & Hr1).
    destruct rest as [|x rest']; [|destruct b]; apply IH; simpl in *;
      try lia; assumption. }
  apply (H (length lines)). lia.
Qed.

Variable P : pyval -> Prop.
Hypothesis created : forall t c, _create_chunk t = Some c -> P c.

Lemma step_extends line next s s' b :
  step line next s = Some (s', b) -> extends P s s'.
Proof.
  intros H. apply step_chunks in H as [(s1 & Hf & E)|E].
  - apply extends_trans with s1; [eapply flush_extends; eassumption|].
    now apply extends_same.
  - now apply extends_same.
Qed.

Lemma parse_loop_extends lines : forall s s',
  parse_loop lines s = Some s' -> extends P s s'.
Proof.
  assert (H : forall n lines, (length lines <= n)%nat -> forall s s',
             parse_loop lines s = Some s' -> extends P s s').
  { induction n as [|n IH]; intros [|line rest] Hlen s s'; simpl in *;
      try lia; try (intros [= <-]; apply extends_refl).
    destruct (step line (hd_error rest) s) as [[s1 b]|] eqn:Es;
      [|discriminate].
    apply step_extends in Es. intros H.
    apply extends_trans with s1; [assumption|].
    destruct rest as [|x rest']; [|destruct b]; revert H; apply IH;
      simpl in *; lia. }
  apply (H (length lines)). lia.
Qed.

Lemma parse_text_extends text s s' out :
  parse_text text s = Some (s', out) -> out = chunks s' /\ extends P s s'.
Proof.
  unfold parse_text.
  destruct (parse_loop (normalize text) s) as [s1|] eqn:E1; [|discriminate].
  destruct (_save_article_chunk s1) as [s2|] eqn:E2; [|discriminate].
  destruct (py_len (chunks s2)); [|discriminate].
  intros [= <- <-]. split; [reflexivity|].
  apply extends_trans with s1.
  - eapply parse_loop_extends; eassumption.
  - eapply flush_extends; eassumption.
Qed.

End LoopFacts.

Lemma ready_init : ready __init__.
Proof. split; [exists []; reflexivity | discriminate]. Qed.

Lemma parse_text_ready {U : UnicodeDB} text s :
  ready s ->
  exists s' l, parse_text text s = Some (s', VList l) /\ ready s'.
Proof.
  intros Hr. unfold parse_text.
  destruct (parse_loop_ready (normalize text) Hr) as (s1 & -> & Hr1).
  destruct (flush_ready Hr1) as (s2 & -> & Hr2).
  destruct Hr2 as [[l Hl] Hn]. rewrite Hl. simpl.
  exists s2, l. split; [reflexivity|]. split; eauto.
Qed.

(** ** The dispatch of a line *)

(** C1 (as the code has it). The five matchers are tried in the order
    Book, Title, Chapter, Section, Article and the first that accepts the
    line decides what is done.  A line that none accepts is appended as it
    is to the body lines when an article is active and the line does not
    start with a keyword; it is dropped, without error, when no article is
    active or when it starts with a keyword. *)
Theorem step_dispatch {U : UnicodeDB} (line : str) (next : option str)
    (s : chunker) :
  (forall h m, first_match matchers line = Some (h, m) ->
               step line next s = h m next s)
  /\ (first_match matchers line = None ->
      truthy (current_article s) = true -> keyword_line line = false ->
      step line next s
      = Some (set_current_article_text (current_article_text s ++ [line]) s,
              false))
  /\ (first_match matchers line = None ->
      truthy (current_article s) = false \/ keyword_line line = true ->
      step line next s = Some (s, false)).
Proof.
  unfold step, first_match, matchers, on_other, keyword_line.
  destruct (re_match re_I livre_re line);
    [repeat split; try discriminate; now intros h m [= <- <-]|].
  destruct (re_match re_I titre_re line);
    [repeat split; try discriminate; now intros h m [= <- <-]|].
  destruct (re_match re_I chapitre_re line);
    [repeat split; try discriminate; now intros h m [= <- <-]|].
  destruct (re_match re_I section_re line);
    [repeat split; try discriminate; now intros h m [= <- <-]|].
  destruct (re_match re_I article_re line);
    [repeat split; try discriminate; now intros h m [= <- <-]|].
  repeat split; try discriminate.
  - intros _ -> ->. reflexivity.
  - intros _ [-> | ->]; [reflexivity|].
    now rewrite andb_false_r.
Qed.

(** ** Headings *)

Section HeadingFacts.
Context {U : UnicodeDB}.

Lemma words_exclusive x y l1 l2 r1 r2 s :
  In x initials -> In y initials -> x <> y ->
  re_match re_I (RBol ;; RLit (x :: l1) ;; r1)%re s <> None ->
  re_match re_I (RBol ;; RLit (y :: l2) ;; r2)%re s = None.
Proof.
  intros Hx Hy Hne H. apply no_word_no_match.
  apply match_word in H. revert H. now apply initial_excludes.
Qed.

(** A line accepted by the pattern of a heading level takes the branch of
    that level. *)
Lemma step_level lv line m next s :
  re_match re_I (level_pattern lv) line = Some m ->
  step line next s = on_level lv m next s.
Proof.
  intros H. assert (Hn : re_match re_I (level_pattern lv) line <> None) by congruence.
  assert (X : forall x y l1 l2 r1 r2,
             In x initials -> In y initials -> x <> y ->
             re_match re_I (RBol ;; RLit (x :: l1) ;; r1)%re line <> None ->
             re_match re_I (RBol ;; RLit (y :: l2) ;; r2)%re line = None)
    by (intros x y l1 l2 r1 r2; apply words_exclusive).
  unfold step. destruct lv; simpl in H, Hn |- *.
  - now rewrite H.
  - assert (E1 : re_match re_I livre_re line = None)
      by (eapply (X 84 76 (lit "itre"));
          [simpl; tauto | simpl; tauto | discriminate | exact Hn]).
    now rewrite E1, H.
  - assert (E1 : re_match re_I livre_re line = None)
      by (eapply (X 67 76 (lit "hapitre"));
          [simpl; tauto | simpl; tauto | discriminate | exact Hn]).
    assert (E2 : re_match re_I titre_re line = None)
      by (eapply (X 67 84 (lit "hapitre"));
          [simpl; tauto | simpl; tauto | discriminate | exact Hn]).
    now rewrite E1, E2, H.
  - assert (E1 : re_match re_I livre_re line = None)
      by (eapply (X 83 76 (lit "ection"));
          [simpl; tauto | simpl; tauto | discriminate | exact Hn]).
    assert (E2 : re_match re_I titre_re line = None)
      by (eapply (X 83 84 (lit "ection"));
          [simpl; tauto | simpl; tauto | discriminate | exact Hn]).
    assert (E3 : re_match re_I chapitre_re line = None)
      by (eapply (X 83 67 (lit "ection"));
          [simpl; tauto | simpl; tauto | discriminate | exact Hn]).
    now rewrite E1, E2, E3, H.
Qed.

Lemma level_group2 lv line m :
  re_match re_I (level_pattern lv) line = Some m -> exists g2, group 2 m = Some g2.
Proof. destruct lv; now apply bound_group. Qed.

End HeadingFacts.

(** C2 (as the code has it). For each of the four heading matchers, when
    the inline title of the matched line is empty: a following line that
    does not start with one of the keywords LIVRE, Titre, Chapitre,
    Section, Art becomes the title and the cursor skips it (one line of
    lookahead); a following line that starts with a keyword is left for
    the next iteration and the title stays empty.  A line accepted by any
    of the five matchers starts with a keyword, so it is never taken as a
    title. *)
Theorem heading_lookahead {U : UnicodeDB} (lv : level)
    (line next_line : str) (m : groups) (g2 : str) (s : chunker) :
  re_match re_I (level_pattern lv) line = Some m ->
  group 2 m = Some g2 -> strip g2 = [] ->
  ready s ->
  (keyword_line next_line = false ->
   exists s',
     step line (Some next_line) s = Some (s', true)
     /\ level_label lv s'
        = Some (label (level_keyword lv) (group 1 m) next_line)
     /\ forall rest,
          parse_loop (line :: next_line :: rest) s = parse_loop rest s')
  /\ (keyword_line next_line = true ->
      exists s',
        step line (Some next_line) s = Some (s', false)
        /\ level_label lv s' = Some (label (level_keyword lv) (group 1 m) [])
        /\ forall rest,
             parse_loop (line :: next_line :: rest) s
             = parse_loop (next_line :: rest) s')
  /\ (first_match matchers next_line <> None -> keyword_line next_line = true).
Proof.
  intros Hm Hg Hs Hr. destruct (flush_ready Hr) as (s1 & Hf & _).
  assert (Hstep : forall next, step line next s = on_level lv m next s)
    by (intros; now apply step_level).
  repeat split.
  - intros Hk. unfold keyword_line in Hk.
    destruct (re_match re_I keyword_re next_line) eqn:Ek; [discriminate|].
    assert (E : exists s', step line (Some next_line) s = Some (s', true)
                /\ level_label lv s'
                   = Some (label (level_keyword lv) (group 1 m) next_line)).
    { rewrite Hstep.
      destruct lv; simpl; unfold on_livre, on_titre, on_chapitre, on_section;
        rewrite Hf, Hg, Hs; unfold continuation; simpl nonempty; simpl negb;
        cbv iota; rewrite Ek; eexists; split; reflexivity. }
    destruct E as (s' & E & L). exists s'. repeat split; try assumption.
    intros rest. simpl. now rewrite E.
  - intros Hk. unfold keyword_line in Hk.
    destruct (re_match re_I keyword_re next_line) eqn:Ek; [|discriminate].
    assert (E : exists s', step line (Some next_line) s = Some (s', false)
                /\ level_label lv s'
                   = Some (label (level_keyword lv) (group 1 m) [])).
    { rewrite Hstep.
      destruct lv; simpl; unfold on_livre, on_titre, on_chapitre, on_section;
        rewrite Hf, Hg, Hs; unfold continuation; simpl nonempty; simpl negb;
        cbv iota; rewrite Ek; eexists; split; reflexivity. }
    destruct E as (s' & E & L). exists s'. repeat split; try assumption.
    intros rest. change (parse_loop (line :: next_line :: rest) s)
      with (match step line (Some next_line) s with
            | None => None
            | Some (s', consumed) =>
                if consumed then parse_loop rest s'
                else parse_loop (next_line :: rest) s'
            end).
    now rewrite E.
  - intros H. unfold keyword_line.
    assert (K : re_match re_I keyword_re next_line <> None).
    { apply matcher_keyword. unfold first_match, matchers in H.
      destruct (re_match re_I livre_re next_line); [left; congruence|].
      destruct (re_match re_I titre_re next_line);
        [right; left; congruence|].
      destruct (re_match re_I chapitre_re next_line);
        [right; right; left; congruence|].
      destruct (re_match re_I section_re next_line);
        [right; right; right; left; congruence|].
      destruct (re_match re_I article_re next_line);
        [right; right; right; right; congruence|congruence]. }
    destruct (re_match re_I keyword_re next_line); [reflexivity|congruence].
Qed.

(** C3. A line matched as a Chapter heading flushes the active article,
    sets the Chapter label, clears the Section label, the article label
    and the article number, and leaves the Book and Title labels as they
    were. *)
Theorem chapitre_heading {U : UnicodeDB} (line : str) (next : option str)
    (m : groups) (s : chunker) :
  re_match re_I chapitre_re line = Some m ->
  ready s ->
  exists s1 title consumed,
    _save_article_chunk s = Some s1
    /\ step line next s
       = Some (mkChunker (chunks s1) (current_livre s) (current_titre s)
                 (Some (label "Chapitre" (group 1 m) title)) None None None
                 (current_article_text s1),
               consumed).
Proof.
  intros Hm Hr. destruct (flush_ready Hr) as (s1 & Hf & _).
  destruct (chapitre_group2 _ Hm) as [g2 Hg].
  rewrite (@step_level _ Chapitre line m next s Hm). simpl. unfold on_chapitre.
  rewrite Hf, Hg.
  destruct (flush_frame _ Hf) as (El & Et & _).
  destruct (continuation (strip g2) next) as [title consumed].
  exists s1, title, consumed. split; [reflexivity|].
  rewrite <- El, <- Et. reflexivity.
Qed.

(** ** The fields of a chunk *)

Section ChunkFacts.
Context {U : UnicodeDB}.

Lemma create_chunk_derived t c : _create_chunk t = Some c -> derived_fields c.
Proof.
  unfold _create_chunk.
  destruct (current_article_number t) as [number|]; [|discriminate].
  destruct (current_article t) as [a|]; [|discriminate].
  intros [= <-].
  eexists _, number, _, (contains 45 number).
  split; [reflexivity|]. split; [reflexivity|]. split; [reflexivity|].
  split; [apply contains_In|]. split; [reflexivity|].
  split; [|split; [|reflexivity]].
  - intros H. rewrite (proj2 (contains_In 45 number) H), split_hd.
    now apply before_first_prefix.
  - intros H. destruct (contains 45 number) eqn:E; [|reflexivity].
    apply contains_In in E. contradiction.
Qed.

Lemma create_chunk_shape t c : _create_chunk t = Some c -> chunk_shape c.
Proof.
  unfold _create_chunk.
  destruct (current_article_number t) as [number|]; [|discriminate].
  destruct (current_article t) as [a|]; [|discriminate].
  intros [= <-]. split; [reflexivity|].
  eexists. repeat split; reflexivity.
Qed.

End ChunkFacts.

(** C5. Every chunk that a call of [parse_text] adds to the chunk list
    has [is_sub_article] true exactly when its article number contains a
    hyphen, [base_article] equal to the number before its first hyphen
    (the whole number when it has none), and [id] equal to the law code
    followed by the number with hyphens replaced by underscores. *)
Theorem emitted_chunk_fields {U : UnicodeDB} (text : str) (s s' : chunker)
    (out : pyval) (l : list pyval) :
  chunks s = VList l ->
  parse_text text s = Some (s', out) ->
  exists new, out = VList (l ++ new) /\ Forall derived_fields new.
Proof.
  intros Hl H.
  apply (parse_text_extends derived_fields (@create_chunk_derived U)) in H
    as [-> H].
  exact (H l Hl).
Qed.

(** C6 (as the code has it). Every chunk that a call of [parse_text]
    adds is a dict with exactly the keys id, text, metadata, whose
    metadata is a dict with exactly the keys livre, titre, chapitre,
    section, article, article_number, base_article, is_sub_article, law,
    chunk_type, citation, hierarchy_path, where law is "Code du travail
    tunisien" and chunk_type is "article". *)
Theorem emitted_chunk_shape {U : UnicodeDB} (text : str) (s s' : chunker)
    (out : pyval) (l : list pyval) :
  chunks s = VList l ->
  parse_text text s = Some (s', out) ->
  exists new, out = VList (l ++ new) /\ Forall chunk_shape new.
Proof.
  intros Hl H.
  apply (parse_text_extends chunk_shape (@create_chunk_shape U)) in H
    as [-> H].
  exact (H l Hl).
Qed.

(** C7. On a freshly constructed chunker [parse_text] returns a list for
    every input string, and the empty list for an empty or
    whitespace-only string. *)
Theorem parse_text_returns {U : UnicodeDB} (text : str) :
  exists s' l,
    parse_text text __init__ = Some (s', VList l)
    /\ (forallb isspace text = true -> l = []).
Proof.
  destruct (parse_text_ready text ready_init) as (s' & l & H & _).
  exists s', l. split; [assumption|].
  intros Hb. unfold parse_text in H.
  rewrite (normalize_blank _ Hb) in H. simpl in H. now injection H as <- <-.
Qed.

Lemma process_pdf_fresh {U : UnicodeDB} (extract : str -> option str)
    (path : str) (s : chunker) :
  process_pdf extract path s
  = match extract path with
    | Some text => parse_text text __init__
    | None => None
    end.
Proof. reflexivity. Qed.

(** ** Determinism: the two lists of two parses *)

(** *** The heap *)









(** *** The object and the value read the same code *)



Section Simulation.
Context {U : UnicodeDB}.













End Simulation.


(** C10. A call of [parse_text] returns the chunk list of the chunker,
    which still starts with every chunk it held before the call; the
    article left active by one call takes the body lines of the next
    (here a line parsed by a second call becomes a second chunk of
    Article 1); and [process_pdf] parses from the fresh state whatever
    the chunker held. *)
Theorem parse_text_accumulates :
  (forall (U : UnicodeDB) text s s' out l,
     chunks s = VList l -> parse_text text s = Some (s', out) ->
     chunks s' = out /\ exists new, out = VList (l ++ new))
  /\ (exists s1 c1 s2 c2 number,
        parse_text (U := cpython) (lit "Art. 1 foo") __init__
        = Some (s1, VList [c1])
        /\ parse_text (U := cpython) (lit "bar") s1 = Some (s2, VList [c1; c2])
        /\ getitem "text" c2 = Some (VStr (lit "bar"))
        /\ getitem "id" c2 = Some (VStr (lit "CT_TN_A1"))
        /\ current_article_number s1 = Some number
        /\ parse_text (U := cpython) (lit "bar") __init__
           = Some (__init__, VList []))
  /\ (forall (U : UnicodeDB) extract path s,
        process_pdf extract path s
        = match extract path with
          | Some text => parse_text text __init__
          | None => None
          end).
Proof.
  split; [|split].
  - intros U text s s' out l Hl H.
    apply (parse_text_extends (fun _ => True)) in H as [-> H]; [|trivial].
    split; [reflexivity|]. destruct (H l Hl) as (new & E & _). eauto.
  - do 5 eexists. repeat split; vm_compute; reflexivity.
  - intros. apply process_pdf_fresh.
Qed.

(* ===================================================================== *)
(** * Persistence: save, then load *)
(* ===================================================================== *)

(** ** UTF-8 *)

(** The digits of a code point in base 64, as the encoder takes them. *)
Lemma base64_digits (c : char) :
  exists q1 q2 q3 r0 r1 r2,
    c / 64 = q1 /\ c / 4096 = q2 /\ c / 262144 = q3
    /\ c mod 64 = r0 /\ (c / 64) mod 64 = r1 /\ (c / 4096) mod 64 = r2
    /\ c = 64 * q1 + r0 /\ q1 = 64 * q2 + r1 /\ q2 = 64 * q3 + r2
    /\ r0 < 64 /\ r1 < 64 /\ r2 < 64.
Proof.
  exists (c / 64), (c / 4096), (c / 262144), (c mod 64), ((c / 64) mod 64),
    ((c / 4096) mod 64).
  repeat split; try (apply N.mod_lt; discriminate).
  - apply N.div_mod. discriminate.
  - replace (c / 4096) with (c / 64 / 64) by (now rewrite N.Div0.div_div).
    apply N.div_mod. discriminate.
  - replace (c / 262144) with (c / 4096 / 64) by (now rewrite N.Div0.div_div).
    apply N.div_mod. discriminate.
Qed.

Ltac take_some :=
  let H := fresh in
  intros H;
  match type of H with
  | Some ?a = Some ?b => assert (b = a) by congruence; subst b; clear H
  end.

Ltac decide_bounds :=
  repeat match goal with
         | |- context [?a <? ?b] => destruct (N.ltb_spec a b); try lia
         | |- context [?a <=? ?b] => destruct (N.leb_spec a b); try lia
         end.

Lemma utf8_decode_cons (b0 : byte) (r0 : list byte) :
  utf8_decode (b0 :: r0)
  = if b0 <? 0x80 then cons_char b0 (utf8_decode r0)
    else if b0 <? 0xC0 then None
    else if b0 <? 0xE0 then
      match r0 with
      | b1 :: r1 =>
          let c := (b0 - 0xC0) * 64 + (b1 - 0x80) in
          if is_cont b1 && (0x80 <=? c)
          then cons_char c (utf8_decode r1) else None
      | _ => None
      end
    else if b0 <? 0xF0 then
      match r0 with
      | b1 :: b2 :: r2 =>
          let c := (b0 - 0xE0) * 4096 + (b1 - 0x80) * 64 + (b2 - 0x80) in
          if is_cont b1 && is_cont b2 && (0x800 <=? c)
             && negb (is_surrogate c)
          then cons_char c (utf8_decode r2) else None
      | _ => None
      end
    else if b0 <? 0xF8 then
      match r0 with
      | b1 :: b2 :: b3 :: r3 =>
          let c := (b0 - 0xF0) * 262144 + (b1 - 0x80) * 4096
                   + (b2 - 0x80) * 64 + (b3 - 0x80) in
          if is_cont b1 && is_cont b2 && is_cont b3 && (0x10000 <=? c)
             && (c <? 0x110000)
          then cons_char c (utf8_decode r3) else None
      | _ => None
      end
    else None.
Proof. reflexivity. Qed.

Lemma utf8_char_roundtrip (c : char) (bs rest : list byte) :
  utf8_encode_char c = Some bs ->
  utf8_decode (bs ++ rest) = cons_char c (utf8_decode rest).
Proof.
  unfold utf8_encode_char, is_surrogate, in_range.
  destruct (base64_digits c)
    as (q1 & q2 & q3 & r0 & r1 & r2 & -> & -> & -> & -> & -> & ->
        & E0 & E1 & E2 & B0 & B1 & B2).
  destruct (N.ltb_spec c 0x80) as [H1|H1].
  { take_some. cbn [app]. rewrite utf8_decode_cons.
    destruct (N.ltb_spec c 0x80); [reflexivity|lia]. }
  destruct (N.ltb_spec c 0x800) as [H2|H2].
  { take_some. cbn [app]. rewrite utf8_decode_cons. cbv beta iota zeta.
    unfold is_cont, in_range.
    replace ((0xC0 + q1 - 0xC0) * 64 + (0x80 + r0 - 0x80)) with c by lia.
    decide_bounds. reflexivity. }
  destruct (N.ltb_spec c 0x10000) as [H3|H3].
  { destruct (N.leb_spec 0xD800 c) as [H4|H4];
      destruct (N.leb_spec c 0xDFFF) as [H5|H5]; simpl andb; cbv iota;
      try discriminate; take_some; cbn [app]; rewrite utf8_decode_cons;
      cbv beta iota zeta; unfold is_cont, is_surrogate, in_range;
      replace ((0xE0 + q2 - 0xE0) * 4096 + (0x80 + r1 - 0x80) * 64
               + (0x80 + r0 - 0x80)) with c by lia;
      decide_bounds; reflexivity. }
  destruct (N.ltb_spec c 0x110000) as [H4|H4]; [|discriminate].
  take_some. cbn [app]. rewrite utf8_decode_cons. cbv beta iota zeta.
  unfold is_cont, in_range.
  replace ((0xF0 + q3 - 0xF0) * 262144 + (0x80 + r2 - 0x80) * 4096
           + (0x80 + r1 - 0x80) * 64 + (0x80 + r0 - 0x80)) with c by lia.
  decide_bounds. reflexivity.
Qed.

Lemma utf8_encode_char_some (c : char) :
  encodable c = true -> exists bs, utf8_encode_char c = Some bs.
Proof.
  unfold encodable, in_unicode, utf8_encode_char.
  rewrite andb_true_iff, negb_true_iff. intros [H1 H2]. rewrite H1, H2.
  destruct (c <? 0x80); [eauto|]. destruct (c <? 0x800); [eauto|].
  destruct (c <? 0x10000); eauto.
Qed.

Lemma utf8_roundtrip (s : str) :
  forallb encodable s = true ->
  exists bs, utf8_encode s = Some bs /\ utf8_decode bs = Some s.
Proof.
  induction s as [|c s IH]; simpl; [eauto|].
  rewrite andb_true_iff. intros [Hc Hs].
  destruct (@utf8_encode_char_some c Hc) as [b Hb].
  destruct (IH Hs) as (bs & E & D). rewrite Hb, E.
  exists (b ++ bs). split; [reflexivity|].
  rewrite (@utf8_char_roundtrip c b bs Hb), D. reflexivity.
Qed.

Lemma utf8_surrogate (s1 s2 : str) (c : char) :
  is_surrogate c = true -> utf8_encode (s1 ++ c :: s2) = None.
Proof.
  intros H. induction s1 as [|x s1 IH]; simpl.
  - unfold utf8_encode_char. rewrite H.
    unfold is_surrogate, in_range in H. apply andb_true_iff in H as [H1 H2].
    apply N.leb_le in H1, H2.
    destruct (N.ltb_spec c 0x80); [lia|]. destruct (N.ltb_spec c 0x800); [lia|].
    destruct (N.ltb_spec c 0x10000); [reflexivity|lia].
  - rewrite IH. destruct (utf8_encode_char x); reflexivity.
Qed.

(** ** Line ends *)

Lemma write_newlines_cons (p : platform) (c : char) (t : str) :
  write_newlines p (c :: t)
  = (if c =? 10 then linesep p else [c]) ++ write_newlines p t.
Proof. reflexivity. Qed.

Lemma newlines_roundtrip (p : platform) (text : str) :
  ~ In 13 text -> read_newlines (write_newlines p text) = text.
Proof.
  induction text as [|c t IH]; [reflexivity|]. intros H.
  assert (Hc : c <> 13) by (intros ->; apply H; now left).
  assert (Ht : ~ In 13 t) by (intros X; apply H; now right).
  specialize (IH Ht). rewrite write_newlines_cons.
  destruct (N.eqb_spec c 10) as [->|Hn].
  - destruct p; cbn [linesep app read_newlines].
    + change (10 =? 13) with false. cbv iota. now rewrite IH.
    + change (13 =? 13) with true. change (10 =? 10) with true. cbv iota.
      now rewrite IH.
  - cbn [app read_newlines]. destruct (N.eqb_spec c 13); [contradiction|].
    now rewrite IH.
Qed.

Lemma write_newlines_encodable (p : platform) (text : str) :
  forallb encodable text = true ->
  forallb encodable (write_newlines p text) = true.
Proof.
  induction text as [|c t IH]; [reflexivity|].
  rewrite write_newlines_cons. cbn [forallb].
  rewrite andb_true_iff. intros [Hc Ht]. rewrite forallb_app, (IH Ht), andb_true_r.
  destruct (c =? 10); [destruct p; reflexivity|]. simpl. now rewrite Hc.
Qed.

Lemma text_roundtrip (p : platform) (path text : str) (fs : filesystem) :
  forallb encodable text = true -> ~ In 13 text ->
  exists fs', write_text p path text fs = Some fs'
              /\ read_text path fs' = Some text.
Proof.
  intros He Hn. unfold write_text, read_text.
  destruct (@utf8_roundtrip _ (@write_newlines_encodable p _ He)) as (bs & E & D).
  rewrite E. eexists. split; [reflexivity|].
  unfold write_file. rewrite str_eqb_refl, D, newlines_roundtrip; auto.
Qed.

(** ** Values *)

Lemma forallb_impl (A : Type) (p q : A -> bool) (l : list A) :
  (forall x, p x = true -> q x = true) ->
  forallb p l = true -> forallb q l = true.
Proof.
  intros H. induction l as [|x l IH]; simpl; [reflexivity|].
  rewrite !andb_true_iff. intros [Hx Hl]. auto.
Qed.

Lemma chars_ok_impl (p q : char -> bool) (v : pyval) :
  (forall c, p c = true -> q c = true) ->
  chars_ok p v = true -> chars_ok q v = true.
Proof.
  intros Hpq. induction v as [| | s | l IH | d IH] using pyval_nested_ind;
    simpl; try reflexivity.
  - now apply forallb_impl.
  - induction IH as [|x l Hx _ IHl]; simpl; [reflexivity|].
    rewrite !andb_true_iff. intros [H1 H2]. auto.
  - induction IH as [|[k x] d Hx _ IHd]; simpl; [reflexivity|].
    rewrite !andb_true_iff. intros [[H0 H1] H2]. simpl in Hx.
    repeat split; auto. revert H0. now apply forallb_impl.
Qed.

Lemma chars_ok_and (p q : char -> bool) (v : pyval) :
  chars_ok p v = true -> chars_ok q v = true ->
  chars_ok (fun c => p c && q c) v = true.
Proof.
  induction v as [| | s | l IH | d IH] using pyval_nested_ind;
    simpl; try reflexivity.
  - induction s as [|c s IHs]; simpl; [reflexivity|].
    rewrite !andb_true_iff. intros [-> H1] [-> H2]. auto.
  - induction IH as [|x l Hx _ IHl]; simpl; [reflexivity|].
    rewrite !andb_true_iff. intros [H1 H2] [H3 H4]. auto.
  - induction IH as [|[k x] d Hx _ IHd]; simpl; [reflexivity|].
    rewrite !andb_true_iff. intros [[H0 H1] H2] [[H3 H4] H5]. simpl in Hx.
    repeat split; auto.
    clear - H0 H3. induction k as [|c k IHk]; simpl in *; [reflexivity|].
    rewrite !andb_true_iff in *. destruct H0 as [-> ?], H3 as [-> ?]. auto.
Qed.

Lemma chars_ok_all (p : char -> bool) (v : pyval) :
  (forall c, p c = true) -> chars_ok p v = true.
Proof.
  intros Hp. induction v as [| | s | l IH | d IH] using pyval_nested_ind;
    simpl; try reflexivity.
  - induction s as [|c s IHs]; simpl; [reflexivity|]. now rewrite Hp.
  - induction IH as [|x l Hx _ IHl]; simpl; [reflexivity|].
    now rewrite Hx, IHl.
  - induction IH as [|[k x] d Hx _ IHd]; simpl; [reflexivity|].
    simpl in Hx. rewrite Hx, IHd, !andb_true_r.
    induction k as [|c k IHk]; simpl; [reflexivity|]. now rewrite Hp.
Qed.

(** ** Dicts without repeated keys *)

Lemma distinct_before (l1 l2 : list str) (k : str) :
  distinct (l1 ++ k :: l2) = true ->
  forallb (fun k' => negb (str_eqb k' k)) l1 = true.
Proof.
  induction l1 as [|a l1 IH]; simpl; [reflexivity|].
  rewrite !andb_true_iff, negb_true_iff. intros [H1 H2]. split; [|auto].
  rewrite existsb_app in H1. apply orb_false_iff in H1 as [_ H1].
  simpl in H1. apply orb_false_iff in H1 as [-> _]. reflexivity.
Qed.

Lemma dict_set_fresh (k : str) (v : pyval) (d : list (str * pyval)) :
  forallb (fun k' => negb (str_eqb k' k)) (map fst d) = true ->
  dict_set k v d = d ++ [(k, v)].
Proof.
  induction d as [|[k' v'] d IH]; simpl; [reflexivity|].
  rewrite andb_true_iff, negb_true_iff. intros [-> H]. now rewrite IH.
Qed.

Lemma dict_of_pairs_distinct (d : list (str * pyval)) :
  distinct (map fst d) = true -> dict_of_pairs d = d.
Proof.
  unfold dict_of_pairs.
  assert (H : forall d acc, distinct (map fst (acc ++ d)) = true ->
              fold_left (fun d kv => dict_set (fst kv) (snd kv) d) d acc
              = acc ++ d).
  { clear d. induction d as [|[k v] d IH]; intros acc Hd; simpl.
    - now rewrite app_nil_r.
    - rewrite dict_set_fresh.
      + rewrite IH; rewrite <- app_assoc; [reflexivity | exact Hd].
      + rewrite map_app in Hd. simpl in Hd. now apply distinct_before in Hd. }
  intros Hd. now apply (H d []).
Qed.

(** ** The text of a value *)

Lemma skip_ws_indent (k : nat) (r : str) :
  skip_ws (newline_indent k ++ r) = skip_ws r.
Proof.
  unfold newline_indent. simpl. induction (k + (k + 0))%nat as [|n IH];
    simpl; auto.
Qed.

Lemma skip_ws_head (c : char) (r : str) :
  is_json_ws c = false -> skip_ws (c :: r) = c :: r.
Proof. intros H. simpl. now rewrite H. Qed.

Lemma dumps_head (k : nat) (v : pyval) :
  exists c r, dumps k v = c :: r /\ value_start c = true.
Proof.
  destruct v as [|[|]|s|[|x l]|[|[key x] d]];
    do 2 eexists; (split; [reflexivity|]); reflexivity.
Qed.

Lemma value_start_not_ws (c : char) :
  value_start c = true -> is_json_ws c = false.
Proof.
  unfold value_start, is_json_ws.
  rewrite !orb_true_iff, !N.eqb_eq.
  intros [[[[[->| ->]| ->]| ->]| ->]| ->]; reflexivity.
Qed.

Lemma skip_ws_value (k : nat) (v : pyval) (r : str) :
  skip_ws (dumps k v ++ r) = dumps k v ++ r.
Proof.
  destruct (dumps_head k v) as (c & t & -> & H).
  simpl. now rewrite (value_start_not_ws _ H).
Qed.

(** ** Strings *)

Lemma hex_digit_value (d : N) : d < 16 -> hex_value (hex_digit d) = Some d.
Proof.
  intros H. unfold hex_digit, hex_value, in_range.
  destruct (N.ltb_spec d 10).
  - destruct (N.leb_spec 48 (48 + d)); [|lia].
    destruct (N.leb_spec (48 + d) 57); [|lia]. cbn [andb]. f_equal. lia.
  - destruct (N.leb_spec 48 (87 + d)); [|lia].
    destruct (N.leb_spec (87 + d) 57); [lia|].
    destruct (N.leb_spec 97 (87 + d)); [|lia].
    destruct (N.leb_spec (87 + d) 102); [|lia]. cbn [andb]. f_equal. lia.
Qed.

Lemma hex4_control (c : char) :
  c < 0x20 -> hex4 48 48 (hex_digit (c / 16)) (hex_digit (c mod 16)) = Some c.
Proof.
  intros H. unfold hex4.
  change (hex_value 48) with (Some 0).
  assert (Hq : c / 16 < 16) by (apply N.Div0.div_lt_upper_bound; lia).
  assert (Hr : c mod 16 < 16) by (apply N.mod_lt; discriminate).
  rewrite (hex_digit_value Hq), (hex_digit_value Hr). f_equal.
  pose proof (N.div_mod c 16 ltac:(discriminate)) as E.
  revert E. generalize (c / 16) (c mod 16). intros q r E. lia.
Qed.

Lemma scanstring_cons (c : char) (r : str) :
  scanstring (c :: r)
  = if c =? 34 then Some ([], r)
    else if c =? 92 then
      match r with
      | [] => None
      | e :: r1 =>
          if e =? 117 then
            match r1 with
            | h1 :: h2 :: h3 :: h4 :: r2 =>
                match hex4 h1 h2 h3 h4 with
                | None => None
                | Some uni =>
                    match r2 with
                    | [] => None
                    | b :: u :: l1 :: l2 :: l3 :: l4 :: ((_ :: _) as r3) =>
                        if in_range 0xD800 0xDBFF uni && (b =? 92)
                           && (u =? 117)
                        then
                          match hex4 l1 l2 l3 l4 with
                          | None => None
                          | Some uni2 =>
                              if in_range 0xDC00 0xDFFF uni2
                              then cons_scanned
                                     (0x10000 + (uni - 0xD800) * 1024
                                      + (uni2 - 0xDC00))
                                     (scanstring r3)
                              else cons_scanned uni (scanstring r2)
                          end
                        else cons_scanned uni (scanstring r2)
                    | _ :: _ => cons_scanned uni (scanstring r2)
                    end
                end
            | _ => None
            end
          else
            match unescape e with
            | Some c' => cons_scanned c' (scanstring r1)
            | None => None
            end
      end
    else if c <? 0x20 then None
    else cons_scanned c (scanstring r).
Proof. reflexivity. Qed.

(** A raw character. *)
Lemma scanstring_raw (c : char) (r : str) :
  c <> 34 -> c <> 92 -> 0x20 <= c ->
  scanstring (c :: r) = cons_scanned c (scanstring r).
Proof.
  intros H1 H2 H3. rewrite scanstring_cons.
  destruct (N.eqb_spec c 34); [contradiction|].
  destruct (N.eqb_spec c 92); [contradiction|].
  destruct (N.ltb_spec c 0x20); [lia | reflexivity].
Qed.

(** A one-letter escape. *)
Lemma scanstring_letter (e c : char) (r : str) :
  e <> 117 -> unescape e = Some c ->
  scanstring (92 :: e :: r) = cons_scanned c (scanstring r).
Proof.
  intros H1 H2. rewrite scanstring_cons.
  change (92 =? 34) with false. change (92 =? 92) with true. cbv iota.
  destruct (N.eqb_spec e 117); [contradiction|]. now rewrite H2.
Qed.

(** The escape of a control character. *)
Lemma scanstring_control (c x : char) (r : str) :
  c < 0x20 ->
  scanstring (92 :: 117 :: 48 :: 48 :: hex_digit (c / 16)
              :: hex_digit (c mod 16) :: x :: r)
  = cons_scanned c (scanstring (x :: r)).
Proof.
  intros H. rewrite scanstring_cons.
  change (92 =? 34) with false. change (92 =? 92) with true.
  change (117 =? 117) with true. cbv iota. rewrite (hex4_control H).
  assert (E : in_range 0xD800 0xDBFF c = false).
  { unfold in_range. destruct (N.leb_spec 0xD800 c); [lia | reflexivity]. }
  destruct r as [|a1 [|a2 [|a3 [|a4 [|a5 [|a6 r]]]]]]; try reflexivity.
  now rewrite E.
Qed.

Lemma scanstring_escape (s rest : str) :
  scanstring (flat_map escape_char s ++ 34 :: rest) = Some (s, rest).
Proof.
  induction s as [|c s IH]; [reflexivity|].
  cbn [flat_map]. rewrite <- app_assoc.
  remember (flat_map escape_char s ++ 34 :: rest) as T eqn:ET.
  unfold escape_char.
  destruct (N.eqb_spec c 34) as [->|N1].
  { cbn [app]. rewrite (@scanstring_letter 34 34), IH by easy. reflexivity. }
  destruct (N.eqb_spec c 92) as [->|N2].
  { change (lit "\\") with [92; 92]. cbn [app].
    rewrite (@scanstring_letter 92 92), IH by easy. reflexivity. }
  destruct (N.eqb_spec c 10) as [->|N3].
  { change (lit "\n") with [92; 110]. cbn [app].
    rewrite (@scanstring_letter 110 10), IH by easy. reflexivity. }
  destruct (N.eqb_spec c 13) as [->|N4].
  { change (lit "\r") with [92; 114]. cbn [app].
    rewrite (@scanstring_letter 114 13), IH by easy. reflexivity. }
  destruct (N.eqb_spec c 9) as [->|N5].
  { change (lit "\t") with [92; 116]. cbn [app].
    rewrite (@scanstring_letter 116 9), IH by easy. reflexivity. }
  destruct (N.eqb_spec c 8) as [->|N6].
  { change (lit "\b") with [92; 98]. cbn [app].
    rewrite (@scanstring_letter 98 8), IH by easy. reflexivity. }
  destruct (N.eqb_spec c 12) as [->|N7].
  { change (lit "\f") with [92; 102]. cbn [app].
    rewrite (@scanstring_letter 102 12), IH by easy. reflexivity. }
  destruct (N.ltb_spec c 0x20) as [L|L].
  { change (lit "\u00") with [92; 117; 48; 48]. cbn [app].
    destruct T as [|x r].
    - destruct (flat_map escape_char s); discriminate.
    - rewrite (scanstring_control x r L), IH. reflexivity. }
  cbn [app]. rewrite scanstring_raw, IH by assumption. reflexivity.
Qed.

Lemma encode_basestring_app (s rest : str) :
  encode_basestring s ++ rest = 34 :: flat_map escape_char s ++ 34 :: rest.
Proof. unfold encode_basestring. simpl. now rewrite <- app_assoc. Qed.

(** ** The scanner on the text of a value *)

Lemma dumps_list_app k x xs rest :
  dumps k (VList (x :: xs)) ++ rest
  = 91 :: newline_indent (S k) ++ dumps (S k) x ++ items_tail k xs rest.
Proof.
  unfold items_tail. cbn [dumps]. change (lit "[") with [91].
  now rewrite <- !app_assoc.
Qed.

Lemma dumps_dict_app k key x d rest :
  dumps k (VDict ((key, x) :: d)) ++ rest
  = 123 :: newline_indent (S k)
    ++ 34 :: flat_map escape_char key
    ++ 34 :: lit ": " ++ dumps (S k) x ++ members_tail k d rest.
Proof.
  unfold members_tail. cbn [dumps]. change (lit "{") with [123].
  rewrite <- !app_assoc. cbn [app]. rewrite encode_basestring_app.
  reflexivity.
Qed.

Lemma items_tail_nil k rest :
  items_tail k [] rest = newline_indent k ++ 93 :: rest.
Proof. reflexivity. Qed.

Lemma items_tail_cons k y ys rest :
  items_tail k (y :: ys) rest
  = 44 :: newline_indent (S k) ++ dumps (S k) y ++ items_tail k ys rest.
Proof.
  unfold items_tail. cbn [map concat]. change (lit ",") with [44].
  now rewrite <- !app_assoc.
Qed.

Lemma members_tail_nil k rest :
  members_tail k [] rest = newline_indent k ++ 125 :: rest.
Proof. reflexivity. Qed.

Lemma members_tail_cons k key y d rest :
  members_tail k ((key, y) :: d) rest
  = 44 :: newline_indent (S k)
    ++ 34 :: flat_map escape_char key
    ++ 34 :: lit ": " ++ dumps (S k) y ++ members_tail k d rest.
Proof.
  unfold members_tail. cbn [map concat fst snd]. change (lit ",") with [44].
  rewrite <- !app_assoc. cbn [app]. rewrite encode_basestring_app.
  reflexivity.
Qed.

Lemma scan_once_S n c r :
  scan_once (S n) (c :: r)
  = if c =? 34 then
      match scanstring r with
      | Some (t, rest) => Some (VStr t, rest)
      | None => None
      end
    else if c =? 123 then
      match skip_ws r with
      | c1 :: r1 =>
          if c1 =? 125 then Some (VDict [], r1)
          else if c1 =? 34 then JSONObject n r1 []
          else None
      | [] => None
      end
    else if c =? 91 then
      match skip_ws r with
      | c1 :: r1 =>
          if c1 =? 93 then Some (VList [], r1)
          else JSONArray n (c1 :: r1) []
      | [] => None
      end
    else
      match eat (lit "null") (c :: r), eat (lit "true") (c :: r),
            eat (lit "false") (c :: r) with
      | Some rest, _, _ => Some (VNone, rest)
      | _, Some rest, _ => Some (VBool true, rest)
      | _, _, Some rest => Some (VBool false, rest)
      | _, _, _ => None
      end.
Proof. reflexivity. Qed.

Lemma JSONArray_S n s values :
  JSONArray (S n) s values
  = match scan_once n s with
    | None => None
    | Some (value, s1) =>
        match skip_ws s1 with
        | c :: s2 =>
            if c =? 93 then Some (VList (rev (value :: values)), s2)
            else if c =? 44 then JSONArray n (skip_ws s2) (value :: values)
            else None
        | [] => None
        end
    end.
Proof. reflexivity. Qed.

Lemma JSONObject_S n s pairs :
  JSONObject (S n) s pairs
  = match scanstring s with
    | None => None
    | Some (key, s1) =>
        match skip_ws s1 with
        | c :: s2 =>
            if c =? 58 then
              match scan_once n (skip_ws s2) with
              | None => None
              | Some (value, s3) =>
                  match skip_ws s3 with
                  | c' :: s4 =>
                      if c' =? 125 then
                        Some (VDict (dict_of_pairs
                                       (rev ((key, value) :: pairs))), s4)
                      else if c' =? 44 then
                        match skip_ws s4 with
                        | q :: s5 =>
                            if q =? 34
                            then JSONObject n s5 ((key, value) :: pairs)
                            else None
                        | [] => None
                        end
                      else None
                  | [] => None
                  end
              end
            else None
        | [] => None
        end
    end.
Proof. reflexivity. Qed.

Lemma array_reads_back k rest : forall xs x values n,
  Forall reads_back (x :: xs) ->
  forallb keys_ok (x :: xs) = true ->
  (list_sum (map (fun y => S (size y)) (x :: xs)) <= n)%nat ->
  JSONArray n (dumps (S k) x ++ items_tail k xs rest) values
  = Some (VList (rev values ++ x :: xs), rest).
Proof.
  induction xs as [|y ys IH]; intros x values n HF HK Hn;
    inversion HF as [|? ? Hx HF']; subst;
    cbn [forallb] in HK; apply andb_true_iff in HK as [Kx HK];
    simpl in Hn; (destruct n as [|n]; [lia|]);
    rewrite JSONArray_S, (Hx Kx (S k) n _ ltac:(lia)).
  - rewrite items_tail_nil, skip_ws_indent, skip_ws_head by reflexivity.
    change (93 =? 93) with true. cbv iota. cbn [rev]. rewrite <- ?app_assoc. reflexivity.
  - rewrite items_tail_cons, skip_ws_head by reflexivity.
    change (44 =? 93) with false. change (44 =? 44) with true. cbv iota.
    rewrite skip_ws_indent, skip_ws_value.
    rewrite (IH y (x :: values) n HF' HK) by (simpl; lia).
    cbn [rev]. rewrite <- ?app_assoc. reflexivity.
Qed.

Lemma object_reads_back k rest : forall d key x pairs n,
  Forall (fun kv => reads_back (snd kv)) ((key, x) :: d) ->
  forallb (fun kv => keys_ok (snd kv)) ((key, x) :: d) = true ->
  (list_sum (map (fun kv => S (size (snd kv))) ((key, x) :: d)) <= n)%nat ->
  JSONObject n
    (flat_map escape_char key
     ++ 34 :: lit ": " ++ dumps (S k) x ++ members_tail k d rest) pairs
  = Some (VDict (dict_of_pairs (rev pairs ++ (key, x) :: d)), rest).
Proof.
  induction d as [|[key' y] d IH]; intros key x pairs n HF HK Hn;
    inversion HF as [|? ? Hx HF']; subst;
    cbn [forallb snd] in HK; apply andb_true_iff in HK as [Kx HK];
    simpl in Hn; (destruct n as [|n]; [lia|]);
    cbn [snd] in Hx;
    rewrite JSONObject_S, scanstring_escape;
    change (lit ": ") with [58; 32]; cbn [app];
    rewrite skip_ws_head by reflexivity;
    change (58 =? 58) with true; cbv iota;
    change (skip_ws (32 :: ?t)) with (skip_ws t);
    rewrite skip_ws_value, (Hx Kx (S k) n _ ltac:(lia)).
  - rewrite members_tail_nil, skip_ws_indent, skip_ws_head by reflexivity.
    change (125 =? 125) with true. cbv iota. cbn [rev].
    rewrite <- ?app_assoc. reflexivity.
  - rewrite members_tail_cons, skip_ws_head by reflexivity.
    change (44 =? 125) with false. change (44 =? 44) with true. cbv iota.
    rewrite skip_ws_indent, skip_ws_head by reflexivity.
    change (34 =? 34) with true. cbv iota.
    rewrite (IH key' y ((key, x) :: pairs) n HF') by
      (try assumption; simpl; lia).
    cbn [rev]. rewrite <- ?app_assoc. reflexivity.
Qed.

Lemma scan_reads_back (v : pyval) : reads_back v.
Proof.
  induction v as [| b | s | l IH | d IH] using pyval_nested_ind;
    intros HK k n rest Hn; (destruct n as [|n]; [simpl in Hn; lia|]).
  - reflexivity.
  - destruct b; reflexivity.
  - cbn [dumps]. rewrite encode_basestring_app, scan_once_S.
    change (34 =? 34) with true. cbv iota. now rewrite scanstring_escape.
  - destruct l as [|x xs]; [reflexivity|].
    rewrite dumps_list_app, scan_once_S.
    change (91 =? 34) with false. change (91 =? 123) with false.
    change (91 =? 91) with true. cbv iota.
    rewrite skip_ws_indent, skip_ws_value.
    destruct (dumps_head (S k) x) as (c & t & E & Hc).
    assert (E' : dumps (S k) x ++ items_tail k xs rest
                 = c :: (t ++ items_tail k xs rest)) by now rewrite E.
    rewrite E'.
    assert (N93 : (c =? 93) = false).
    { unfold value_start in Hc. rewrite !orb_true_iff, !N.eqb_eq in Hc.
      destruct Hc as [[[[[->| ->]| ->]| ->]| ->]| ->]; reflexivity. }
    rewrite N93, <- E'.
    cbn [keys_ok] in HK. simpl in Hn.
    now rewrite (@array_reads_back k rest xs x [] n IH HK ltac:(simpl; lia)).
  - destruct d as [|[key x] d]; [reflexivity|].
    rewrite dumps_dict_app, scan_once_S.
    change (123 =? 34) with false. change (123 =? 123) with true. cbv iota.
    rewrite skip_ws_indent, skip_ws_head by reflexivity.
    change (34 =? 125) with false. change (34 =? 34) with true. cbv iota.
    cbn [keys_ok] in HK. apply andb_true_iff in HK as [HD HK].
    simpl in Hn.
    rewrite (@object_reads_back k rest d key x [] n IH HK ltac:(simpl; lia)).
    cbn [rev app]. now rewrite dict_of_pairs_distinct.
Qed.

Lemma list_sum_cons_eq (a : nat) (l : list nat) :
  list_sum (a :: l) = (a + list_sum l)%nat.
Proof. reflexivity. Qed.

(** The text of a value is at least as long as the scanner needs. *)
Lemma size_le_dumps (v : pyval) : forall k, (size v <= length (dumps k v))%nat.
Proof.
  induction v as [| b | s | l IH | d IH] using pyval_nested_ind; intros k.
  - simpl. lia.
  - destruct b; simpl; lia.
  - simpl. lia.
  - destruct l as [|x xs]; [simpl; lia|].
    rewrite <- (app_nil_r (dumps k (VList (x :: xs)))), dumps_list_app.
    inversion IH as [|? ? Hx IH']; subst. specialize (Hx (S k)).
    assert (T : (list_sum (map (fun y => S (size y)) xs)
                 <= length (items_tail k xs []))%nat).
    { clear - IH'. induction IH' as [|y ys Hy _ IHys].
      - simpl. lia.
      - rewrite items_tail_cons. specialize (Hy (S k)).
        cbn [map]. rewrite list_sum_cons_eq. cbn [length].
        rewrite !length_app. lia. }
    assert (1 <= length (newline_indent (S k)))%nat by (simpl; lia).
    cbn [size map]. rewrite list_sum_cons_eq. cbn [length].
    rewrite !length_app. lia.
  - destruct d as [|[key x] d]; [simpl; lia|].
    rewrite <- (app_nil_r (dumps k (VDict ((key, x) :: d)))), dumps_dict_app.
    inversion IH as [|? ? Hx IH']; subst. specialize (Hx (S k)).
    cbn [snd] in Hx.
    assert (T : (list_sum (map (fun kv => S (size (snd kv))) d)
                 <= length (members_tail k d []))%nat).
    { clear - IH'. induction IH' as [|[key y] ys Hy _ IHys].
      - simpl. lia.
      - rewrite members_tail_cons. specialize (Hy (S k)). cbn [snd] in Hy.
        cbn [map snd]. rewrite list_sum_cons_eq.
        repeat (cbn [length]; rewrite ?length_app). lia. }
    assert (1 <= length (newline_indent (S k)))%nat by (simpl; lia).
    cbn [size map snd]. rewrite list_sum_cons_eq.
    repeat (cbn [length]; rewrite ?length_app). lia.
Qed.

Lemma loads_dumps (v : pyval) : keys_ok v = true -> loads (dumps 0 v) = Some v.
Proof.
  intros HK. unfold loads.
  pose proof (skip_ws_value 0 v []) as E. rewrite app_nil_r in E. rewrite E.
  pose proof (@scan_reads_back v HK 0%nat (S (length (dumps 0 v))) []) as R.
  rewrite app_nil_r in R. rewrite R; [reflexivity|].
  pose proof (size_le_dumps v 0). lia.
Qed.

(** ** The characters of the text *)

Section TextChars.
Variable Q : char -> bool.
Hypothesis Q_printable : forall c, printable c = true -> Q c = true.
Hypothesis Q_newline : Q 10 = true.

Lemma printable_all (s : str) : forallb printable s = true -> forallb Q s = true.
Proof. apply forallb_impl, Q_printable. Qed.

Lemma hex_digit_printable (d : N) : d < 16 -> printable (hex_digit d) = true.
Proof.
  intros H. unfold printable, hex_digit, in_range.
  destruct (N.ltb_spec d 10).
  - destruct (N.leb_spec 0x20 (48 + d)); [|lia].
    destruct (N.leb_spec (48 + d) 0x7E); [reflexivity|lia].
  - destruct (N.leb_spec 0x20 (87 + d)); [|lia].
    destruct (N.leb_spec (87 + d) 0x7E); [reflexivity|lia].
Qed.

Lemma escape_char_all (c : char) :
  (c <? 0x20) || Q c = true -> forallb Q (escape_char c) = true.
Proof.
  intros H. unfold escape_char.
  repeat match goal with
         | |- context [if ?x =? ?y then _ else _] =>
             destruct (x =? y); [now apply printable_all|]
         end.
  destruct (N.ltb_spec c 0x20) as [L|L].
  - rewrite forallb_app. rewrite (printable_all (lit "\u00")) by reflexivity.
    cbn [forallb andb].
    rewrite !Q_printable; [reflexivity| |];
      apply hex_digit_printable;
      [apply N.mod_lt; discriminate | apply N.Div0.div_lt_upper_bound; lia].
  - simpl in *. now rewrite H.
Qed.

Lemma encode_basestring_all (s : str) :
  forallb (fun c => (c <? 0x20) || Q c) s = true ->
  forallb Q (encode_basestring s) = true.
Proof.
  intros H. unfold encode_basestring. rewrite !forallb_app.
  rewrite (printable_all [34]) by reflexivity. rewrite andb_true_r. simpl.
  induction s as [|c s IH]; simpl in *; [reflexivity|].
  apply andb_true_iff in H as [Hc Hs].
  now rewrite forallb_app, escape_char_all, IH.
Qed.

Lemma newline_indent_all (k : nat) : forallb Q (newline_indent k) = true.
Proof.
  unfold newline_indent. generalize (2 * k)%nat as n. intros n.
  cbn [forallb]. rewrite Q_newline. cbn [andb].
  induction n as [|n IH]; simpl; [reflexivity|].
  now rewrite IH, Q_printable.
Qed.

Lemma concat_all (A : Type) (f : A -> str) (l : list A) :
  Forall (fun y => forallb Q (f y) = true) l ->
  forallb Q (concat (map f l)) = true.
Proof.
  induction 1 as [|y ys Hy _ IH]; cbn [map concat]; [reflexivity|].
  now rewrite forallb_app, Hy, IH.
Qed.

Lemma dumps_all (v : pyval) :
  chars_ok (fun c => (c <? 0x20) || Q c) v = true ->
  forall k, forallb Q (dumps k v) = true.
Proof.
  induction v as [| b | s | l IH | d IH] using pyval_nested_ind;
    intros H k.
  - now apply printable_all.
  - destruct b; now apply printable_all.
  - now apply encode_basestring_all.
  - destruct l as [|x xs]; [now apply printable_all|].
    cbn [dumps chars_ok forallb] in *. apply andb_true_iff in H as [Hx Hxs].
    inversion IH as [|? ? Px IH']; subst.
    rewrite !forallb_app, newline_indent_all, newline_indent_all, (Px Hx).
    rewrite (printable_all (lit "[")), (printable_all (lit "]")) by reflexivity.
    rewrite !andb_true_r. cbn [andb]. apply concat_all.
    clear - IH' Hxs Q_printable Q_newline.
    induction IH' as [|y ys Py _ IHys]; constructor;
      cbn [forallb] in Hxs; apply andb_true_iff in Hxs as [Hy Hys].
    + rewrite !forallb_app, newline_indent_all, (Py Hy).
      now rewrite (printable_all (lit ",")).
    + now apply IHys.
  - destruct d as [|[key x] d]; [now apply printable_all|].
    cbn [dumps chars_ok forallb fst snd] in *.
    apply andb_true_iff in H as [Hx Hxs]. apply andb_true_iff in Hx as [Hk Hx].
    inversion IH as [|? ? Px IH']; subst. cbn [snd] in Px.
    rewrite !forallb_app, newline_indent_all, newline_indent_all, (Px Hx),
      (encode_basestring_all _ Hk).
    rewrite (printable_all (lit "{")), (printable_all (lit "}")),
      (printable_all (lit ": ")) by reflexivity.
    rewrite !andb_true_r. cbn [andb]. apply concat_all.
    clear - IH' Hxs Q_printable Q_newline.
    induction IH' as [|[key y] ys Py _ IHys]; constructor;
      cbn [forallb fst snd] in Hxs; apply andb_true_iff in Hxs as [Hy Hys].
    + apply andb_true_iff in Hy as [Hk Hy]. cbn [fst snd] in *.
      rewrite !forallb_app, newline_indent_all, (Py Hy),
        (encode_basestring_all _ Hk).
      now rewrite (printable_all (lit ",")), (printable_all (lit ": ")).
    + now apply IHys.
Qed.

End TextChars.

Lemma dumps_encodable (v : pyval) (k : nat) :
  chars_ok encodable v = true -> forallb encodable (dumps k v) = true.
Proof.
  intros H. apply dumps_all.
  - intros c Hc. unfold printable, in_range in Hc.
    apply andb_true_iff in Hc as [H1 H2]. apply N.leb_le in H1, H2.
    unfold encodable, in_unicode, is_surrogate, in_range.
    destruct (N.ltb_spec c 0x110000); [|lia].
    destruct (N.leb_spec 0xD800 c); [lia | reflexivity].
  - reflexivity.
  - revert H. apply chars_ok_impl. intros c ->. apply orb_true_r.
Qed.

Lemma dumps_no_cr (v : pyval) (k : nat) : ~ In 13 (dumps k v).
Proof.
  assert (H : forallb (fun c => negb (c =? 13)) (dumps k v) = true).
  { apply dumps_all.
    - intros c Hc. unfold printable, in_range in Hc.
      apply andb_true_iff in Hc as [H1 H2]. apply N.leb_le in H1, H2.
      destruct (N.eqb_spec c 13); [lia | reflexivity].
    - reflexivity.
    - apply chars_ok_all. intros c.
      destruct (N.ltb_spec c 0x20); [reflexivity|].
      destruct (N.eqb_spec c 13); [lia | reflexivity]. }
  intros Hin. rewrite forallb_forall in H. specialize (H 13 Hin). discriminate.
Qed.

(** C9 (as the code has it). For every chunk sequence whose strings hold
    no surrogate code point, on either platform, [save_to_json] writes a
    file from which [load_from_json] returns the identical sequence, and
    stores it as the chunk list: order, content and non-ASCII characters
    are preserved. *)
Theorem save_load_roundtrip (p : platform) (path : str) (s s0 : chunker)
    (fs : filesystem) (l : list pyval) :
  chunks s = VList l ->
  pyobject (VList l) = true ->
  surrogate_free (VList l) = true ->
  exists fs',
    save_to_json p path s fs = Some fs'
    /\ load_from_json path s0 fs' = Some (set_chunks (VList l) s0, VList l).
Proof.
  intros Hl Ho Hs. unfold pyobject in Ho. apply andb_true_iff in Ho as [Hu Hk].
  assert (He : chars_ok encodable (VList l) = true)
    by (unfold surrogate_free in Hs; now apply chars_ok_and).
  destruct (@text_roundtrip p path (dumps 0 (VList l)) fs
              (dumps_encodable _ 0 He) (@dumps_no_cr _ 0))
    as (fs' & W & R).
  exists fs'. unfold save_to_json, load_from_json.
  rewrite Hl, W, R, (loads_dumps _ Hk). split; reflexivity.
Qed.

(* ===================================================================== *)
(** * Further properties of the module *)
(* ===================================================================== *)

(** ** Trimming and the lines of a text *)

Section TrimFacts.
Context {U : UnicodeDB}.

Lemma lstrip_head_ok (s : str) : head_ok (lstrip s) = true.
Proof.
  induction s as [|c s IH]; simpl; [reflexivity|].
  destruct (isspace c) eqn:E; [assumption|]. simpl. now rewrite E.
Qed.

Lemma lstrip_fix (s : str) : head_ok s = true -> lstrip s = s.
Proof. destruct s as [|c s]; simpl; [reflexivity|]. now destruct (isspace c). Qed.

Lemma lstrip_suffix (s : str) : exists w, s = w ++ lstrip s.
Proof.
  induction s as [|c s [w IH]]; simpl; [now exists []|].
  destruct (isspace c); [|now exists []].
  exists (c :: w). simpl. now rewrite <- IH.
Qed.

Lemma head_ok_app (s t : str) : s <> [] -> head_ok (s ++ t) = head_ok s.
Proof. destruct s; [congruence | reflexivity]. Qed.

Lemma rev_nonempty (A : Type) (s : list A) : s <> [] -> rev s <> [].
Proof.
  destruct s as [|c s]; [congruence|]. simpl. intros _ H.
  now apply app_eq_nil in H as [_ H].
Qed.

Lemma strip_trimmed (s : str) : trimmed (strip s) = true.
Proof.
  unfold strip, rstrip, trimmed. rewrite rev_involutive.
  rewrite lstrip_head_ok, andb_true_r.
  destruct (lstrip_suffix (rev (lstrip s))) as [w Hw].
  destruct (lstrip (rev (lstrip s))) as [|c u] eqn:E; [reflexivity|].
  assert (H : head_ok (rev (rev (lstrip s))) = head_ok (rev (c :: u))).
  { rewrite Hw at 1. rewrite rev_app_distr. apply head_ok_app.
    apply rev_nonempty. discriminate. }
  rewrite <- H, rev_involutive. apply lstrip_head_ok.
Qed.

Lemma trimmed_strip (s : str) : trimmed s = true -> strip s = s.
Proof.
  unfold trimmed, strip, rstrip. rewrite andb_true_iff. intros [H1 H2].
  now rewrite (lstrip_fix _ H1), (lstrip_fix _ H2), rev_involutive.
Qed.

Lemma strip_idempotent (s : str) : strip (strip s) = strip s.
Proof. apply trimmed_strip, strip_trimmed. Qed.

Lemma lstrip_incl (s : str) (c : char) : In c (lstrip s) -> In c s.
Proof.
  destruct (lstrip_suffix s) as [w Hw]. intros H. rewrite Hw.
  apply in_or_app. now right.
Qed.

Lemma strip_incl (s : str) (c : char) : In c (strip s) -> In c s.
Proof.
  unfold strip, rstrip. intros H. apply in_rev in H.
  apply lstrip_incl in H. apply in_rev in H. now apply lstrip_incl.
Qed.

Lemma strip_all (Q : char -> bool) (s : str) :
  forallb Q s = true -> forallb Q (strip s) = true.
Proof.
  rewrite !forallb_forall. intros H c Hc. apply H. now apply strip_incl.
Qed.

Lemma split_nonempty (a : char) (s : str) : split a s <> [].
Proof.
  induction s as [|c s IH]; simpl; [discriminate|].
  destruct (c =? a); [discriminate|].
  destruct (split a s); discriminate.
Qed.

Lemma split_no_sep (a : char) (s : str) :
  Forall (fun w => ~ In a w) (split a s).
Proof.
  induction s as [|c s IH]; simpl.
  - constructor; [tauto | constructor].
  - destruct (N.eqb_spec c a) as [->|Hne].
    + constructor; [tauto | assumption].
    + destruct (split a s) as [|w ws] eqn:E; [now apply split_nonempty in E|].
      inversion IH; subst. constructor; [|assumption].
      intros [H|H]; [congruence | contradiction].
Qed.

Lemma split_all (Q : char -> bool) (a : char) (s : str) :
  forallb Q s = true -> Forall (fun w => forallb Q w = true) (split a s).
Proof.
  induction s as [|c s IH]; simpl.
  - repeat constructor.
  - rewrite andb_true_iff. intros [Hc H]. specialize (IH H).
    destruct (c =? a).
    + constructor; [reflexivity | assumption].
    + destruct (split a s) as [|w ws].
      * repeat constructor. simpl. now rewrite Hc.
      * inversion IH; subst. constructor; [|assumption].
        simpl. now rewrite Hc.
Qed.

Lemma split_app (a : char) (s1 s2 : str) :
  split a (s1 ++ a :: s2) = split a s1 ++ split a s2.
Proof.
  induction s1 as [|c s1 IH]; simpl.
  - now rewrite N.eqb_refl.
  - destruct (c =? a); [now rewrite IH|]. rewrite IH.
    destruct (split a s1) as [|w ws] eqn:E; [|reflexivity].
    now apply split_nonempty in E.
Qed.

Lemma normalize_app (t1 t2 : str) :
  normalize (t1 ++ 10 :: t2) = normalize t1 ++ normalize t2.
Proof.
  unfold normalize. now rewrite split_app, filter_app, map_app.
Qed.

Lemma cleaned_trimmed (lines : list str) :
  Forall (fun l => l <> [] /\ trimmed l = true) (cleaned_lines lines).
Proof.
  unfold cleaned_lines. induction lines as [|x lines IH]; simpl; [constructor|].
  destruct (strip x) eqn:E; simpl; [assumption|].
  constructor; [|assumption]. rewrite E. split; [discriminate|].
  rewrite <- E. apply strip_trimmed.
Qed.

Lemma cleaned_all (Q : str -> Prop) (lines : list str) :
  Forall Q lines -> (forall x, Q x -> Q (strip x)) ->
  Forall Q (cleaned_lines lines).
Proof.
  intros H HQ. unfold cleaned_lines.
  induction H as [|x lines Hx _ IH]; simpl; [constructor|].
  destruct (nonempty (strip x)); [|assumption].
  constructor; [now apply HQ | assumption].
Qed.

Lemma join_cons (sep p : str) (ps : list str) :
  ps <> [] -> join sep (p :: ps) = p ++ sep ++ join sep ps.
Proof. destruct ps; [congruence | reflexivity]. Qed.

Lemma join_trimmed (sep : str) (parts : list str) :
  parts <> [] -> Forall (fun l => l <> [] /\ trimmed l = true) parts ->
  join sep parts <> [] /\ trimmed (join sep parts) = true.
Proof.
  intros Hne H. induction H as [|p ps [Hp Ht] Hps IH]; [congruence|].
  destruct ps as [|q ps]; [now split|].
  specialize (IH ltac:(discriminate)). destruct IH as [IH1 IH2].
  rewrite join_cons by discriminate. split.
  - destruct p; [congruence | discriminate].
  - unfold trimmed in *. apply andb_true_iff in Ht as [Ht1 Ht2].
    apply andb_true_iff in IH2 as [_ IH2].
    rewrite head_ok_app by assumption. rewrite Ht1. simpl.
    rewrite !rev_app_distr, <- app_assoc.
    rewrite head_ok_app by now apply rev_nonempty.
    assumption.
Qed.

End TrimFacts.

(** X1. The lines that [parse_text] works on: none is empty, none holds a
    line feed, none starts or ends with a whitespace character. *)
Theorem normalize_lines {U : UnicodeDB} (text : str) :
  Forall (fun line => line <> [] /\ ~ In 10 line /\ trimmed line = true)
    (normalize text).
Proof.
  unfold normalize. generalize (split_no_sep 10 text).
  induction 1 as [|w ws Hw _ IH]; simpl; [constructor|].
  destruct (strip w) eqn:E; simpl; [assumption|].
  constructor; [|assumption]. rewrite E. split; [discriminate|].
  rewrite <- E. split; [|apply strip_trimmed].
  intros H. apply Hw. now apply strip_incl.
Qed.

(** X2. Lines of whitespace only do not count: a text parses as the
    same text with such a line put between two of its lines. *)
Theorem parse_text_blank_lines {U : UnicodeDB} (t1 blank t2 : str)
    (s : chunker) :
  forallb isspace blank = true ->
  parse_text (t1 ++ 10 :: blank ++ 10 :: t2) s = parse_text (t1 ++ 10 :: t2) s.
Proof.
  intros H. unfold parse_text.
  now rewrite !normalize_app, (normalize_blank _ H).
Qed.

(** ** The flush and the loop body, case by case *)

Section CaseFacts.
Context {U : UnicodeDB}.

(** The fields of a chunk, from the chunker that creates it. *)
Lemma create_chunk_fields (t : chunker) (c : pyval) :
  _create_chunk t = Some c ->
  exists number a meta,
    current_article_number t = Some number
    /\ current_article t = Some a
    /\ getitem "id" c = Some (VStr (lit "CT_TN_A" ++ replace 45 95 number))
    /\ getitem "text" c
       = Some (VStr (strip (join (lit " ") (current_article_text t))))
    /\ getitem "metadata" c = Some meta
    /\ (forall lv,
          getitem (level_key lv) meta = Some (of_opt (level_label lv t)))
    /\ getitem "article" meta = Some (VStr a)
    /\ getitem "article_number" meta = Some (VStr number)
    /\ getitem "is_sub_article" meta = Some (VBool (contains 45 number))
    /\ getitem "citation" meta
       = Some (VStr (lit "Code du travail tunisien, art. " ++ number))
    /\ getitem "hierarchy_path" meta
       = Some (VStr (join (lit " > ")
                       (hierarchy_part "Livre" (current_livre t)
                        ++ hierarchy_part "Titre" (current_titre t)
                        ++ hierarchy_part "Chapitre" (current_chapitre t)
                        ++ hierarchy_part "Section" (current_section t)
                        ++ [a]))).
Proof.
  unfold _create_chunk.
  destruct (current_article_number t) as [number|]; [|discriminate].
  destruct (current_article t) as [a|]; [|discriminate].
  intros [= <-]. eexists number, a, _.
  repeat (split; [reflexivity|]).
  split; [intros lv; destruct lv; reflexivity|].
  repeat (split; [reflexivity|]). reflexivity.
Qed.

(** The flush either leaves the chunker or appends the chunk of the
    active article and empties the body lines. *)
Lemma flush_cases (s s' : chunker) :
  _save_article_chunk s = Some s' ->
  s' = s
  \/ exists c l,
       truthy (current_article s) = true
       /\ nonempty (cleaned_lines (current_article_text s)) = true
       /\ _create_chunk
            (set_current_article_text
               (cleaned_lines (current_article_text s)) s) = Some c
       /\ chunks s = VList l
       /\ s' = mkChunker (VList (l ++ [c])) (current_livre s)
                 (current_titre s) (current_chapitre s) (current_section s)
                 (current_article s) (current_article_number s) [].
Proof.
  unfold _save_article_chunk.
  destruct (truthy (current_article s)) eqn:Ha; simpl andb;
    [|intros [= <-]; now left].
  destruct (nonempty (current_article_text s)); [|intros [= <-]; now left].
  fold (cleaned_lines (current_article_text s)).
  destruct (nonempty (cleaned_lines _)) eqn:En; [|intros [= <-]; now left].
  destruct (_create_chunk _) as [c|] eqn:Ec; [|discriminate].
  destruct (py_append _ c) as [v|] eqn:Ea; [|discriminate].
  intros [= <-]. right. simpl in Ea.
  destruct (chunks s) as [| | |l|] eqn:El; try discriminate.
  injection Ea as <-. exists c, l. repeat split; try assumption.
Qed.

Lemma article_exclusive (line : str) :
  re_match re_I article_re line <> None ->
  forall lv : level, re_match re_I (level_pattern lv) line = None.
Proof.
  intros H lv. apply match_article_word in H.
  destruct lv; apply no_word_no_match.
  - apply (@initial_excludes 65 76 (lit "rt") (lit "IVRE") line);
      [simpl; tauto | simpl; tauto | discriminate | exact H].
  - apply (@initial_excludes 65 84 (lit "rt") (lit "itre") line);
      [simpl; tauto | simpl; tauto | discriminate | exact H].
  - apply (@initial_excludes 65 67 (lit "rt") (lit "hapitre") line);
      [simpl; tauto | simpl; tauto | discriminate | exact H].
  - apply (@initial_excludes 65 83 (lit "rt") (lit "ection") line);
      [simpl; tauto | simpl; tauto | discriminate | exact H].
Qed.

(** The loop body: a heading branch, the article branch, or the last
    block. *)
Lemma step_cases (line : str) (next : option str) (s s' : chunker) (b : bool) :
  step line next s = Some (s', b) ->
  (exists lv m s1 g2 title,
     re_match re_I (level_pattern lv) line = Some m
     /\ _save_article_chunk s = Some s1
     /\ group 2 m = Some g2
     /\ continuation (strip g2) next = (title, b)
     /\ s' = heading_update lv
               (label (level_keyword lv) (group 1 m) title) s1)
  \/ (exists m s1 g2,
        re_match re_I article_re line = Some m
        /\ _save_article_chunk s = Some s1
        /\ group 2 m = Some g2
        /\ s' = article_update (group 1 m) (strip g2) s1
        /\ b = false)
  \/ (first_match matchers line = None
      /\ s' = body_update line s /\ b = false).
Proof.
  unfold step.
  destruct (re_match re_I livre_re line) as [m|] eqn:E1.
  { unfold on_livre.
    destruct (_save_article_chunk s) as [s1|]; [|discriminate].
    destruct (group 2 m) as [g2|] eqn:Eg; [|discriminate].
    destruct (continuation (strip g2) next) as [title consumed] eqn:Ec.
    intros [= <- <-]. left. exists Livre, m, s1, g2, title.
    repeat split; assumption. }
  destruct (re_match re_I titre_re line) as [m|] eqn:E2.
  { unfold on_titre.
    destruct (_save_article_chunk s) as [s1|]; [|discriminate].
    destruct (group 2 m) as [g2|] eqn:Eg; [|discriminate].
    destruct (continuation (strip g2) next) as [title consumed] eqn:Ec.
    intros [= <- <-]. left. exists Titre, m, s1, g2, title.
    repeat split; assumption. }
  destruct (re_match re_I chapitre_re line) as [m|] eqn:E3.
  { unfold on_chapitre.
    destruct (_save_article_chunk s) as [s1|]; [|discriminate].
    destruct (group 2 m) as [g2|] eqn:Eg; [|discriminate].
    destruct (continuation (strip g2) next) as [title consumed] eqn:Ec.
    intros [= <- <-]. left. exists Chapitre, m, s1, g2, title.
    repeat split; assumption. }
  destruct (re_match re_I section_re line) as [m|] eqn:E4.
  { unfold on_section.
    destruct (_save_article_chunk s) as [s1|]; [|discriminate].
    destruct (group 2 m) as [g2|] eqn:Eg; [|discriminate].
    destruct (continuation (strip g2) next) as [title consumed] eqn:Ec.
    intros [= <- <-]. left. exists Section, m, s1, g2, title.
    repeat split; assumption. }
  destruct (re_match re_I article_re line) as [m|] eqn:E5.
  { unfold on_article.
    destruct (_save_article_chunk s) as [s1|]; [|discriminate].
    destruct (group 2 m) as [g2|] eqn:Eg; [|discriminate].
    intros [= <- <-]. right; left. exists m, s1, g2.
    repeat split; try assumption.
    unfold article_update. destruct (nonempty (strip g2)); simpl;
      [reflexivity | now rewrite app_nil_r]. }
  unfold on_other. intros [= <- <-]. right; right.
  split; [|split; reflexivity].
  unfold first_match, matchers. now rewrite E1, E2, E3, E4, E5.
Qed.

(** A line that no matcher accepts goes through the last block. *)
Lemma step_unmatched (line : str) (next : option str) (s : chunker) :
  first_match matchers line = None ->
  step line next s = Some (body_update line s, false).
Proof.
  unfold first_match, matchers, step.
  destruct (re_match re_I livre_re line); [discriminate|].
  destruct (re_match re_I titre_re line); [discriminate|].
  destruct (re_match re_I chapitre_re line); [discriminate|].
  destruct (re_match re_I section_re line); [discriminate|].
  destruct (re_match re_I article_re line); [discriminate|].
  reflexivity.
Qed.

(** A line that the article pattern accepts takes the article branch. *)
Lemma step_article (line : str) (m : groups) (next : option str)
    (s : chunker) :
  re_match re_I article_re line = Some m ->
  step line next s = on_article m s.
Proof.
  intros H. assert (Hn : re_match re_I article_re line <> None) by congruence.
  pose proof (article_exclusive line Hn Livre) as E1.
  pose proof (article_exclusive line Hn Titre) as E2.
  pose proof (article_exclusive line Hn Chapitre) as E3.
  pose proof (article_exclusive line Hn Section) as E4.
  simpl in E1, E2, E3, E4. unfold step. rewrite E1, E2, E3, E4.
  now rewrite H.
Qed.

End CaseFacts.

(** ** Invariants of the parse, and what they give of the chunks *)

Section Traced.
Context {U : UnicodeDB}.

(** What holds of every line, of the chunker between two lines, and of
    every chunk created. *)
Variable L : str -> Prop.
Variable I : chunker -> Prop.
Variable P : pyval -> Prop.

Hypothesis I_step : forall line next s s' b,
  L line -> (forall n, next = Some n -> L n) -> I s ->
  step line next s = Some (s', b) -> I s'.
Hypothesis I_flush : forall s s',
  I s -> _save_article_chunk s = Some s' -> I s'.
Hypothesis I_created : forall s c,
  I s -> nonempty (cleaned_lines (current_article_text s)) = true ->
  _create_chunk
    (set_current_article_text (cleaned_lines (current_article_text s)) s)
  = Some c ->
  P c.

Lemma traced_flush (s s' : chunker) :
  I s -> _save_article_chunk s = Some s' -> extends P s s'.
Proof.
  intros Hi H. apply flush_cases in H as [->|(c & l & _ & Hn & Hc & Hl & ->)].
  - apply extends_refl.
  - intros l0 Hl0. rewrite Hl in Hl0. injection Hl0 as <-.
    exists [c]. split; [reflexivity|]. repeat constructor. eauto.
Qed.

Lemma traced_step (line : str) (next : option str) (s s' : chunker) (b : bool) :
  I s -> step line next s = Some (s', b) -> extends P s s'.
Proof.
  intros Hi H. apply step_chunks in H as [(s1 & Hf & E)|E].
  - apply extends_trans with s1; [now apply traced_flush|].
    now apply extends_same.
  - now apply extends_same.
Qed.

Lemma traced_loop (lines : list str) : forall s s',
  Forall L lines -> I s -> parse_loop lines s = Some s' ->
  I s' /\ extends P s s'.
Proof.
  assert (H : forall n lines, (length lines <= n)%nat -> forall s s',
             Forall L lines -> I s -> parse_loop lines s = Some s' ->
             I s' /\ extends P s s').
  { induction n as [|n IH]; intros [|line rest] Hlen s s' HL Hi; simpl in *;
      try lia; try (intros [= <-]; split; [assumption | apply extends_refl]).
    destruct (step line (hd_error rest) s) as [[s1 b]|] eqn:Es;
      [|discriminate].
    inversion HL as [|? ? Hline Hrest]; subst.
    assert (Hi1 : I s1).
    { apply (I_step (line := line) (next := hd_error rest) (s := s) (b := b));
        try assumption.
      intros x Hx. destruct rest as [|y rest']; [discriminate|].
      injection Hx as <-. now inversion Hrest. }
    assert (He : extends P s s1) by (eapply traced_step; eassumption).
    intros H.
    assert (X : I s' /\ extends P s1 s').
    { destruct rest as [|x rest']; [|destruct b].
      - apply (IH [] ltac:(simpl; lia) s1 s' Hrest Hi1 H).
      - inversion Hrest; subst.
        apply (IH rest' ltac:(simpl in *; lia) s1 s'); assumption.
      - apply (IH (x :: rest') ltac:(simpl in *; lia) s1 s'); assumption. }
    destruct X as [X1 X2]. split; [assumption|].
    now apply extends_trans with s1. }
  intros s s'. apply (H (length lines)). lia.
Qed.

Lemma traced_parse_text (text : str) (s s' : chunker) (out : pyval) :
  Forall L (normalize text) -> I s -> parse_text text s = Some (s', out) ->
  I s' /\ out = chunks s' /\ extends P s s'.
Proof.
  intros HL Hi. unfold parse_text.
  destruct (parse_loop (normalize text) s) as [s1|] eqn:E1; [|discriminate].
  destruct (_save_article_chunk s1) as [s2|] eqn:E2; [|discriminate].
  destruct (py_len (chunks s2)); [|discriminate].
  intros [= <- <-].
  destruct (@traced_loop (normalize text) s s1 HL Hi E1) as [Hi1 He1].
  split; [eauto|]. split; [reflexivity|].
  apply extends_trans with s1; [assumption|]. now apply traced_flush.
Qed.

End Traced.

(** ** The flush *)

(** X3. The flush is idempotent: a second flush right after a flush
    changes nothing, so no chunk is ever written twice in a row. *)
Theorem flush_idempotent {U : UnicodeDB} (s s' : chunker) :
  _save_article_chunk s = Some s' -> _save_article_chunk s' = Some s'.
Proof.
  intros H. destruct (flush_cases _ H) as [->|(c & l & _ & _ & _ & _ & ->)];
    [assumption|].
  unfold _save_article_chunk. simpl. now rewrite andb_false_r.
Qed.

Lemma create_chunk_text {U : UnicodeDB} (s : chunker) (c : pyval) :
  nonempty (cleaned_lines (current_article_text s)) = true ->
  _create_chunk
    (set_current_article_text (cleaned_lines (current_article_text s)) s)
  = Some c ->
  getitem "text" c
  = Some (VStr (join (lit " ") (cleaned_lines (current_article_text s))))
  /\ text_field c.
Proof.
  intros Hn Hc.
  apply create_chunk_fields in Hc as (number & a & meta & _ & _ & _ & Ht & _).
  simpl current_article_text in Ht.
  assert (Hne : cleaned_lines (current_article_text s) <> [])
    by (intros E; rewrite E in Hn; discriminate).
  destruct (join_trimmed (lit " ") Hne (cleaned_trimmed _)) as [J1 J2].
  rewrite (trimmed_strip _ J2) in Ht. split; [assumption|].
  eexists. split; [exact Ht|]. now split.
Qed.

(** X4. The text of the chunk that the flush appends is the
    body lines, trimmed and without the blank ones, joined by single
    spaces: the final [strip] of [_create_chunk] removes nothing. *)
Theorem flushed_text {U : UnicodeDB} (s : chunker) (l : list pyval) :
  ready s -> chunks s = VList l ->
  truthy (current_article s) = true ->
  Exists (fun line => strip line <> []) (current_article_text s) ->
  exists s' c,
    _save_article_chunk s = Some s'
    /\ chunks s' = VList (l ++ [c])
    /\ getitem "text" c
       = Some (VStr (join (lit " ")
                       (cleaned_lines (current_article_text s)))).
Proof.
  intros Hr Hl Ha Hx. pose proof (cleaned_nonblank Hx) as Hn.
  assert (Hne : nonempty (current_article_text s) = true)
    by (destruct Hx; reflexivity).
  destruct Hr as [_ Hnum]. specialize (Hnum Ha).
  destruct (_create_chunk
              (set_current_article_text
                 (cleaned_lines (current_article_text s)) s))
    as [c|] eqn:Ec.
  - eexists _, c. split.
    + unfold _save_article_chunk. rewrite Ha, Hne. simpl andb. cbv iota.
      fold (cleaned_lines (current_article_text s)).
      rewrite Hn, Ec. simpl. rewrite Hl. reflexivity.
    + split; [reflexivity|]. now apply create_chunk_text.
  - exfalso. unfold _create_chunk in Ec. simpl in Ec.
    destruct (current_article_number s); [|congruence].
    destruct (current_article s); discriminate.
Qed.

(** X5. Every chunk that a call of [parse_text] adds has a text that is
    not empty and neither starts nor ends with a whitespace character. *)
Theorem emitted_text {U : UnicodeDB} (text : str) (s s' : chunker)
    (out : pyval) (l : list pyval) :
  chunks s = VList l ->
  parse_text text s = Some (s', out) ->
  exists new, out = VList (l ++ new) /\ Forall text_field new.
Proof.
  intros Hl H.
  apply (@traced_parse_text U (fun _ => True) (fun _ => True) text_field) in H.
  - destruct H as (_ & -> & H). exact (H l Hl).
  - trivial.
  - trivial.
  - intros t c _ Hn Hc. now apply (create_chunk_text t).
  - apply Forall_forall. trivial.
  - trivial.
Qed.

Lemma flush_active {U : UnicodeDB} (s : chunker) (l : list pyval) :
  ready s -> chunks s = VList l ->
  truthy (current_article s) = true ->
  Exists (fun line => strip line <> []) (current_article_text s) ->
  exists c,
    _create_chunk
      (set_current_article_text (cleaned_lines (current_article_text s)) s)
    = Some c
    /\ _save_article_chunk s
       = Some (mkChunker (VList (l ++ [c])) (current_livre s)
                 (current_titre s) (current_chapitre s) (current_section s)
                 (current_article s) (current_article_number s) []).
Proof.
  intros Hr Hl Ha Hx. pose proof (cleaned_nonblank Hx) as Hn.
  assert (Hne : nonempty (current_article_text s) = true)
    by (destruct Hx; reflexivity).
  destruct Hr as [_ Hnum]. specialize (Hnum Ha).
  destruct (_create_chunk
              (set_current_article_text
                 (cleaned_lines (current_article_text s)) s))
    as [c|] eqn:Ec.
  - exists c. split; [reflexivity|].
    unfold _save_article_chunk. rewrite Ha, Hne. simpl andb. cbv iota.
    fold (cleaned_lines (current_article_text s)).
    rewrite Hn, Ec. simpl. rewrite Hl. reflexivity.
  - exfalso. unfold _create_chunk in Ec. simpl in Ec.
    destruct (current_article_number s); [|congruence].
    destruct (current_article s); discriminate.
Qed.

(** ** The branches of the loop body *)

(** X6. A line accepted by the pattern of a heading level flushes the
    active article, sets the label of that level from the number and the
    title, leaves the labels of the levels above, and clears the labels
    of the levels below, the article label and the article number. *)
Theorem heading_transition {U : UnicodeDB} (lv : level) (line : str)
    (next : option str) (m : groups) (s : chunker) :
  re_match re_I (level_pattern lv) line = Some m ->
  ready s ->
  exists s1 s' g2 title consumed,
    _save_article_chunk s = Some s1
    /\ group 2 m = Some g2
    /\ continuation (strip g2) next = (title, consumed)
    /\ step line next s = Some (s', consumed)
    /\ level_label lv s' = Some (label (level_keyword lv) (group 1 m) title)
    /\ (forall lv', (rank lv' < rank lv)%nat ->
                    level_label lv' s' = level_label lv' s)
    /\ (forall lv', (rank lv < rank lv')%nat -> level_label lv' s' = None)
    /\ current_article s' = None
    /\ current_article_number s' = None
    /\ chunks s' = chunks s1
    /\ current_article_text s' = current_article_text s1.
Proof.
  intros Hm Hr. destruct (flush_ready Hr) as (s1 & Hf & _).
  destruct (level_group2 lv _ Hm) as [g2 Hg].
  destruct (flush_frame _ Hf) as (El & Et & Ec & Es & _).
  destruct (continuation (strip g2) next) as [title consumed] eqn:Ek.
  exists s1,
    (heading_update lv (label (level_keyword lv) (group 1 m) title) s1),
    g2, title, consumed.
  split; [assumption|]. split; [assumption|]. split; [exact Ek|].
  split.
  { rewrite (@step_level U lv line m next s Hm).
    destruct lv; simpl; unfold on_livre, on_titre, on_chapitre, on_section;
      rewrite Hf, Hg, Ek; reflexivity. }
  destruct lv; simpl; repeat split; intros lv'; destruct lv'; simpl;
    intros; try lia; congruence.
Qed.

(** X7. A line accepted by the article pattern flushes the active
    article and starts the new one: the article number is group 1, the
    article label is the word Article and that number, the text that
    follows the number on the line (when there is some) is the first body
    line, and the four heading labels stay. *)
Theorem article_transition {U : UnicodeDB} (line : str) (next : option str)
    (m : groups) (s : chunker) :
  re_match re_I article_re line = Some m ->
  ready s ->
  exists s1 number g2,
    _save_article_chunk s = Some s1
    /\ group 1 m = Some number
    /\ group 2 m = Some g2
    /\ step line next s
       = Some (mkChunker (chunks s1) (current_livre s) (current_titre s)
                 (current_chapitre s) (current_section s)
                 (Some (lit "Article " ++ number)) (Some number)
                 (current_article_text s1
                  ++ (if nonempty (strip g2) then [strip g2] else [])),
               false).
Proof.
  intros Hm Hr. destruct (flush_ready Hr) as (s1 & Hf & _).
  destruct (article_group1 _ Hm) as [number Hn].
  destruct (article_group2 _ Hm) as [g2 Hg].
  destruct (flush_frame _ Hf) as (El & Et & Ec & Es & _).
  exists s1, number, g2. repeat (split; [assumption|]).
  rewrite (step_article _ next s Hm). unfold on_article.
  rewrite Hf, Hg, Hn, <- El, <- Et, <- Ec, <- Es.
  destruct (nonempty (strip g2)); simpl; [reflexivity|].
  now rewrite app_nil_r.
Qed.

(** X8. When an article with a non-blank body is active, a heading line
    or an article line closes it: the chunk appended carries the four
    heading labels, the article label and the article number that were
    in force before the line, not those the line sets. *)
Theorem closing_line_chunk {U : UnicodeDB} (line : str) (next : option str)
    (s : chunker) (l : list pyval) :
  ready s -> chunks s = VList l ->
  truthy (current_article s) = true ->
  Exists (fun body => strip body <> []) (current_article_text s) ->
  first_match matchers line <> None ->
  exists s' consumed c meta,
    step line next s = Some (s', consumed)
    /\ chunks s' = VList (l ++ [c])
    /\ getitem "metadata" c = Some meta
    /\ (forall lv,
          getitem (level_key lv) meta = Some (of_opt (level_label lv s)))
    /\ getitem "article" meta = Some (of_opt (current_article s))
    /\ getitem "article_number" meta
       = Some (of_opt (current_article_number s)).
Proof.
  intros Hr Hl Ha Hx Hm.
  destruct (step_ready line next Hr) as (s' & b & Hs & _).
  destruct (flush_active Hr Hl Ha Hx) as (c & Hc & Hf).
  apply create_chunk_fields in Hc
    as (number & a & meta & En & Ea & _ & _ & Em & Hlv & Hart & Hnum & _).
  simpl in En, Ea.
  assert (E : chunks s' = VList (l ++ [c])).
  { destruct (step_cases _ _ _ Hs)
      as [(lv & m & s1 & g2 & title & _ & Hf1 & _ & _ & ->)
         |[(m & s1 & g2 & _ & Hf1 & _ & -> & _)|(Hnone & _)]].
    - rewrite Hf in Hf1. injection Hf1 as <-. now destruct lv.
    - rewrite Hf in Hf1. now injection Hf1 as <-.
    - contradiction. }
  exists s', b, c, meta.
  split; [exact Hs|]. split; [exact E|]. split; [exact Em|].
  split; [|split].
  - intros lv. rewrite Hlv. now destruct lv.
  - rewrite Ea. exact Hart.
  - rewrite En. exact Hnum.
Qed.

Lemma parse_loop_cons {U : UnicodeDB} (line : str) (rest : list str)
    (s s1 : chunker) :
  step line (hd_error rest) s = Some (s1, false) ->
  parse_loop (line :: rest) s = parse_loop rest s1.
Proof. intros H. simpl. rewrite H. now destruct rest. Qed.

Lemma body_loop {U : UnicodeDB} (lines : list str) (s : chunker) :
  Forall (fun line => first_match matchers line = None) lines ->
  parse_loop lines s
  = Some (if truthy (current_article s)
          then set_current_article_text
                 (current_article_text s
                  ++ filter (fun line => negb (keyword_line line)) lines) s
          else s).
Proof.
  intros H. revert s. induction H as [|line rest Hline _ IH]; intros s.
  - simpl. destruct (truthy (current_article s)); [|reflexivity].
    rewrite app_nil_r. now destruct s.
  - rewrite (@parse_loop_cons U line rest s (body_update line s)
               (@step_unmatched U line (hd_error rest) s Hline)), IH.
    unfold body_update. simpl filter.
    destruct (truthy (current_article s)) eqn:Ha; simpl andb.
    + destruct (keyword_line line); simpl negb; cbv iota.
      * rewrite Ha. reflexivity.
      * simpl current_article. rewrite Ha.
        unfold set_current_article_text. simpl.
        now rewrite <- app_assoc.
    + cbv iota. rewrite Ha. reflexivity.
Qed.

(** X9. Lines that no matcher accepts, in a row: when an article is
    active they are appended to its body in order and unchanged, except
    those that start with a keyword, which are dropped; when no article
    is active they are all dropped and the chunker is unchanged. *)
Theorem body_lines {U : UnicodeDB} (lines : list str) (s : chunker) :
  Forall (fun line => first_match matchers line = None) lines ->
  parse_loop lines s
  = Some (if truthy (current_article s)
          then set_current_article_text
                 (current_article_text s
                  ++ filter (fun line => negb (keyword_line line)) lines) s
          else s).
Proof. apply body_loop. Qed.

Section ArticleBody.
Context {U : UnicodeDB}.

Lemma cleaned_fix (lines : list str) :
  Forall (fun b => b <> [] /\ trimmed b = true) lines ->
  cleaned_lines lines = lines.
Proof.
  unfold cleaned_lines. induction 1 as [|x lines [Hne Ht] _ IH];
    cbn [filter map]; [reflexivity|].
  rewrite (trimmed_strip _ Ht).
  assert (N : nonempty x = true) by (destruct x; [congruence | reflexivity]).
  rewrite N. cbn [map]. now rewrite (trimmed_strip _ Ht), IH.
Qed.

Lemma unmatched_line (line : str) :
  keyword_line line = false -> first_match matchers line = None.
Proof.
  unfold keyword_line. intros H.
  assert (K : re_match re_I keyword_re line = None)
    by (destruct (re_match re_I keyword_re line); [discriminate | reflexivity]).
  assert (M : ~ (re_match re_I livre_re line <> None
                 \/ re_match re_I titre_re line <> None
                 \/ re_match re_I chapitre_re line <> None
                 \/ re_match re_I section_re line <> None
                 \/ re_match re_I article_re line <> None)).
  { intros M. apply matcher_keyword in M. congruence. }
  unfold first_match, matchers.
  destruct (re_match re_I livre_re line); [exfalso; apply M; left; congruence|].
  destruct (re_match re_I titre_re line);
    [exfalso; apply M; right; left; congruence|].
  destruct (re_match re_I chapitre_re line);
    [exfalso; apply M; right; right; left; congruence|].
  destruct (re_match re_I section_re line);
    [exfalso; apply M; right; right; right; left; congruence|].
  destruct (re_match re_I article_re line);
    [exfalso; apply M; right; right; right; right; congruence|].
  reflexivity.
Qed.

Lemma filter_all (A : Type) (f : A -> bool) (l : list A) :
  Forall (fun x => f x = true) l -> filter f l = l.
Proof. induction 1 as [|x l Hx _ IH]; simpl; [reflexivity|]. now rewrite Hx, IH. Qed.

End ArticleBody.

(** X10. An article line and the body lines after it make one chunk: on
    a chunker with no active article, an article line followed by lines
    that do not start with a keyword, then the flush, appends one chunk;
    its text is the text that follows the number on the article line (if
    any) and the body lines, joined by single spaces; its article number
    is group 1 of the article line; its heading fields are the labels of
    the chunker. *)
Theorem article_with_body {U : UnicodeDB} (line g2 : str) (m : groups)
    (body : list str) (s : chunker) (l : list pyval) :
  re_match re_I article_re line = Some m ->
  group 2 m = Some g2 ->
  Forall (fun b => keyword_line b = false /\ b <> [] /\ trimmed b = true)
    body ->
  strip g2 <> [] \/ body <> [] ->
  chunks s = VList l ->
  truthy (current_article s) = false ->
  current_article_text s = [] ->
  exists s1 s2 c meta number,
    parse_loop (line :: body) s = Some s1
    /\ _save_article_chunk s1 = Some s2
    /\ chunks s2 = VList (l ++ [c])
    /\ getitem "text" c
       = Some (VStr (join (lit " ")
                       ((if nonempty (strip g2) then [strip g2] else [])
                        ++ body)))
    /\ group 1 m = Some number
    /\ getitem "metadata" c = Some meta
    /\ getitem "article_number" meta = Some (VStr number)
    /\ forall lv,
         getitem (level_key lv) meta = Some (of_opt (level_label lv s)).
Proof.
  intros Hm Hg Hbody Hne Hl Ha Ht.
  destruct (article_group1 _ Hm) as [number Hn].
  assert (Hf : _save_article_chunk s = Some s)
    by (unfold _save_article_chunk; now rewrite Ha).
  assert (Hs : step line (hd_error body) s
               = Some (article_update (group 1 m) (strip g2) s, false)).
  { rewrite (step_article _ _ s Hm). unfold on_article. rewrite Hf, Hg.
    unfold article_update. destruct (nonempty (strip g2)); simpl;
      [reflexivity | now rewrite app_nil_r]. }
  assert (Hu : Forall (fun b => first_match matchers b = None) body).
  { eapply Forall_impl; [|exact Hbody]. intros b [Hk _].
    now apply unmatched_line. }
  assert (Hk : filter (fun b => negb (keyword_line b)) body = body).
  { apply filter_all. eapply Forall_impl; [|exact Hbody].
    intros b [-> _]. reflexivity. }
  set (lines := (if nonempty (strip g2) then [strip g2] else []) ++ body).
  set (s1 := mkChunker (VList l) (current_livre s) (current_titre s)
               (current_chapitre s) (current_section s)
               (Some (lit "Article " ++ number)) (Some number) lines).
  assert (H1 : parse_loop (line :: body) s = Some s1).
  { rewrite (@parse_loop_cons U line body s _ Hs), (@body_loop U body _ Hu), Hk.
    unfold article_update. rewrite Hn, Ht, Hl. reflexivity. }
  assert (Hlines : Forall (fun b => b <> [] /\ trimmed b = true) lines).
  { apply Forall_app. split.
    - destruct (strip g2) eqn:E; simpl; constructor; [|constructor].
      split; [discriminate|]. rewrite <- E. apply strip_trimmed.
    - eapply Forall_impl; [|exact Hbody]. now intros b [_ Hb]. }
  assert (Hx : Exists (fun b => strip b <> []) lines).
  { assert (N : lines <> []).
    { unfold lines. destruct Hne as [Hne|Hne].
      - destruct (strip g2); [congruence | discriminate].
      - intros E. apply app_eq_nil in E as [_ E]. congruence. }
    destruct lines as [|b lines']; [congruence|]. left.
    inversion Hlines as [|? ? [Hb1 Hb2] _]; subst.
    now rewrite (trimmed_strip _ Hb2). }
  assert (Hr : ready s1) by (split; [now exists l | discriminate]).
  destruct (@flush_active U s1 l Hr eq_refl eq_refl Hx) as (c & Hc & Hf1).
  pose proof Hc as Hc'.
  apply create_chunk_text in Hc' as [Htext _];
    [|simpl; rewrite (cleaned_fix Hlines); destruct lines; [|reflexivity];
      inversion Hx].
  apply create_chunk_fields in Hc
    as (number' & a & meta & En & _ & _ & _ & Em & Hlv & _ & Hnum & _).
  simpl in En. injection En as <-.
  simpl in Htext. rewrite (cleaned_fix Hlines) in Htext.
  eexists s1, _, c, meta, number.
  split; [exact H1|]. split; [exact Hf1|]. split; [reflexivity|].
  split; [exact Htext|]. split; [exact Hn|]. split; [exact Em|].
  split; [exact Hnum|].
  intros lv. rewrite Hlv. now destruct lv.
Qed.

(** ** Counting the chunks *)

Section CountFacts.
Context {U : UnicodeDB}.

Lemma flush_count (s s' : chunker) (l : list pyval) :
  chunks s = VList l -> _save_article_chunk s = Some s' ->
  exists l', chunks s' = VList l'
             /\ (length l' <= length l + active s)%nat.
Proof.
  intros Hl H. apply flush_cases in H as [->|(c & l0 & Ha & _ & _ & Hl0 & ->)].
  - exists l. split; [assumption | lia].
  - rewrite Hl in Hl0. injection Hl0 as <-. exists (l ++ [c]).
    split; [reflexivity|]. unfold active. rewrite Ha, length_app. simpl. lia.
Qed.

Lemma step_count (line : str) (next : option str) (s s' : chunker) (b : bool)
    (l : list pyval) :
  chunks s = VList l -> step line next s = Some (s', b) ->
  exists l', chunks s' = VList l'
    /\ (length l' + active s'
        <= length l + active s + (if article_line line then 1 else 0))%nat.
Proof.
  intros Hl H.
  destruct (step_cases _ _ _ H)
    as [(lv & m & s1 & g2 & title & _ & Hf & _ & _ & ->)
       |[(m & s1 & g2 & Hm & Hf & _ & -> & _)|(_ & -> & _)]].
  - destruct (@flush_count s s1 l Hl Hf) as (l' & E & Hle). exists l'.
    split; [now destruct lv|].
    assert (A : active (heading_update lv
                          (label (level_keyword lv) (group 1 m) title) s1)
                = 0%nat) by now destruct lv.
    rewrite A. lia.
  - destruct (@flush_count s s1 l Hl Hf) as (l' & E & Hle). exists l'.
    split; [assumption|]. unfold article_line. rewrite Hm. simpl.
    unfold active at 1. simpl. lia.
  - exists l. unfold body_update.
    destruct (truthy (current_article s) && negb (keyword_line line));
      (split; [assumption|]); unfold active; simpl; lia.
Qed.

Lemma loop_count : forall n lines, (length lines <= n)%nat ->
  forall s s' l, chunks s = VList l -> parse_loop lines s = Some s' ->
  exists l', chunks s' = VList l'
    /\ (length l' + active s'
        <= length l + active s + length (filter article_line lines))%nat.
Proof.
  induction n as [|n IH]; intros [|line rest] Hlen s s' l Hl; simpl in *;
    try lia; try (intros [= <-]; exists l; split; [assumption | lia]).
  destruct (step line (hd_error rest) s) as [[s1 b]|] eqn:Es; [|discriminate].
  destruct (@step_count line (hd_error rest) s s1 b l Hl Es)
    as (l1 & Hl1 & Hle1).
  intros H.
  assert (X : exists l', chunks s' = VList l'
              /\ (length l' + active s'
                  <= length l1 + active s1
                     + length (filter article_line rest))%nat).
  { destruct rest as [|x rest']; [|destruct b].
    - apply (IH [] ltac:(simpl; lia) s1 s' l1 Hl1 H).
    - destruct (IH rest' ltac:(simpl in *; lia) s1 s' l1 Hl1 H)
        as (l' & E & Hle).
      exists l'. split; [assumption|]. simpl.
      destruct (article_line x); simpl; lia.
    - apply (IH (x :: rest') ltac:(simpl in *; lia) s1 s' l1 Hl1 H). }
  destruct X as (l' & E & Hle). exists l'. split; [assumption|].
  destruct (article_line line); simpl; lia.
Qed.

End CountFacts.

(** X11. One article, one chunk at most: a call of [parse_text] adds no
    more chunks than the text has lines accepted by the article pattern,
    and one more when an article was still active before the call. *)
Theorem chunk_count {U : UnicodeDB} (text : str) (s s' : chunker)
    (out : pyval) (l : list pyval) :
  chunks s = VList l ->
  parse_text text s = Some (s', out) ->
  exists new,
    out = VList (l ++ new)
    /\ (length new
        <= active s + length (filter article_line (normalize text)))%nat.
Proof.
  intros Hl H.
  assert (T : forall (t : chunker) (c : pyval),
             _create_chunk t = Some c -> (fun _ : pyval => True) c)
    by trivial.
  destruct (@parse_text_extends U (fun _ => True) T text s s' out H)
    as [-> He].
  destruct (He l Hl) as (new & E & _). exists new. split; [assumption|].
  unfold parse_text in H.
  destruct (parse_loop (normalize text) s) as [s1|] eqn:E1; [|discriminate].
  destruct (_save_article_chunk s1) as [s2|] eqn:E2; [|discriminate].
  destruct (py_len (chunks s2)); [|discriminate].
  injection H as <-.
  destruct (@loop_count U _ (normalize text) (le_n _) s s1 l Hl E1)
    as (l1 & Hl1 & Hle1).
  destruct (@flush_count U s1 s2 l1 Hl1 E2) as (l2 & Hl2 & Hle2).
  rewrite Hl2 in E. injection E as ->. rewrite length_app in Hle2. lia.
Qed.

(** ** Sequences of calls *)

(** X12. No sequence of calls of [parse_text] and [process_pdf] on a
    chunker raises, as long as the extraction of every PDF succeeds: the
    chunk list stays a list, and an active article always has its
    number. *)
Theorem calls_never_raise {U : UnicodeDB} (extract : str -> option str)
    (calls : list call) (s : chunker) :
  ready s -> extractable extract calls ->
  exists s' l, run_calls extract calls s = Some s' /\ chunks s' = VList l.
Proof.
  revert s. induction calls as [|c calls IH]; intros s Hr He.
  - destruct Hr as [[l Hl] _]. exists s, l. now split.
  - destruct c as [text|pdf_path]; simpl in *.
    + destruct (parse_text_ready text Hr) as (s1 & l1 & -> & Hr1). now apply IH.
    + destruct He as [Hx He]. rewrite process_pdf_fresh.
      destruct (extract pdf_path) as [text|]; [|congruence].
      destruct (parse_text_ready text ready_init) as (s1 & l1 & -> & Hr1).
      now apply IH.
Qed.

(** ** The article fields *)

Section LabelFacts.
Context {U : UnicodeDB}.

Lemma join_last (sep a : str) (ps : list str) :
  exists path,
    join sep (ps ++ [a]) = path ++ a
    /\ (path = [] \/ exists path', path = path' ++ sep).
Proof.
  induction ps as [|p ps (path & E & Hp)].
  - exists []. split; [reflexivity | now left].
  - simpl app. rewrite join_cons by (destruct ps; discriminate).
    rewrite E. exists (p ++ sep ++ path). split.
    + now rewrite <- !app_assoc.
    + right. destruct Hp as [->|[path' ->]].
      * exists p. now rewrite app_nil_r.
      * exists (p ++ sep ++ path'). now rewrite <- !app_assoc.
Qed.

Lemma labelled_step (line : str) (next : option str) (s s' : chunker) (b : bool) :
  labelled s -> step line next s = Some (s', b) -> labelled s'.
Proof.
  intros Hi H.
  destruct (step_cases _ _ _ H)
    as [(lv & m & s1 & g2 & title & _ & Hf & _ & _ & ->)
       |[(m & s1 & g2 & Hm & Hf & _ & -> & _)|(_ & -> & _)]].
  - intros a Ha. destruct lv; discriminate.
  - intros a Ha. simpl in Ha. injection Ha as <-.
    destruct (article_group1 _ Hm) as [number Hn].
    exists number. simpl. now rewrite Hn.
  - unfold body_update. now destruct (_ && _).
Qed.

Lemma labelled_flush (s s' : chunker) :
  labelled s -> _save_article_chunk s = Some s' -> labelled s'.
Proof.
  intros Hi H. destruct (flush_frame _ H) as (_ & _ & _ & _ & Ea & En).
  intros a Ha. rewrite Ea in Ha. destruct (Hi a Ha) as (number & E & ->).
  exists number. now rewrite En.
Qed.

Lemma labelled_created (s : chunker) (c : pyval) :
  labelled s ->
  _create_chunk
    (set_current_article_text (cleaned_lines (current_article_text s)) s)
  = Some c ->
  article_fields c.
Proof.
  intros Hi Hc.
  apply create_chunk_fields in Hc
    as (number & a & meta & En & Ea & _ & _ & Em & _ & Hart & Hnum & _ & Hcit
        & Hpath).
  simpl in En, Ea. destruct (Hi a Ea) as (number' & En' & ->).
  rewrite En in En'. injection En' as <-.
  rewrite app_assoc, app_assoc, app_assoc in Hpath.
  destruct (join_last (lit " > ") (lit "Article " ++ number)
              (((hierarchy_part "Livre"
                   (current_livre
                      (set_current_article_text
                         (cleaned_lines (current_article_text s)) s))
                 ++ hierarchy_part "Titre"
                      (current_titre
                         (set_current_article_text
                            (cleaned_lines (current_article_text s)) s)))
                ++ hierarchy_part "Chapitre"
                     (current_chapitre
                        (set_current_article_text
                           (cleaned_lines (current_article_text s)) s)))
               ++ hierarchy_part "Section"
                    (current_section
                       (set_current_article_text
                          (cleaned_lines (current_article_text s)) s))))
    as (path & E & Hp).
  rewrite E in Hpath. exists meta, number, path.
  repeat (split; [assumption|]). assumption.
Qed.

End LabelFacts.

(** X13. On a chunker whose article label is the word Article and its
    article number (as it is on a fresh chunker, and after every parse of
    one), every chunk that [parse_text] adds has the article label
    "Article N" for its article number N, the citation "Code du travail
    tunisien, art. N", and a hierarchy path that ends with the article
    label, after the separator when a heading comes before it. *)
Theorem emitted_article_fields {U : UnicodeDB} (text : str) (s s' : chunker)
    (out : pyval) (l : list pyval) :
  labelled s ->
  chunks s = VList l ->
  parse_text text s = Some (s', out) ->
  labelled s'
  /\ exists new, out = VList (l ++ new) /\ Forall article_fields new.
Proof.
  intros Hi Hl H.
  apply (@traced_parse_text U (fun _ => True) labelled article_fields) in H.
  - destruct H as (Hi' & -> & H). split; [assumption|]. exact (H l Hl).
  - intros line next t t' b _ _. apply labelled_step.
  - apply labelled_flush.
  - intros t c Ht _. now apply labelled_created.
  - apply Forall_forall. trivial.
  - assumption.
Qed.

(** ** The statistics *)

Lemma py_eqb_eq (a b : pyval) : py_eqb a b = true -> a = b.
Proof.
  destruct a, b; simpl; try discriminate; intros H.
  - reflexivity.
  - now apply Bool.eqb_prop in H as ->.
  - now apply str_eqb_eq in H as ->.
Qed.

Lemma set_add_spec (v : pyval) (st st' : list pyval) :
  set_add v st = Some st' -> NoDup st ->
  NoDup st' /\ (forall x, In x st' <-> In x st \/ x = v)
  /\ (length st' <= S (length st))%nat.
Proof.
  intros H Hnd.
  assert (R : py_eqb v v = true).
  { destruct v; simpl in *; try discriminate; try reflexivity.
    - apply Bool.eqb_reflx.
    - apply str_eqb_refl. }
  assert (X : (if existsb (py_eqb v) st then Some st else Some (st ++ [v]))
              = Some st') by (destruct v; try discriminate; exact H).
  clear H. destruct (existsb (py_eqb v) st) eqn:E; injection X as <-.
  - apply existsb_exists in E as (y & Hy & Ey). apply py_eqb_eq in Ey as <-.
    split; [assumption|]. split; [|lia].
    intros x. split; [tauto|]. intros [?| ->]; assumption.
  - assert (Hnot : ~ In v st).
    { intros Hin. rewrite <- not_true_iff_false in E. apply E.
      apply existsb_exists. eauto. }
    split; [|split].
    + apply NoDup_app; repeat split; try assumption.
      * constructor; [tauto | constructor].
      * intros x Hx [<-|[]]. contradiction.
    + intros x. rewrite in_app_iff. simpl. intuition congruence.
    + rewrite length_app. simpl. lia.
Qed.

Lemma add_label_spec (key : string) (meta : pyval) (st st' : list pyval) :
  add_label key meta st = Some st' -> NoDup st ->
  exists v,
    getitem key meta = Some v /\ NoDup st'
    /\ (forall x, In x st' <-> In x st \/ (x = v /\ py_truthy v = true))
    /\ (length st' <= S (length st))%nat.
Proof.
  unfold add_label. destruct (getitem key meta) as [v|]; [|discriminate].
  intros H Hnd. exists v. split; [reflexivity|].
  destruct (py_truthy v) eqn:Et.
  - destruct (@set_add_spec v st st' H Hnd) as (H1 & H2 & H3).
    split; [assumption|]. split; [|assumption].
    intros x. rewrite H2. tauto.
  - injection H as <-. split; [assumption|]. split; [|lia].
    intros x. split; [tauto|]. intros [?|[_ ?]]; [assumption|discriminate].
Qed.

Lemma count_chunk_spec (c : pyval) (st st' : stats) :
  count_chunk c st = Some st' ->
  (forall lv, NoDup (level_set lv st)) ->
  total_chunks st' = total_chunks st
  /\ total_articles st' = total_articles st
  /\ sub_articles st' = ((if flagged_sub c then 1 else 0) + sub_articles st)%nat
  /\ base_articles st'
     = ((if flagged_sub c then 0 else 1) + base_articles st)%nat
  /\ exists meta,
       getitem "metadata" c = Some meta
       /\ forall lv, exists v,
            getitem (level_key lv) meta = Some v
            /\ NoDup (level_set lv st')
            /\ (forall x, In x (level_set lv st')
                          <-> In x (level_set lv st)
                              \/ (x = v /\ py_truthy v = true))
            /\ (length (level_set lv st') <= S (length (level_set lv st)))%nat.
Proof.
  unfold count_chunk, flagged_sub. intros H Hnd.
  destruct (getitem "metadata" c) as [meta|]; [|discriminate].
  destruct (getitem "is_sub_article" meta) as [sub|]; [|discriminate].
  destruct (add_label "livre" meta (livres st)) as [li|] eqn:E1;
    [|destruct (py_truthy sub); discriminate].
  destruct (add_label "titre" meta (titres st)) as [ti|] eqn:E2;
    [|destruct (py_truthy sub); discriminate].
  destruct (add_label "chapitre" meta (chapitres st)) as [ch|] eqn:E3;
    [|destruct (py_truthy sub); discriminate].
  destruct (add_label "section" meta (sections st)) as [se|] eqn:E4;
    [|destruct (py_truthy sub); discriminate].
  assert (X : forall lv, exists v,
            getitem (level_key lv) meta = Some v
            /\ NoDup (level_set lv (mkStats 0 0 0 0 li ti ch se))
            /\ (forall x, In x (level_set lv (mkStats 0 0 0 0 li ti ch se))
                          <-> In x (level_set lv st)
                              \/ (x = v /\ py_truthy v = true))
            /\ (length (level_set lv (mkStats 0 0 0 0 li ti ch se))
                <= S (length (level_set lv st)))%nat).
  { intros lv. specialize (Hnd lv). destruct lv; simpl in *.
    - exact (@add_label_spec "livre" meta (livres st) li E1 Hnd).
    - exact (@add_label_spec "titre" meta (titres st) ti E2 Hnd).
    - exact (@add_label_spec "chapitre" meta (chapitres st) ch E3 Hnd).
    - exact (@add_label_spec "section" meta (sections st) se E4 Hnd). }
  destruct (py_truthy sub); injection H as <-; simpl;
    repeat (split; [reflexivity|]); exists meta; (split; [reflexivity|]);
    intros lv; destruct (X lv) as (v & Hv); exists v; destruct lv; exact Hv.
Qed.

Lemma label_among_cons (key : string) (c : pyval) (items : list pyval)
    (meta v x : pyval) :
  getitem "metadata" c = Some meta -> getitem key meta = Some v ->
  (label_among key (c :: items) x <-> x = v \/ label_among key items x).
Proof.
  intros Hm Hv. unfold label_among. split.
  - intros (c' & meta' & [<-|Hin] & Hm' & Hx).
    + left. congruence.
    + right. eauto.
  - intros [->|(c' & meta' & Hin & Hm' & Hx)].
    + exists c, meta. simpl. auto.
    + exists c', meta'. simpl. auto.
Qed.

Lemma count_chunks_spec (items : list pyval) : forall st st',
  count_chunks items st = Some st' ->
  (forall lv, NoDup (level_set lv st)) ->
  total_chunks st' = total_chunks st
  /\ total_articles st' = total_articles st
  /\ sub_articles st'
     = (length (filter flagged_sub items) + sub_articles st)%nat
  /\ base_articles st'
     = (length (filter (fun c => negb (flagged_sub c)) items)
        + base_articles st)%nat
  /\ forall lv,
       NoDup (level_set lv st')
       /\ (forall x, In x (level_set lv st')
                     <-> In x (level_set lv st)
                         \/ (py_truthy x = true
                             /\ label_among (level_key lv) items x))
       /\ (length (level_set lv st')
           <= length items + length (level_set lv st))%nat.
Proof.
  induction items as [|c items IH]; intros st st'; simpl.
  - intros [= <-] Hnd. repeat (split; [reflexivity|]). intros lv.
    split; [apply Hnd|]. split; [|lia].
    intros x. split; [tauto|].
    intros [?|[_ (c & meta & [] & _)]]. assumption.
  - destruct (count_chunk c st) as [st1|] eqn:E; [|discriminate].
    intros H Hnd.
    destruct (@count_chunk_spec c st st1 E Hnd)
      as (T1 & T2 & S1 & B1 & meta & Hm & Hlv).
    assert (Hnd1 : forall lv, NoDup (level_set lv st1)).
    { intros lv. destruct (Hlv lv) as (v & _ & N & _). exact N. }
    destruct (IH _ _ H Hnd1) as (T1' & T2' & S1' & B1' & Hlv').
    split; [congruence|]. split; [congruence|].
    split; [rewrite S1', S1; destruct (flagged_sub c); simpl; lia|].
    split; [rewrite B1', B1; destruct (flagged_sub c); simpl; lia|].
    intros lv. destruct (Hlv lv) as (v & Hv & _ & I1 & L1).
    destruct (Hlv' lv) as (N' & I' & L'). split; [assumption|].
    split; [|lia]. intros x.
    rewrite I', I1, (@label_among_cons (level_key lv) c items meta v x Hm Hv).
    split.
    + intros [[?|[-> ?]]|[? ?]]; auto.
    + intros [?|[Ht [->|?]]]; auto.
Qed.

(** X14. What [get_statistics] counts, when it returns, on a chunk list:
    both totals are the number of chunks; [sub_articles] is the number of
    chunks whose [is_sub_article] is true, [base_articles] the number of
    the others, so the two add up to the total; and for each heading
    level the count is the number of distinct values of the label of that
    level among the chunks, [None] and the empty string left out. *)
Theorem statistics_counts (s : chunker) (l : list pyval)
    (d : list (str * nat)) :
  chunks s = VList l ->
  get_statistics s = Some d ->
  count_of (lit "total_chunks") d = Some (length l)
  /\ count_of (lit "total_articles") d = Some (length l)
  /\ count_of (lit "sub_articles") d = Some (length (filter flagged_sub l))
  /\ count_of (lit "base_articles") d
     = Some (length l - length (filter flagged_sub l))%nat
  /\ forall lv, exists set,
       count_of (lit (level_count lv)) d = Some (length set)
       /\ NoDup set
       /\ (length set <= length l)%nat
       /\ forall v, In v set
                    <-> py_truthy v = true /\ label_among (level_key lv) l v.
Proof.
  intros Hl. unfold get_statistics. rewrite Hl. simpl.
  destruct (count_chunks l _) as [st|] eqn:E; [|discriminate].
  intros [= <-].
  apply count_chunks_spec in E; [|intros lv; destruct lv; constructor].
  destruct E as (T1 & T2 & S1 & B1 & Hlv). simpl in T1, T2, S1, B1.
  split; [cbn; now rewrite T1|]. split; [cbn; now rewrite T2|].
  split; [cbn; rewrite S1; f_equal; lia|].
  split.
  { cbn. rewrite B1. f_equal.
    assert (X : forall (f : pyval -> bool) (l : list pyval),
               (length (filter f l)
                + length (filter (fun c => negb (f c)) l) = length l)%nat).
    { intros f l0. induction l0 as [|x l0 IH]; simpl; [reflexivity|].
      destruct (f x); simpl; lia. }
    specialize (X flagged_sub l). lia. }
  intros lv. destruct (Hlv lv) as (N & I & L).
  exists (level_set lv st). split; [destruct lv; reflexivity|].
  split; [assumption|]. split; [destruct lv; simpl in *; lia|].
  intros v. rewrite I. destruct lv; simpl; tauto.
Qed.

Section CountableFacts.
Context {U : UnicodeDB}.

Lemma create_chunk_countable (t : chunker) (c : pyval) :
  _create_chunk t = Some c -> countable c.
Proof.
  intros H. apply create_chunk_fields in H
    as (number & a & meta & _ & _ & _ & _ & Em & Hlv & _ & Hn & Hs & _).
  exists meta, number. repeat (split; [assumption|]).
  intros lv. eauto.
Qed.

End CountableFacts.

Lemma countable_flagged (c : pyval) : countable c -> flagged_sub c = sub_chunk c.
Proof.
  intros (meta & number & Em & En & Es & _). unfold flagged_sub, sub_chunk.
  now rewrite Em, En, Es.
Qed.

Lemma count_chunks_total (items : list pyval) :
  Forall countable items -> forall st, count_chunks items st <> None.
Proof.
  induction 1 as [|c items (meta & number & Em & En & Es & Hlv) _ IH];
    intros st; simpl; [discriminate|].
  assert (A : forall lv set, add_label (level_key lv) meta set <> None).
  { intros lv set. unfold add_label. destruct (Hlv lv) as [o ->].
    destruct o as [x|]; simpl; [|discriminate].
    destruct (nonempty x); [|discriminate]. simpl.
    destruct (existsb _ set); discriminate. }
  unfold count_chunk. rewrite Em, Es.
  pose proof (A Livre (livres st)) as A1. simpl in A1.
  pose proof (A Titre (titres st)) as A2. simpl in A2.
  pose proof (A Chapitre (chapitres st)) as A3. simpl in A3.
  pose proof (A Section (sections st)) as A4. simpl in A4.
  destruct (add_label "livre" meta (livres st)); [|congruence].
  destruct (add_label "titre" meta (titres st)); [|congruence].
  destruct (add_label "chapitre" meta (chapitres st)); [|congruence].
  destruct (add_label "section" meta (sections st)); [|congruence].
  destruct (py_truthy _); apply IH.
Qed.

(** X15. [get_statistics] does not raise on the chunks that [parse_text]
    makes, and there [sub_articles] is the number of chunks whose article
    number has a hyphen and [base_articles] the number of the others. *)
Theorem statistics_after_parse {U : UnicodeDB} (text : str) (s s' : chunker)
    (out : pyval) (l : list pyval) :
  chunks s = VList l ->
  Forall countable l ->
  parse_text text s = Some (s', out) ->
  exists all d,
    out = VList all
    /\ get_statistics s' = Some d
    /\ count_of (lit "total_chunks") d = Some (length all)
    /\ count_of (lit "sub_articles") d = Some (length (filter sub_chunk all))
    /\ count_of (lit "base_articles") d
       = Some (length (filter (fun c => negb (sub_chunk c)) all)).
Proof.
  intros Hl Hc H.
  destruct (@parse_text_extends U countable (@create_chunk_countable U)
              text s s' out H) as [-> He].
  destruct (He l Hl) as (new & E & Hnew).
  assert (Hall : Forall countable (l ++ new)) by now apply Forall_app.
  exists (l ++ new). unfold get_statistics. rewrite E. simpl.
  pose proof (@count_chunks_total (l ++ new) Hall
                (mkStats (length (l ++ new)) (length (l ++ new)) 0 0
                   [] [] [] [])) as T.
  destruct (count_chunks (l ++ new) _) as [st|] eqn:Ec; [|congruence].
  apply count_chunks_spec in Ec; [|intros lv; destruct lv; constructor].
  destruct Ec as (T1 & _ & S1 & B1 & _). simpl in T1, S1, B1.
  assert (F1 : filter flagged_sub (l ++ new) = filter sub_chunk (l ++ new)).
  { apply filter_ext_in. intros c Hin. apply countable_flagged.
    rewrite Forall_forall in Hall. now apply Hall. }
  assert (F2 : filter (fun c => negb (flagged_sub c)) (l ++ new)
               = filter (fun c => negb (sub_chunk c)) (l ++ new)).
  { apply filter_ext_in. intros c Hin. f_equal. apply countable_flagged.
    rewrite Forall_forall in Hall. now apply Hall. }
  eexists. split; [reflexivity|]. split; [reflexivity|].
  split; [cbn; now rewrite T1|].
  split; [cbn; rewrite S1, F1; f_equal; lia|].
  cbn. rewrite B1, F2. f_equal. lia.
Qed.

(** ** The characters of the chunks *)

Section CharFacts.
Context {U : UnicodeDB}.
Variable Q : char -> bool.
Hypothesis Q_printable : forall c, printable c = true -> Q c = true.

Lemma lit_all (s : str) : forallb printable s = true -> forallb Q s = true.
Proof. apply forallb_impl, Q_printable. Qed.

Lemma firstn_chars (n : nat) (s : str) :
  forallb Q s = true -> forallb Q (firstn n s) = true.
Proof.
  revert n. induction s as [|c s IH]; intros [|n]; simpl; try reflexivity.
  rewrite andb_true_iff. intros [Hc Hs]. rewrite Hc. now apply IH.
Qed.

Lemma eat_lit_all (ic : bool) (l : str) : forall s s',
  eat_lit ic l s = Some s' -> forallb Q s = true -> forallb Q s' = true.
Proof.
  induction l as [|x l IH]; intros s s'; simpl.
  - now intros [= <-].
  - destruct s as [|c s]; [discriminate|].
    destruct (chr_match ic x c); [|discriminate].
    intros H. simpl. rewrite andb_true_iff. intros [_ Hs]. eauto.
Qed.

Lemma rep_all (R : Type) (p : char -> bool) (s : str)
    (k : str -> option R) (x : R) :
  rep p s k = Some x -> forallb Q s = true ->
  exists s', k s' = Some x /\ forallb Q s' = true.
Proof.
  induction s as [|c s IH]; simpl; [eauto|].
  rewrite andb_true_iff. intros H [Hc Hs].
  assert (Hcs : forallb Q (c :: s) = true) by (simpl; now rewrite Hc).
  destruct (p c); [|eauto].
  destruct (rep p s k) eqn:E; [|eauto].
  injection H as ->. auto.
Qed.

Lemma run_all (R : Type) (ic : bool) (total : nat) (r : regex) :
  forall s g (k : str -> groups -> option R) x,
  run ic total r s g k = Some x ->
  forallb Q s = true -> groups_all Q g = true ->
  exists s' g', k s' g' = Some x
                /\ forallb Q s' = true /\ groups_all Q g' = true.
Proof.
  induction r as [l|a|a|a|r1 IH1 r2 IH2|r1 IH1 r2 IH2|r1 IH1|m r1 IH1| |];
    intros s g k x; simpl.
  - destruct (eat_lit ic l s) as [s1|] eqn:E; [|discriminate].
    intros H Hs Hg. exists s1, g. split; [assumption|].
    split; [eapply eat_lit_all; eassumption | assumption].
  - destruct s as [|c s]; [discriminate|].
    destruct (atom_match ic a c); [|discriminate]. intros H Hs Hg.
    simpl in Hs. apply andb_true_iff in Hs as [_ Hs]. eauto.
  - intros H Hs Hg. apply rep_all in H as (s' & H & Hs'); eauto.
  - destruct s as [|c s]; [discriminate|].
    destruct (atom_match ic a c); [|discriminate]. intros H Hs Hg.
    simpl in Hs. apply andb_true_iff in Hs as [_ Hs].
    apply rep_all in H as (s' & H & Hs'); eauto.
  - intros H Hs Hg. apply IH1 in H as (s1 & g1 & H & Hs1 & Hg1); try assumption.
    apply IH2 in H; assumption.
  - destruct (run ic total r1 s g k) eqn:E.
    + intros [= ->] Hs Hg. apply IH1 in E; assumption.
    + intros H Hs Hg. apply IH2 in H; assumption.
  - destruct (run ic total r1 s g k) eqn:E.
    + intros [= ->] Hs Hg. apply IH1 in E; assumption.
    + intros H Hs Hg. eauto.
  - intros H Hs Hg. apply IH1 in H as (s1 & g1 & H & Hs1 & Hg1); try assumption.
    eexists s1, _. split; [exact H|]. split; [assumption|].
    unfold groups_all. simpl. rewrite (firstn_chars _ _ Hs). exact Hg1.
  - destruct (Nat.eqb (length s) total); [|discriminate]. intros H Hs Hg. eauto.
  - intros H Hs Hg. exists s, g. split; [|now split].
    destruct s as [|c [|d s]]; try discriminate; [assumption|].
    destruct (c =? 10); [assumption|discriminate].
Qed.

Lemma group_all (n : nat) (g : groups) :
  groups_all Q g = true -> opt_all Q (group n g) = true.
Proof.
  induction g as [|[m x] g IH]; simpl; [reflexivity|].
  rewrite andb_true_iff. intros [Hx Hg].
  destruct (Nat.eqb m n); [exact Hx | auto].
Qed.

Lemma re_match_all (r : regex) (s : str) (m : groups) (n : nat) :
  re_match re_I r s = Some m -> forallb Q s = true ->
  opt_all Q (group n m) = true.
Proof.
  unfold re_match. intros H Hs.
  apply run_all in H as (s' & g' & [= ->] & _ & Hg); try assumption;
    [|reflexivity].
  now apply group_all.
Qed.

Lemma search_from_all (total : nat) (r : regex) (s : str) (m : groups)
    (n : nat) :
  search_from re_I total r s = Some m -> forallb Q s = true ->
  opt_all Q (group n m) = true.
Proof.
  induction s as [|c s IH]; simpl.
  - destruct (run re_I total r [] [] _) as [g|] eqn:E; [|discriminate].
    intros [= ->] _.
    apply run_all in E as (s' & g' & [= ->] & _ & Hg); try reflexivity.
    now apply group_all.
  - destruct (run re_I total r (c :: s) [] _) as [g|] eqn:E.
    + intros [= ->] Hs.
      apply run_all in E as (s' & g' & [= ->] & _ & Hg);
        try assumption; [|reflexivity].
      now apply group_all.
    + rewrite andb_true_iff. intros H [_ Hs]. auto.
Qed.

Lemma fmt_all (o : option str) : opt_all Q o = true -> forallb Q (fmt o) = true.
Proof. destruct o; [trivial|]. intros _. now apply lit_all. Qed.

Lemma join_all (sep : str) (parts : list str) :
  forallb Q sep = true -> forallb (forallb Q) parts = true ->
  forallb Q (join sep parts) = true.
Proof.
  intros Hsep. induction parts as [|p ps IH]; simpl; [reflexivity|].
  rewrite andb_true_iff. intros [Hp Hps].
  destruct ps as [|q ps]; [assumption|].
  rewrite !forallb_app, Hp, Hsep. simpl. apply IH, Hps.
Qed.

Lemma replace_all (a b : char) (s : str) :
  Q b = true -> forallb Q s = true -> forallb Q (replace a b s) = true.
Proof.
  intros Hb. unfold replace. induction s as [|c s IH]; simpl; [reflexivity|].
  rewrite andb_true_iff. intros [Hc Hs]. rewrite (IH Hs), andb_true_r.
  now destruct (c =? a).
Qed.

Lemma before_first_all (a : char) (s : str) :
  forallb Q s = true -> forallb Q (before_first a s) = true.
Proof.
  induction s as [|c s IH]; simpl; [reflexivity|].
  rewrite andb_true_iff. intros [Hc Hs].
  destruct (c =? a); [reflexivity|]. simpl. now rewrite Hc, IH.
Qed.

Lemma label_all (keyword : string) (num : option str) (title : str) :
  forallb printable (lit keyword) = true ->
  opt_all Q num = true -> forallb Q title = true ->
  forallb Q (label keyword num title) = true.
Proof.
  intros Hk Hn Ht. unfold label.
  rewrite !forallb_app, (lit_all _ Hk), (lit_all (lit " ") eq_refl),
    (fmt_all _ Hn).
  simpl andb. destruct (nonempty title); cbv iota; [|reflexivity].
  change (forallb Q (lit ". " ++ title) = true).
  now rewrite forallb_app, Ht, (lit_all (lit ". ") eq_refl).
Qed.

Lemma hierarchy_part_all (keyword : string) (current : option str) :
  forallb printable (lit keyword) = true ->
  opt_all Q current = true ->
  forallb (forallb Q) (hierarchy_part keyword current) = true.
Proof.
  intros Hk Hc. unfold hierarchy_part.
  destruct (truthy current); [|reflexivity].
  destruct (re_search re_I (level_re keyword) (fmt current)) as [m|] eqn:E;
    [|reflexivity].
  cbn [forallb]. rewrite andb_true_r, !forallb_app, (lit_all _ Hk),
    (lit_all (lit " ") eq_refl).
  simpl andb. apply fmt_all. unfold re_search in E.
  eapply search_from_all; [exact E|]. now apply fmt_all.
Qed.

Lemma state_chars_iff (s : chunker) :
  state_chars Q s = true <->
  chars_ok Q (chunks s) = true
  /\ opt_all Q (current_livre s) = true /\ opt_all Q (current_titre s) = true
  /\ opt_all Q (current_chapitre s) = true
  /\ opt_all Q (current_section s) = true
  /\ opt_all Q (current_article s) = true
  /\ opt_all Q (current_article_number s) = true
  /\ forallb (forallb Q) (current_article_text s) = true.
Proof. unfold state_chars. rewrite !andb_true_iff. tauto. Qed.

Lemma cleaned_chars (lines : list str) :
  forallb (forallb Q) lines = true ->
  forallb (forallb Q) (cleaned_lines lines) = true.
Proof.
  unfold cleaned_lines. induction lines as [|x lines IH]; simpl;
    [reflexivity|].
  rewrite andb_true_iff. intros [Hx Hl].
  destruct (nonempty (strip x)); simpl; [|auto].
  now rewrite (strip_all _ _ Hx), IH.
Qed.

Lemma chars_ok_dict (d : list (str * pyval)) :
  Forall (fun kv => forallb Q (fst kv) = true /\ chars_ok Q (snd kv) = true) d ->
  chars_ok Q (VDict d) = true.
Proof.
  intros H. cbn [chars_ok]. apply forallb_forall.
  rewrite Forall_forall in H. intros kv Hin.
  now destruct (H kv Hin) as [-> ->].
Qed.

Lemma create_chunk_chars (t : chunker) (c : pyval) :
  state_chars Q t = true -> _create_chunk t = Some c -> chars_ok Q c = true.
Proof.
  rewrite state_chars_iff.
  intros (_ & Hli & Hti & Hch & Hse & Ha & Hn & Ht). unfold _create_chunk.
  destruct (current_article_number t) as [number|]; [|discriminate].
  destruct (current_article t) as [a|]; [|discriminate].
  simpl in Ha, Hn. intros [= <-].
  assert (P1 : forall s, forallb printable s = true -> forallb Q s = true)
    by apply lit_all.
  assert (O : forall o, opt_all Q o = true -> chars_ok Q (of_opt o) = true)
    by (intros [x|]; trivial).
  assert (Hpath : forallb Q
            (join (lit " > ")
               (hierarchy_part "Livre" (current_livre t)
                ++ hierarchy_part "Titre" (current_titre t)
                ++ hierarchy_part "Chapitre" (current_chapitre t)
                ++ hierarchy_part "Section" (current_section t)
                ++ [a])) = true).
  { apply join_all; [now apply P1|].
    rewrite !forallb_app, !hierarchy_part_all by (reflexivity || assumption).
    simpl. now rewrite Ha. }
  assert (Hbase : forallb Q (if contains 45 number
                             then hd [] (split 45 number) else number) = true).
  { destruct (contains 45 number); [|assumption].
    rewrite split_hd. now apply before_first_all. }
  assert (Htext : forallb Q (strip (join (lit " ") (current_article_text t)))
                  = true).
  { apply strip_all, join_all; [now apply P1 | assumption]. }
  assert (Hid : forallb Q (lit "CT_TN_A" ++ replace 45 95 number) = true).
  { rewrite forallb_app, P1 by reflexivity.
    apply replace_all; [now apply Q_printable | assumption]. }
  assert (Hcit : forallb Q (lit "Code du travail tunisien, art. " ++ number)
                 = true).
  { rewrite forallb_app, P1 by reflexivity. assumption. }
  apply O in Hli, Hti, Hch, Hse.
  apply chars_ok_dict.
  repeat (apply Forall_cons; [split; cbn [fst snd]|]); try apply Forall_nil;
    try (apply P1; reflexivity); try assumption.
  apply chars_ok_dict.
  repeat (apply Forall_cons; [split; cbn [fst snd]|]); try apply Forall_nil;
    try (apply P1; reflexivity); try assumption; try reflexivity.
Qed.

Ltac fields :=
  cbn [chunks current_livre current_titre current_chapitre current_section
       current_article current_article_number current_article_text
       opt_all heading_update article_update set_current_article_text].

Lemma state_chars_flush (s s' : chunker) :
  state_chars Q s = true -> _save_article_chunk s = Some s' ->
  state_chars Q s' = true.
Proof.
  intros Hi H.
  apply flush_cases in H as [->|(c & l & _ & _ & Hc & Hl & ->)]; [assumption|].
  apply create_chunk_chars in Hc.
  - apply state_chars_iff in Hi
      as (Hk & Hli & Hti & Hch & Hse & Ha & Hn & Ht).
    apply state_chars_iff. fields. rewrite Hl in Hk. cbn [chars_ok] in Hk |- *.
    rewrite forallb_app, Hk. cbn [forallb]. rewrite Hc. tauto.
  - apply state_chars_iff in Hi
      as (Hk & Hli & Hti & Hch & Hse & Ha & Hn & Ht).
    apply state_chars_iff. fields. repeat (split; [assumption|]).
    now apply cleaned_chars.
Qed.

Lemma continuation_chars (title : str) (next : option str) (t : str)
    (b : bool) :
  continuation title next = (t, b) ->
  forallb Q title = true -> opt_all Q next = true -> forallb Q t = true.
Proof.
  unfold continuation. destruct (negb (nonempty title)).
  - destruct next as [n|]; [|now intros [= <- <-]].
    destruct (re_match re_I keyword_re n); now intros [= <- <-].
  - now intros [= <- <-].
Qed.

Lemma state_chars_step (line : str) (next : option str) (s s' : chunker)
    (b : bool) :
  forallb Q line = true -> opt_all Q next = true ->
  state_chars Q s = true -> step line next s = Some (s', b) ->
  state_chars Q s' = true.
Proof.
  intros Hline Hnext Hi H.
  destruct (step_cases _ _ _ H)
    as [(lv & m & s1 & g2 & title & Hm & Hf & Hg & Hk & ->)
       |[(m & s1 & g2 & Hm & Hf & Hg & -> & _)|(_ & -> & _)]].
  - apply (state_chars_flush _ Hi) in Hf.
    apply state_chars_iff in Hf
      as (Hc & Hli & Hti & Hch & Hse & Ha & Hn & Ht).
    pose proof (@re_match_all _ _ m 1 Hm Hline) as G1.
    pose proof (@re_match_all _ _ m 2 Hm Hline) as G2.
    rewrite Hg in G2. cbn [opt_all] in G2.
    assert (Hl : forallb Q (label (level_keyword lv) (group 1 m) title)
                 = true).
    { apply label_all; [now destruct lv | assumption|].
      eapply continuation_chars; [exact Hk | now apply strip_all | assumption]. }
    apply state_chars_iff. destruct lv; fields; tauto.
  - apply (state_chars_flush _ Hi) in Hf.
    apply state_chars_iff in Hf
      as (Hc & Hli & Hti & Hch & Hse & Ha & Hn & Ht).
    pose proof (@re_match_all _ _ m 1 Hm Hline) as G1.
    pose proof (@re_match_all _ _ m 2 Hm Hline) as G2.
    rewrite Hg in G2. cbn [opt_all] in G2.
    apply state_chars_iff. fields. repeat (split; [assumption|]).
    split; [|split; [assumption|]].
    + now rewrite forallb_app, (fmt_all _ G1), (lit_all (lit "Article ") eq_refl).
    + rewrite forallb_app, Ht. destruct (nonempty (strip g2)); [|reflexivity].
      cbn [forallb andb]. now rewrite (strip_all _ _ G2).
  - unfold body_update. destruct (_ && _); [|assumption].
    apply state_chars_iff in Hi
      as (Hc & Hli & Hti & Hch & Hse & Ha & Hn & Ht).
    apply state_chars_iff. fields. repeat (split; [assumption|]).
    rewrite forallb_app, Ht. cbn [forallb andb]. now rewrite Hline.
Qed.

Lemma normalize_chars (text : str) :
  forallb Q text = true ->
  Forall (fun line => forallb Q line = true) (normalize text).
Proof.
  intros H. unfold normalize. apply (split_all Q 10) in H.
  induction H as [|w ws Hw _ IH]; simpl; [constructor|].
  destruct (nonempty (strip w)); [|assumption].
  constructor; [now apply strip_all | assumption].
Qed.

Lemma parse_text_chars (text : str) (s s' : chunker) (out : pyval) :
  forallb Q text = true -> state_chars Q s = true ->
  parse_text text s = Some (s', out) ->
  state_chars Q s' = true /\ chars_ok Q out = true.
Proof.
  intros Ht Hi H.
  apply (@traced_parse_text U (fun line => forallb Q line = true)
           (fun s => state_chars Q s = true) (fun _ => True)) in H.
  - destruct H as (Hi' & -> & _). split; [assumption|].
    now apply state_chars_iff in Hi' as [Hc _].
  - intros line next t t' b Hline Hnext. apply state_chars_step; [assumption|].
    destruct next as [n|]; [|reflexivity]. now apply Hnext.
  - apply state_chars_flush.
  - trivial.
  - now apply normalize_chars.
  - assumption.
Qed.

End CharFacts.

Lemma create_chunk_keys {U : UnicodeDB} (t : chunker) (c : pyval) :
  _create_chunk t = Some c -> keys_ok c = true.
Proof.
  unfold _create_chunk.
  destruct (current_article_number t) as [number|]; [|discriminate].
  destruct (current_article t) as [a|]; [|discriminate].
  intros [= <-].
  destruct (current_livre t), (current_titre t), (current_chapitre t),
    (current_section t); reflexivity.
Qed.

Lemma printable_encodable (c : char) : printable c = true -> encodable c = true.
Proof.
  intros Hc. unfold printable, in_range in Hc.
  apply andb_true_iff in Hc as [H1 H2]. apply N.leb_le in H1, H2.
  unfold encodable, in_unicode, is_surrogate, in_range.
  destruct (N.ltb_spec c 0x110000); [|lia].
  destruct (N.leb_spec 0xD800 c); [lia | reflexivity].
Qed.

(** The chunks of a text that UTF-8 can encode can be saved. *)
Lemma parse_text_saveable {U : UnicodeDB} (text : str) :
  forallb encodable text = true ->
  exists s' l,
    parse_text text __init__ = Some (s', VList l)
    /\ chars_ok encodable (VList l) = true
    /\ keys_ok (VList l) = true.
Proof.
  intros Ht. destruct (parse_text_ready text ready_init) as (s' & l & H & _).
  exists s', l. split; [assumption|]. split.
  - now apply (@parse_text_chars U encodable printable_encodable text
                 __init__ s' (VList l) Ht eq_refl).
  - destruct (@parse_text_extends U (fun c => keys_ok c = true)
                (@create_chunk_keys U) text __init__ s' (VList l) H)
      as [_ He].
    destruct (He [] eq_refl) as (new & E & Hnew). simpl in E.
    assert (El : chunks s' = VList l).
    { unfold parse_text in H.
      destruct (parse_loop _ _); [|discriminate].
      destruct (_save_article_chunk _); [|discriminate].
      destruct (py_len _); [|discriminate]. now injection H as <- <-. }
    rewrite El in E. injection E as ->. simpl.
    now apply forallb_forall, Forall_forall.
Qed.

Lemma parse_text_chunks {U : UnicodeDB} (text : str) (s s' : chunker)
    (out : pyval) :
  parse_text text s = Some (s', out) -> chunks s' = out.
Proof.
  unfold parse_text.
  destruct (parse_loop _ _); [|discriminate].
  destruct (_save_article_chunk _); [|discriminate].
  destruct (py_len _); [|discriminate]. now intros [= <- <-].
Qed.

(** A chunk list that can be encoded is saved and read back, and no
    other file is touched. *)
Lemma save_then_load (p : platform) (path : str) (s s0 : chunker)
    (fs : filesystem) (l : list pyval) :
  chunks s = VList l ->
  chars_ok encodable (VList l) = true -> keys_ok (VList l) = true ->
  exists fs',
    save_to_json p path s fs = Some fs'
    /\ load_from_json path s0 fs' = Some (set_chunks (VList l) s0, VList l)
    /\ forall other, str_eqb other path = false -> fs' other = fs other.
Proof.
  intros Hl He Hk.
  destruct (@text_roundtrip p path (dumps 0 (VList l)) fs
              (dumps_encodable _ 0 He) (@dumps_no_cr _ 0))
    as (fs' & W & R).
  exists fs'. unfold save_to_json, load_from_json.
  rewrite Hl, W, R, (loads_dumps _ Hk). split; [reflexivity|].
  split; [reflexivity|].
  intros other Ho. unfold write_text in W.
  destruct (utf8_encode _); [|discriminate]. injection W as <-.
  unfold write_file. now rewrite Ho.
Qed.

(** X16. The chunks of any text that UTF-8 can encode (no surrogate code
    point) go through the file unchanged: [parse_text] on a fresh chunker,
    then [save_to_json], then [load_from_json] on any chunker, on either
    platform, returns the list that [parse_text] returned. *)
Theorem parse_save_load {U : UnicodeDB} (p : platform) (path text : str)
    (s0 : chunker) (fs : filesystem) :
  forallb encodable text = true ->
  exists s' l fs',
    parse_text text __init__ = Some (s', VList l)
    /\ save_to_json p path s' fs = Some fs'
    /\ load_from_json path s0 fs' = Some (set_chunks (VList l) s0, VList l).
Proof.
  intros Ht. destruct (parse_text_saveable text Ht) as (s' & l & H & He & Hk).
  destruct (@save_then_load p path s' s0 fs l (parse_text_chunks _ _ H) He Hk)
    as (fs' & W & R & _).
  exists s', l, fs'. auto.
Qed.

(** X17. [chunk_pdf], when the extraction succeeds on a text that UTF-8
    can encode: it returns the chunks of the text parsed on a fresh
    chunker; with an output path that is not empty it writes them to that
    file, from which [load_from_json] reads the same list, and touches no
    other file; with no output path, or an empty one, it writes
    nothing. *)
Theorem chunk_pdf_effect {U : UnicodeDB} (extract : str -> option str)
    (p : platform) (pdf_path text : str) (output_json : option str)
    (s0 : chunker) (fs : filesystem) :
  extract pdf_path = Some text ->
  forallb encodable text = true ->
  exists s' l fs',
    parse_text text __init__ = Some (s', VList l)
    /\ chunk_pdf extract p pdf_path output_json fs = Some (VList l, fs')
    /\ (truthy output_json = false -> fs' = fs)
    /\ (forall path, output_json = Some path -> path <> [] ->
        load_from_json path s0 fs' = Some (set_chunks (VList l) s0, VList l)
        /\ forall other, str_eqb other path = false -> fs' other = fs other).
Proof.
  intros Hx Ht. destruct (parse_text_saveable text Ht) as (s' & l & H & He & Hk).
  unfold chunk_pdf. rewrite process_pdf_fresh, Hx, H.
  destruct (truthy output_json) eqn:Eo.
  - destruct output_json as [[|c path]|]; try discriminate.
    destruct (@save_then_load p (c :: path) s' s0 fs l
                (parse_text_chunks _ _ H) He Hk) as (fs' & W & R & F).
    exists s', l, fs'. simpl fmt. rewrite W.
    split; [reflexivity|]. split; [reflexivity|]. split; [discriminate|].
    intros path' [= <-] _. now split.
  - exists s', l, fs. split; [reflexivity|]. split; [reflexivity|].
    split; [reflexivity|].
    intros path -> Hne. destruct path; [congruence | discriminate].
Qed.

(** ** What the patterns accept *)

Section SpanFacts.
Context {U : UnicodeDB}.
Variable ic : bool.

Lemma eat_lit_split (l : str) : forall s s',
  eat_lit ic l s = Some s' ->
  exists w, s = w ++ s' /\ eat_lit ic l w = Some [].
Proof.
  induction l as [|x l IH]; intros s s'; simpl.
  - intros [= <-]. now exists [].
  - destruct s as [|c s]; [discriminate|].
    destruct (chr_match ic x c) eqn:E; [|discriminate].
    intros H. apply IH in H as (w & -> & Hw). exists (c :: w).
    split; [reflexivity|]. simpl. now rewrite E.
Qed.

Lemma rep_sound (R : Type) (p : char -> bool) (s : str)
    (k : str -> option R) (x : R) :
  rep p s k = Some x ->
  exists w s', s = w ++ s' /\ forallb p w = true /\ k s' = Some x.
Proof.
  induction s as [|c s IH]; simpl.
  - intros H. now exists [], [].
  - destruct (p c) eqn:Ep; [|intros H; now exists [], (c :: s)].
    destruct (rep p s k) eqn:E.
    + intros [= ->]. destruct (IH eq_refl) as (w & s' & -> & Hw & Hk).
      exists (c :: w), s'. simpl. now rewrite Ep.
    + intros H. now exists [], (c :: s).
Qed.

Lemma spans_suffix (total : nat) (r : regex) : forall s g s' g',
  spans ic total r s g s' g' -> exists w, s = w ++ s'.
Proof.
  induction r as [l|a|a|a|r1 IH1 r2 IH2|r1 IH1 r2 IH2|r1 IH1|m r1 IH1| |];
    intros s g s' g'; cbn [spans].
  - intros [H _]. apply eat_lit_split in H as (w & -> & _). eauto.
  - intros [(c & -> & _) _]. now exists [c].
  - intros [(w & -> & _) _]. eauto.
  - intros [(w & _ & -> & _) _]. eauto.
  - intros (s1 & g1 & H1 & H2). apply IH1 in H1 as [w1 ->].
    apply IH2 in H2 as [w2 ->]. exists (w1 ++ w2). now rewrite app_assoc.
  - intros [H|H]; eauto.
  - intros [[-> _]|H]; [now exists [] | eauto].
  - intros (g1 & w & _ & -> & _). eauto.
  - intros (-> & _). now exists [].
  - intros (-> & _). now exists [].
Qed.

Lemma firstn_prefix (w s : str) :
  firstn (length (w ++ s) - length s) (w ++ s) = w.
Proof.
  rewrite length_app, Nat.add_sub, firstn_app, Nat.sub_diag, firstn_all.
  simpl. apply app_nil_r.
Qed.

(** The matcher is sound: a run that succeeds has taken a path that the
    pattern accepts. *)
Lemma run_sound (R : Type) (total : nat) (r : regex) :
  forall s g (k : str -> groups -> option R) x,
  run ic total r s g k = Some x ->
  exists s' g', spans ic total r s g s' g' /\ k s' g' = Some x.
Proof.
  induction r as [l|a|a|a|r1 IH1 r2 IH2|r1 IH1 r2 IH2|r1 IH1|m r1 IH1| |];
    intros s g k x; cbn [run spans].
  - destruct (eat_lit ic l s) as [s1|]; [|discriminate]. intros H.
    exists s1, g. auto.
  - destruct s as [|c s]; [discriminate|].
    destruct (atom_match ic a c) eqn:E; [|discriminate]. intros H.
    exists s, g. split; [|assumption]. split; [|reflexivity]. eauto.
  - intros H. apply rep_sound in H as (w & s' & -> & Hw & H).
    exists s', g. split; [|assumption]. split; [|reflexivity]. eauto.
  - destruct s as [|c s]; [discriminate|].
    destruct (atom_match ic a c) eqn:E; [|discriminate]. intros H.
    apply rep_sound in H as (w & s' & -> & Hw & H).
    exists s', g. split; [|assumption]. split; [|reflexivity].
    exists (c :: w). split; [discriminate|]. split; [reflexivity|].
    simpl. now rewrite E.
  - intros H. apply IH1 in H as (s1 & g1 & H1 & H).
    apply IH2 in H as (s2 & g2 & H2 & H). exists s2, g2. eauto.
  - destruct (run ic total r1 s g k) eqn:E.
    + intros [= ->]. apply IH1 in E as (s1 & g1 & H1 & H). eauto.
    + intros H. apply IH2 in H as (s1 & g1 & H1 & H). eauto.
  - destruct (run ic total r1 s g k) eqn:E.
    + intros [= ->]. apply IH1 in E as (s1 & g1 & H1 & H). eauto.
    + intros H. exists s, g. auto.
  - intros H. apply IH1 in H as (s1 & g1 & H1 & H).
    destruct (spans_suffix _ _ _ _ _ _ H1) as [w ->].
    rewrite firstn_prefix in H. eexists s1, _. split; [|exact H]. eauto.
  - destruct (Nat.eqb_spec (length s) total); [|discriminate]. intros H.
    exists s, g. auto.
  - intros H. exists s, g. split.
    + split; [reflexivity|]. split; [reflexivity|].
      destruct s as [|c [|d s]]; try discriminate; [now left|].
      destruct (N.eqb_spec c 10); [subst; now right | discriminate].
    + destruct s as [|c [|d s]]; try discriminate; [assumption|].
      destruct (c =? 10); [assumption|discriminate].
Qed.

Lemma re_match_sound (r : regex) (line : str) (m : groups) :
  re_match ic r line = Some m ->
  exists s', spans ic (length line) r line [] s' m.
Proof.
  unfold re_match. intros H.
  apply run_sound in H as (s' & g' & H & [= ->]). eauto.
Qed.

End SpanFacts.

Section ArticleLine.
Context {U : UnicodeDB}.

Lemma sep_char_atom (c : char) :
  atom_match re_I (ASet (ISpace :: chars ".:")) c = sep_char c.
Proof.
  unfold sep_char.
  change (atom_match re_I (ASet (ISpace :: chars ".:")) c)
    with (isspace c || ((c =? 46) || ((c =? 58) || false))).
  now rewrite orb_false_r, orb_assoc.
Qed.

Lemma hyphen_word (s s' : str) :
  eat_lit re_I (lit "-") s = Some s' -> s = 45 :: s'.
Proof.
  destruct s as [|c s]; [discriminate|].
  change (eat_lit re_I (lit "-") (c :: s))
    with (if c =? 45 then Some s else None).
  destruct (N.eqb_spec c 45); [|discriminate]. now intros [= <-]; subst.
Qed.

Lemma number_spans (total : nat) (s : str) (g : groups) (s' : str)
    (g' : groups) (w : str) :
  spans re_I total (RPlus digit ;; ROpt (word "-" ;; RPlus digit))%re
    s g s' g' ->
  s = w ++ s' -> article_number_form w /\ g' = g.
Proof.
  cbn [spans]. unfold word.
  intros (s1 & g1 & [(d1 & Hne & -> & Hd1) ->] & Hopt) E.
  assert (D1 : is_digits d1 = true).
  { unfold is_digits. destruct d1; [congruence|]. exact Hd1. }
  destruct Hopt as [[-> ->]|(s2 & g2 & [Hh ->] & [(d2 & Hne2 & -> & Hd2) ->])].
  - apply app_inv_tail in E as <-. split; [|reflexivity].
    exists d1. split; [assumption | now left].
  - apply hyphen_word in Hh as ->.
    assert (E' : (d1 ++ 45 :: d2) ++ s' = w ++ s')
      by (rewrite <- E, <- app_assoc; reflexivity).
    apply app_inv_tail in E' as <-. split; [|reflexivity].
    exists d1. split; [assumption|]. right. exists d2. split; [|reflexivity].
    unfold is_digits. destruct d2; [congruence|]. exact Hd2.
Qed.

End ArticleLine.

(** X18. What the article pattern accepts: the line is the keyword
    "Art." or "Article" in any case, whitespace or none, the number
    (decimal digits, or digits, a hyphen, digits), a run of whitespace,
    dots and colons, the rest of the line, and at most a final line feed;
    group 1 is the number and group 2 the rest of the line. *)
Theorem article_line_parts {U : UnicodeDB} (line : str) (m : groups) :
  re_match re_I article_re line = Some m ->
  exists keyword blank number sep rest nl,
    line = keyword ++ blank ++ number ++ sep ++ rest ++ nl
    /\ (is_word "Art." keyword \/ is_word "Article" keyword)
    /\ forallb isspace blank = true
    /\ article_number_form number
    /\ forallb sep_char sep = true
    /\ ~ In 10 rest
    /\ (nl = [] \/ nl = [10])
    /\ m = [(2%nat, rest); (1%nat, number)].
Proof.
  intros H. apply re_match_sound in H as [s' H].
  unfold article_re, tail_re, word in H. cbn [spans] in H.
  destruct H as (s1 & g1 & (-> & -> & _) & s2 & g2 & Hkw
                 & s3 & g3 & [(blank & -> & Hblank) ->]
                 & s4 & g4 & (g5 & number & Hnum & E3 & ->)
                 & s5 & g6 & [(sep & -> & Hsep) ->]
                 & s6 & g7 & (g8 & rest & [(rest' & E5 & Hrest) ->] & E5' & ->)
                 & -> & -> & Hnl).
  destruct (@number_spans U (length line) s3 g2 (sep ++ s5) g5 number Hnum E3)
    as [Hform ->].
  assert (Hk : exists keyword,
             line = keyword ++ blank ++ s3 /\ g2 = []
             /\ (is_word "Art." keyword \/ is_word "Article" keyword)).
  { destruct Hkw as [[Hk ->]|[Hk ->]];
      apply eat_lit_split in Hk as (keyword & -> & Hk); exists keyword; auto. }
  destruct Hk as (keyword & -> & -> & Hk). subst s3.
  rewrite E5 in E5'. apply app_inv_tail in E5' as <-. subst s5.
  exists keyword, blank, number, sep, rest', s6.
  split; [reflexivity|]. split; [assumption|]. split; [exact Hblank|].
  split; [assumption|]. split.
  { rewrite forallb_forall in Hsep |- *. intros c Hc.
    rewrite <- sep_char_atom. now apply Hsep. }
  split.
  { intros Hin. rewrite forallb_forall in Hrest. specialize (Hrest 10 Hin).
    discriminate. }
  split; [assumption | reflexivity].
Qed.

(** ** The article number of the chunks *)

Section NumberFacts.
Context {U : UnicodeDB}.

Lemma article_match_number (line : str) (m : groups) :
  re_match re_I article_re line = Some m ->
  exists number, group 1 m = Some number /\ article_number_form number.
Proof.
  intros H. apply re_match_sound in H as [s' H].
  unfold article_re, tail_re, word in H. cbn [spans] in H.
  destruct H as (s1 & g1 & _ & s2 & g2 & _
                 & s3 & g3 & _
                 & s4 & g4 & (g5 & number & Hnum & E3 & ->)
                 & s5 & g6 & [_ ->]
                 & s6 & g7 & (g8 & rest & [_ ->] & _ & ->)
                 & _ & -> & _).
  destruct (@number_spans U (length line) s3 g3 s4 g5 number Hnum E3)
    as [Hform _].
  exists number. now split.
Qed.

Lemma numbered_step (line : str) (next : option str) (s s' : chunker)
    (b : bool) :
  numbered s -> step line next s = Some (s', b) -> numbered s'.
Proof.
  intros Hi H.
  destruct (step_cases _ _ _ H)
    as [(lv & m & s1 & g2 & title & _ & Hf & _ & _ & ->)
       |[(m & s1 & g2 & Hm & Hf & _ & -> & _)|(_ & -> & _)]].
  - intros n Hn. destruct lv; discriminate.
  - intros n Hn. simpl in Hn.
    destruct (article_match_number _ Hm) as (number & Hg & Hform).
    congruence.
  - unfold body_update. now destruct (_ && _).
Qed.

Lemma numbered_flush (s s' : chunker) :
  numbered s -> _save_article_chunk s = Some s' -> numbered s'.
Proof.
  intros Hi H. destruct (flush_frame _ H) as (_ & _ & _ & _ & _ & En).
  intros n Hn. rewrite En in Hn. auto.
Qed.

Lemma digits_no_hyphen (d : str) :
  isdecimal 45 = false -> is_digits d = true -> ~ In 45 d.
Proof.
  intros H45 Hd Hin. unfold is_digits in Hd.
  apply andb_true_iff in Hd as [_ Hd]. rewrite forallb_forall in Hd.
  specialize (Hd 45 Hin). congruence.
Qed.

Lemma replace_absent (a b : char) (s : str) : ~ In a s -> replace a b s = s.
Proof.
  unfold replace. induction s as [|c s IH]; simpl; [reflexivity|].
  intros H. destruct (N.eqb_spec c a) as [->|_]; [tauto|].
  rewrite IH; tauto.
Qed.

Lemma before_first_app (a : char) (s1 s2 : str) :
  ~ In a s1 -> before_first a (s1 ++ a :: s2) = s1.
Proof.
  induction s1 as [|c s1 IH]; simpl.
  - now rewrite N.eqb_refl.
  - intros H. destruct (N.eqb_spec c a) as [->|_]; [tauto|].
    rewrite IH; tauto.
Qed.

Lemma contains_absent (a : char) (s : str) : ~ In a s -> contains a s = false.
Proof.
  intros H. destruct (contains a s) eqn:E; [|reflexivity].
  now apply contains_In in E.
Qed.

Lemma create_chunk_number (t : chunker) (c : pyval) :
  isdecimal 45 = false -> numbered t -> _create_chunk t = Some c ->
  number_fields c.
Proof.
  intros H45 Hi. unfold _create_chunk.
  destruct (current_article_number t) as [number|] eqn:En; [|discriminate].
  destruct (current_article t) as [a|]; [|discriminate].
  intros [= <-].
  destruct (Hi number En) as (d1 & D1 & [->|(d2 & D2 & ->)]).
  - pose proof (digits_no_hyphen _ H45 D1) as N1.
    eexists _, d1. split; [assumption|]. split; [reflexivity|].
    rewrite (contains_absent _ _ N1), (replace_absent 45 95 _ N1).
    split; [reflexivity|]. left. repeat split; reflexivity.
  - pose proof (digits_no_hyphen _ H45 D1) as N1.
    pose proof (digits_no_hyphen _ H45 D2) as N2.
    assert (C : contains 45 (d1 ++ 45 :: d2) = true).
    { apply contains_In, in_or_app. right. now left. }
    assert (R : replace 45 95 (d1 ++ 45 :: d2) = d1 ++ 95 :: d2).
    { unfold replace. rewrite map_app. simpl.
      fold (replace 45 95 d1). fold (replace 45 95 d2).
      now rewrite (replace_absent 45 95 _ N1), (replace_absent 45 95 _ N2). }
    eexists _, d1. split; [assumption|]. split; [reflexivity|].
    rewrite C, R, split_hd, (@before_first_app 45 d1 d2 N1).
    split; [reflexivity|]. right. exists d2. repeat split; try reflexivity.
    assumption.
Qed.

End NumberFacts.

(** X19. On an interpreter whose tables do not count the hyphen as a
    decimal digit, and on a chunker whose article number (if any) is
    digits or digits-hyphen-digits, as on a fresh chunker: every chunk
    that [parse_text] adds has such a number; its [base_article] is the
    digits before the hyphen; [is_sub_article] is true exactly when there
    is a hyphen; and its [id] is "CT_TN_A" followed by the number, with an
    underscore in place of the hyphen. *)
Theorem emitted_number_fields {U : UnicodeDB} (text : str) (s s' : chunker)
    (out : pyval) (l : list pyval) :
  isdecimal 45 = false ->
  numbered s ->
  chunks s = VList l ->
  parse_text text s = Some (s', out) ->
  numbered s'
  /\ exists new, out = VList (l ++ new) /\ Forall number_fields new.
Proof.
  intros H45 Hi Hl H.
  apply (@traced_parse_text U (fun _ => True) numbered number_fields) in H.
  - destruct H as (Hi' & -> & H). split; [assumption|]. exact (H l Hl).
  - intros line next t t' b _ _. apply numbered_step.
  - apply numbered_flush.
  - intros t c Ht _. now apply create_chunk_number.
  - apply Forall_forall. trivial.
  - assumption.
Qed.

(** ** The hierarchy path *)

Lemma ci_eq_numeral (x c : char) :
  numeral_char x = true -> ci_eq x c = true -> numeral_char c = true.
Proof.
  intros Hx H. destruct (is_ascii_lower (ascii_lower x)) eqn:E.
  - pose proof (ci_eq_cases x c E H) as C. cbv zeta in C.
    unfold is_ascii_lower, in_range in E.
    apply andb_true_iff in E as [E1 E2]. apply N.leb_le in E1, E2.
    revert C E1 E2. generalize (ascii_lower x). intros lx C E1 E2.
    unfold numeral_char, in_range.
    destruct C as [->|[->|[[_ [->| ->]]|[[_ ->]|[_ ->]]]]]; try reflexivity.
    + assert (A : (97 <=? lx) = true) by now apply N.leb_le.
      assert (B : (lx <=? 122) = true) by now apply N.leb_le.
      rewrite A, B. simpl. now rewrite !orb_true_r.
    + assert (A : (65 <=? lx - 32) = true) by (apply N.leb_le; lia).
      assert (B : (lx - 32 <=? 90) = true) by (apply N.leb_le; lia).
      rewrite A, B. simpl. now rewrite !orb_true_r.
  - unfold ci_eq in H. cbv zeta in H. rewrite E in H.
    apply N.eqb_eq in H. now subst.
Qed.

Section PathFacts.
Context {U : UnicodeDB}.

Lemma eat_lit_numeral (l : str) : forall w,
  forallb numeral_char l = true -> eat_lit re_I l w = Some [] ->
  forallb numeral_char w = true /\ length w = length l.
Proof.
  induction l as [|x l IH]; intros w; cbn [eat_lit forallb].
  - intros _ [= ->]. now split.
  - destruct w as [|c w]; [discriminate|].
    rewrite andb_true_iff. intros [Hx Hl].
    destruct (chr_match re_I x c) eqn:E; [|discriminate].
    intros H. destruct (IH w Hl H) as [H1 H2]. cbn [forallb length].
    rewrite H1, H2, (ci_eq_numeral x c Hx E). now split.
Qed.

Lemma lit_numeral (l s s' num : str) :
  eat_lit re_I l s = Some s' -> s = num ++ s' ->
  forallb numeral_char l = true -> l <> [] -> is_numeral num = true.
Proof.
  intros H E Hl Hne. apply eat_lit_split in H as (w & -> & Hw).
  apply app_inv_tail in E as <-.
  destruct (eat_lit_numeral l w Hl Hw) as [H1 H2].
  unfold is_numeral. rewrite H1, andb_true_r.
  destruct w; [|reflexivity]. destruct l; [congruence | discriminate].
Qed.

Lemma plus_numeral (a : atom) (s s' num : str) :
  (forall c, atom_match re_I a c = true -> numeral_char c = true) ->
  (exists w, w <> [] /\ s = w ++ s'
             /\ forallb (atom_match re_I a) w = true) ->
  s = num ++ s' -> is_numeral num = true.
Proof.
  intros Ha (w & Hne & -> & Hw) E. apply app_inv_tail in E as <-.
  unfold is_numeral. destruct w as [|c w]; [congruence|].
  cbn [nonempty andb]. rewrite forallb_forall in Hw |- *. auto.
Qed.

Lemma chars_numeral (l : str) (c : char) :
  forallb numeral_char l = true ->
  existsb (fun i => item_match re_I i c) (map IChr l) = true ->
  numeral_char c = true.
Proof.
  induction l as [|x l IH]; simpl; [discriminate|].
  rewrite andb_true_iff, orb_true_iff. intros [Hx Hl] [H|H]; [|auto].
  exact (ci_eq_numeral x c Hx H).
Qed.

Lemma range_numeral (l : str) (c : char) :
  forallb numeral_char l = true ->
  existsb (fun x => ci_eq x c) l = true -> numeral_char c = true.
Proof.
  induction l as [|x l IH]; simpl; [discriminate|].
  rewrite andb_true_iff, orb_true_iff. intros [Hx Hl] [H|H]; [|auto].
  exact (ci_eq_numeral x c Hx H).
Qed.

Lemma roman_numeral (c : char) :
  atom_match re_I roman c = true -> numeral_char c = true.
Proof. apply (chars_numeral (lit "IVXLCDM")). reflexivity. Qed.

Lemma letter_numeral (c : char) :
  atom_match re_I (ASet [IRange 97 122]) c = true -> numeral_char c = true.
Proof.
  intros H. apply (range_numeral (range_from 97 26)); [reflexivity|].
  change (existsb (fun x => ci_eq x c) (range_from 97 26) || false = true) in H.
  now rewrite orb_false_r in H.
Qed.

Lemma digit_numeral (c : char) :
  atom_match re_I (ASet [IRange 48 57]) c = true -> numeral_char c = true.
Proof.
  intros H. apply (range_numeral (range_from 48 10)); [reflexivity|].
  change (existsb (fun x => ci_eq x c) (range_from 48 10) || false = true) in H.
  now rewrite orb_false_r in H.
Qed.

(** The number of a heading line, from the pattern of its number. *)
Lemma heading_spans (keyword : str) (G : regex) (line : str) (m : groups) :
  re_match re_I (RBol ;; RLit keyword ;; RPlus ws ;; RGroup 1 G ;; tail_re)%re
    line = Some m ->
  exists num s s' g g',
    group 1 m = Some num
    /\ spans re_I (length line) G s g s' g' /\ s = num ++ s'.
Proof.
  intros H. apply re_match_sound in H as [s0 H].
  unfold tail_re in H. cbn [spans] in H.
  destruct H as (s1 & g1 & _ & s2 & g2 & _ & s3 & g3 & _
                 & s4 & g4 & (g5 & num & HG & E & ->)
                 & s5 & g6 & [_ ->]
                 & s6 & g7 & (g8 & rest & [_ ->] & _ & ->)
                 & _ & -> & _).
  exists num, s3, s4, g3, g5. split; [reflexivity|]. now split.
Qed.

Lemma heading_match_numeral (lv : level) (line : str) (m : groups) :
  re_match re_I (level_pattern lv) line = Some m ->
  exists num, group 1 m = Some num /\ is_numeral num = true.
Proof.
  intros H. destruct lv; simpl in H;
    unfold livre_re, titre_re, chapitre_re, section_re, word in H;
    apply heading_spans in H as (num & s & s' & g & g' & Hg & HG & E);
    exists num; (split; [exact Hg|]); cbn [spans] in HG.
  - destruct HG as [[[[[[H _]|[H _]]|[H _]]|[H _]]|[H _]]|[H _]];
      try (apply (@lit_numeral _ s s' num H E); [reflexivity | discriminate]).
    exact (@plus_numeral roman s s' num roman_numeral H E).
  - destruct HG as [[H _]|[H _]].
    + exact (@plus_numeral (ASet [IRange 97 122]) s s' num letter_numeral H E).
    + exact (@plus_numeral roman s s' num roman_numeral H E).
  - destruct HG as [[H _]|[H _]].
    + exact (@plus_numeral (ASet [IRange 97 122]) s s' num letter_numeral H E).
    + exact (@plus_numeral roman s s' num roman_numeral H E).
  - destruct HG as [[H _]|[H _]].
    + exact (@plus_numeral roman s s' num roman_numeral H E).
    + exact (@plus_numeral (ASet [IRange 48 57]) s s' num digit_numeral H E).
Qed.

Lemma headed_flush (s s' : chunker) :
  headed s -> _save_article_chunk s = Some s' -> headed s'.
Proof.
  intros Hi H. destruct (flush_frame _ H) as (El & Et & Ec & Es & _).
  intros lv lbl Hl. apply (Hi lv lbl). destruct lv; simpl in *; congruence.
Qed.

Lemma headed_step (line : str) (next : option str) (s s' : chunker) (b : bool) :
  headed s -> step line next s = Some (s', b) -> headed s'.
Proof.
  intros Hi H.
  destruct (step_cases _ _ _ H)
    as [(lv & m & s1 & g2 & title & Hm & Hf & _ & _ & ->)
       |[(m & s1 & g2 & Hm & Hf & _ & -> & _)|(_ & -> & _)]].
  - pose proof (headed_flush Hi Hf) as Hi1.
    destruct (heading_match_numeral lv _ Hm) as (num & Hg & Hn).
    rewrite Hg. intros lv' lbl Hl.
    destruct lv, lv'; simpl in Hl; try discriminate;
      try (injection Hl as <-; now exists num, title);
      first [exact (Hi1 Livre lbl Hl) | exact (Hi1 Titre lbl Hl)
            | exact (Hi1 Chapitre lbl Hl) | exact (Hi1 Section lbl Hl)].
  - pose proof (headed_flush Hi Hf) as Hi1.
    intros lv lbl Hl. apply (Hi1 lv lbl). now destruct lv.
  - unfold body_update. now destruct (_ && _).
Qed.

Lemma eat_lit_self (l rest : str) :
  forallb (fun x => chr_match re_I x x) l = true ->
  eat_lit re_I l (l ++ rest) = Some rest.
Proof.
  induction l as [|x l IH]; simpl; [reflexivity|].
  rewrite andb_true_iff. intros [-> Hl]. auto.
Qed.

Lemma rep_stop (R : Type) (p : char -> bool) (s : str) (k : str -> option R) :
  match s with [] => True | c :: _ => p c = false end -> rep p s k = k s.
Proof. destruct s as [|c s]; simpl; [reflexivity|]. now intros ->. Qed.

Lemma rep_greedy (R : Type) (p : char -> bool) (w t : str)
    (k : str -> option R) (x : R) :
  forallb p w = true ->
  match t with [] => True | c :: _ => p c = false end ->
  k t = Some x -> rep p (w ++ t) k = Some x.
Proof.
  intros Hw Ht Hk. induction w as [|c w IH]; simpl.
  - now rewrite rep_stop.
  - simpl in Hw. apply andb_true_iff in Hw as [-> Hw]. now rewrite IH.
Qed.

Lemma search_from_head (total : nat) (r : regex) (s : str) (g : groups) :
  run re_I total r s [] (fun _ g => Some g) = Some g ->
  search_from re_I total r s = Some g.
Proof. intros H. destruct s; simpl; now rewrite H. Qed.

Hypothesis spaces : plain_spaces.

Lemma not_space_dot (c : char) :
  numeral_char c = true ->
  atom_match re_I (ANot (ISpace :: chars ".")) c = true.
Proof.
  intros H.
  change (negb (isspace c || ((c =? 46) || false)) = true).
  rewrite (proj2 spaces c H).
  destruct (N.eqb_spec c 46) as [->|_]; [discriminate | reflexivity].
Qed.

Lemma level_search (keyword : string) (num tail : str) :
  forallb (fun x => chr_match re_I x x) (lit keyword) = true ->
  is_numeral num = true ->
  tail = [] \/ (exists t, tail = 46 :: t) ->
  re_search re_I (level_re keyword) (lit keyword ++ 32 :: num ++ tail)
  = Some [(1%nat, num)].
Proof.
  intros Hk Hn Ht. unfold re_search. apply search_from_head.
  unfold level_re, word. cbn [run]. rewrite (eat_lit_self _ _ Hk).
  change (atom_match re_I ws 32) with (isspace 32). rewrite (proj1 spaces).
  unfold is_numeral in Hn. apply andb_true_iff in Hn as [Hne Hn].
  destruct num as [|c num]; [discriminate|]. simpl in Hn.
  apply andb_true_iff in Hn as [Hc Hn].
  rewrite rep_stop
    by (change (atom_match re_I ws c) with (isspace c);
        exact (proj2 spaces c Hc)).
  change ((c :: num) ++ tail) with (c :: num ++ tail). cbv beta iota.
  rewrite (not_space_dot c Hc).
  apply rep_greedy.
  - rewrite forallb_forall in Hn |- *. intros x Hx.
    apply not_space_dot. auto.
  - destruct Ht as [->|[t ->]]; [exact I|].
    change (negb (isspace 46 || ((46 =? 46) || false)) = false).
    now rewrite orb_true_r.
  - f_equal. f_equal. f_equal.
    exact (firstn_prefix (c :: num) tail).
Qed.

Lemma hierarchy_part_label (lv : level) (num title : str) :
  is_numeral num = true ->
  hierarchy_part (level_keyword lv)
    (Some (label (level_keyword lv) (Some num) title))
  = path_part lv (Some num).
Proof.
  intros Hn. unfold hierarchy_part.
  assert (T : truthy (Some (label (level_keyword lv) (Some num) title)) = true)
    by now destruct lv.
  rewrite T. cbn [fmt].
  assert (E : label (level_keyword lv) (Some num) title
              = lit (level_keyword lv) ++ 32 :: num
                ++ (if nonempty title then lit ". " ++ title else []))
    by reflexivity.
  rewrite E, level_search; try assumption.
  - reflexivity.
  - now destruct lv.
  - destruct (nonempty title); [right; now eexists | now left].
Qed.

Lemma level_part (lv : level) (t : chunker) :
  headed t ->
  exists n,
    heading_field lv (of_opt (level_label lv t)) n
    /\ hierarchy_part (level_keyword lv) (level_label lv t) = path_part lv n.
Proof.
  intros Hi. destruct (level_label lv t) as [lbl|] eqn:E.
  - destruct (Hi lv lbl E) as (num & title & Hn & ->).
    exists (Some num). split; [split; [assumption | now exists title]|].
    now apply hierarchy_part_label.
  - exists None. split; reflexivity.
Qed.

Lemma create_chunk_path (t : chunker) (c : pyval) :
  headed t -> _create_chunk t = Some c -> path_field c.
Proof.
  intros Hi Hc.
  apply create_chunk_fields in Hc
    as (number & a & meta & _ & _ & _ & _ & Em & Hlv & Hart & _ & _ & _ & Hp).
  destruct (level_part Livre Hi) as (n1 & F1 & P1).
  destruct (level_part Titre Hi) as (n2 & F2 & P2).
  destruct (level_part Chapitre Hi) as (n3 & F3 & P3).
  destruct (level_part Section Hi) as (n4 & F4 & P4).
  simpl in P1, P2, P3, P4. rewrite P1, P2, P3, P4 in Hp.
  exists meta, a,
    (fun lv => match lv with
               | Livre => n1 | Titre => n2 | Chapitre => n3 | Section => n4
               end).
  split; [assumption|]. split; [assumption|]. split; [|exact Hp].
  intros lv. eexists. split; [apply Hlv|]. now destruct lv.
Qed.

End PathFacts.

(** X20. On an interpreter for which the space is whitespace and no
    ASCII letter or digit is (nor the four characters that [re.I] takes
    for i, s and k), and on a chunker whose heading labels were set by
    the parser, as on a fresh chunker: the hierarchy path of every chunk
    that [parse_text] adds is made of the keyword and the number of each
    heading the chunk has, from the Book down to the Section and without
    the titles, and then the article label, joined by " > ". *)
Theorem emitted_hierarchy_path {U : UnicodeDB} (text : str) (s s' : chunker)
    (out : pyval) (l : list pyval) :
  plain_spaces ->
  headed s ->
  chunks s = VList l ->
  parse_text text s = Some (s', out) ->
  headed s'
  /\ exists new, out = VList (l ++ new) /\ Forall path_field new.
Proof.
  intros HU Hi Hl H.
  apply (@traced_parse_text U (fun _ => True) headed path_field) in H.
  - destruct H as (Hi' & -> & H). split; [assumption|]. exact (H l Hl).
  - intros line next t t' b _ _. apply headed_step.
  - apply headed_flush.
  - intros t c Ht _. apply (create_chunk_path HU). exact Ht.
  - apply Forall_forall. trivial.
  - assumption.
Qed.

(** ** Chunks are single lines *)

Lemma normalize_single {U : UnicodeDB} (text : str) :
  Forall (fun line => forallb not_newline line = true) (normalize text).
Proof.
  unfold normalize. generalize (split_no_sep 10 text).
  induction 1 as [|w ws Hw _ IH]; simpl; [constructor|].
  destruct (nonempty (strip w)); [|assumption].
  constructor; [|assumption].
  apply forallb_forall. intros c Hc. unfold not_newline.
  destruct (N.eqb_spec c 10) as [->|_]; [|reflexivity].
  exfalso. apply Hw. now apply strip_incl.
Qed.

Lemma printable_not_newline (c : char) :
  printable c = true -> not_newline c = true.
Proof.
  unfold printable, in_range, not_newline. intros H.
  apply andb_true_iff in H as [H _]. apply N.leb_le in H.
  destruct (N.eqb_spec c 10); [lia | reflexivity].
Qed.

(** X21. No line feed gets into a chunk: on a chunker that holds none
    (as a fresh one), after [parse_text] on any text no string of any
    chunk, key or value, holds a line feed, and the chunker still holds
    none. *)
Theorem emitted_single_line {U : UnicodeDB} (text : str) (s s' : chunker)
    (out : pyval) :
  state_chars not_newline s = true ->
  parse_text text s = Some (s', out) ->
  state_chars not_newline s' = true /\ chars_ok not_newline out = true.
Proof.
  intros Hi H.
  apply (@traced_parse_text U (fun line => forallb not_newline line = true)
           (fun s => state_chars not_newline s = true) (fun _ => True)) in H.
  - destruct H as (Hi' & -> & _). split; [assumption|].
    now apply state_chars_iff in Hi' as [Hc _].
  - intros line next t t' b Hline Hnext.
    apply (@state_chars_step U not_newline printable_not_newline);
      [assumption|].
    destruct next as [n|]; [|reflexivity]. now apply Hnext.
  - apply (@state_chars_flush U not_newline printable_not_newline).
  - trivial.
  - apply normalize_single.
  - assumption.
Qed.

(* ===================================================================== *)
(** * Examples: the theorems at concrete inputs, and where the prose of
      the specification departs from the code *)
(* ===================================================================== *)

(** The examples run on the Unicode tables of CPython. *)
#[local] Existing Instance cpython.

Lemma ready_in_article_1 : ready in_article_1.
Proof. split; [exists []; reflexivity | discriminate]. Defined.

Lemma ready_in_section_3 : ready in_section_3.
Proof. split; [exists []; reflexivity | discriminate]. Defined.

(** C1, counterexample: none of the five matchers accepts the line
    "Article premier" and an article is active, yet the line is not
    appended to the body lines: the chunker is unchanged. *)
Lemma keyword_line_not_appended :
  first_match (U := cpython) matchers (lit "Article premier") = None
  /\ truthy (current_article in_article_1) = true
  /\ step (U := cpython) (lit "Article premier") None in_article_1
     = Some (in_article_1, false).
Proof. repeat split; vm_compute; reflexivity. Qed.

(** C1, witness: an ordinary line is appended to the body of Article 1. *)
Lemma step_dispatch_witness :
  step (U := cpython) (lit "bar") None in_article_1
  = Some (set_current_article_text [lit "foo"; lit "bar"] in_article_1, false).
Proof.
  exact (proj1 (proj2 (@step_dispatch cpython (lit "bar") None in_article_1))
           eq_refl eq_refl eq_refl).
Defined.

(** C2, counterexample: after "Titre I", the line "Articles generaux" is
    accepted by none of the five matchers, yet it is not taken as the
    title: it starts with the keyword Art. *)
Lemma unmatched_line_not_consumed :
  first_match (U := cpython) matchers (lit "Articles generaux") = None
  /\ exists s',
       step (U := cpython) (lit "Titre I") (Some (lit "Articles generaux"))
         __init__ = Some (s', false)
       /\ current_titre s' = Some (lit "Titre I").
Proof.
  split; [vm_compute; reflexivity|].
  eexists. split; vm_compute; reflexivity.
Qed.

(** C2, witness: "Champ d'application" after "Titre I" becomes the title. *)
Lemma heading_lookahead_witness :
  exists s',
    step (U := cpython) (lit "Titre I") (Some (lit "Champ d'application"))
      __init__ = Some (s', true)
    /\ level_label Titre s'
       = Some (label "Titre" (Some (lit "I")) (lit "Champ d'application"))
    /\ forall rest,
         parse_loop (lit "Titre I" :: lit "Champ d'application" :: rest)
           __init__ = parse_loop rest s'.
Proof.
  exact (proj1 (@heading_lookahead cpython Titre (lit "Titre I")
                  (lit "Champ d'application")
                  [(2%nat, []); (1%nat, lit "I")] [] __init__
                  eq_refl eq_refl eq_refl ready_init) eq_refl).
Defined.

(** C3, witness: "Chapitre II. Des salaires" inside Section 3. *)
Lemma chapitre_heading_witness :
  exists s1 title consumed,
    _save_article_chunk (U := cpython) in_section_3 = Some s1
    /\ step (U := cpython) (lit "Chapitre II. Des salaires") None in_section_3
       = Some (mkChunker (chunks s1) (Some (lit "Livre I"))
                 (Some (lit "Titre II"))
                 (Some (label "Chapitre" (Some (lit "II")) title))
                 None None None (current_article_text s1),
               consumed).
Proof.
  exact (@chapitre_heading cpython (lit "Chapitre II. Des salaires") None
           [(2%nat, lit "Des salaires"); (1%nat, lit "II")] in_section_3
           eq_refl ready_in_section_3).
Defined.

(** C4, counterexample: the flush of Article 1 adds its chunk and
    empties the body lines, but the article label and the article number
    are still set afterwards. *)
Lemma flush_keeps_article :
  truthy (current_article in_article_1) = true
  /\ Exists (fun line => strip (U := cpython) line <> [])
       (current_article_text in_article_1)
  /\ exists s' c,
       _save_article_chunk (U := cpython) in_article_1 = Some s'
       /\ chunks s' = VList [c]
       /\ current_article_text s' = []
       /\ current_article s' = Some (lit "Article 1")
       /\ current_article_number s' = Some (lit "1").
Proof.
  split; [reflexivity|]. split.
  - left. vm_compute. discriminate.
  - do 2 eexists. repeat split; vm_compute; reflexivity.
Qed.

(** C4, witness: the flush of Article 1. *)
Lemma save_article_chunk_effect_witness :
  exists chunk,
    _create_chunk (U := cpython)
      (set_current_article_text
         (cleaned_lines (U := cpython) (current_article_text in_article_1))
         in_article_1) = Some chunk
    /\ _save_article_chunk (U := cpython) in_article_1
       = Some (mkChunker (VList ([] ++ [chunk])) None None None None
                 (Some (lit "Article 1")) (Some (lit "1")) []).
Proof.
  refine (proj2 (@save_article_chunk_effect cpython in_article_1)
            [] (lit "1") eq_refl _ eq_refl eq_refl).
  left. vm_compute. discriminate.
Defined.

(** C5, witness. *)
Lemma emitted_chunk_fields_witness :
  exists new,
    chunks sub_article_state = VList ([] ++ new)
    /\ Forall derived_fields new.
Proof.
  refine (@emitted_chunk_fields cpython sub_article_text __init__
            sub_article_state (chunks sub_article_state) [] eq_refl _).
  vm_compute. reflexivity.
Defined.

(** C6, counterexample: the metadata of the chunk of "Art. 1 x" has the
    keys livre, titre and chapitre, and no key book, title or chapter. *)
Lemma metadata_keys_are_french :
  exists s' c meta,
    parse_text (U := cpython) (lit "Art. 1 x") __init__
    = Some (s', VList [c])
    /\ getitem "metadata" c = Some meta
    /\ keys meta <> claimed_metadata_keys
    /\ getitem "book" meta = None /\ getitem "title" meta = None
    /\ getitem "chapter" meta = None
    /\ getitem "livre" meta = Some VNone.
Proof.
  do 3 eexists. split; [vm_compute; reflexivity|].
  split; [vm_compute; reflexivity|].
  split; [vm_compute; discriminate|].
  repeat split; vm_compute; reflexivity.
Qed.

(** C6, witness. *)
Lemma emitted_chunk_shape_witness :
  exists new,
    chunks sub_article_state = VList ([] ++ new) /\ Forall chunk_shape new.
Proof.
  refine (@emitted_chunk_shape cpython sub_article_text __init__
            sub_article_state (chunks sub_article_state) [] eq_refl _).
  vm_compute. reflexivity.
Defined.

(** C7, witness: a string of a space, a line feed and a tab. *)
Lemma parse_text_returns_witness :
  exists s' l,
    parse_text (U := cpython) [32; 10; 9] __init__ = Some (s', VList l)
    /\ (forallb (isspace (UnicodeDB := cpython)) [32; 10; 9] = true -> l = []).
Proof. exact (@parse_text_returns cpython [32; 10; 9]). Defined.


(** C10, witness: the second call on the chunker left by the first. *)
Lemma parse_text_accumulates_witness :
  chunks one_article_state = chunks one_article_state
  /\ exists new,
       chunks one_article_state = VList ([] ++ new).
Proof.
  refine (proj1 parse_text_accumulates cpython (lit "Art. 1 foo") __init__
            one_article_state (chunks one_article_state) [] eq_refl _).
  vm_compute. reflexivity.
Defined.

(** C9, counterexample: a chunk sequence of one chunk whose text is a
    lone surrogate is not saved, on either platform: the UTF-8 encoder
    of the file raises. *)
Lemma surrogate_not_saved :
  exists c,
    chunks surrogate_state = VList [c]
    /\ getitem "text" c = Some (VStr [0xD800])
    /\ pyobject (VList [c]) = true
    /\ save_to_json Posix (lit "chunks.json") surrogate_state no_files = None
    /\ save_to_json Windows (lit "chunks.json") surrogate_state no_files
       = None.
Proof. eexists. repeat split; vm_compute; reflexivity. Qed.

(** C9, witness: the chunk of an article with accented text, saved and
    loaded on Windows. *)
Lemma save_load_roundtrip_witness :
  exists fs',
    save_to_json Windows (lit "chunks.json") accent_state no_files = Some fs'
    /\ load_from_json (lit "chunks.json") accent_state fs'
       = Some (set_chunks (VList (chunk_list accent_state)) accent_state,
               VList (chunk_list accent_state)).
Proof.
  refine (@save_load_roundtrip Windows (lit "chunks.json") accent_state
            accent_state no_files (chunk_list accent_state) _ _ _);
    vm_compute; reflexivity.
Defined.

(** ** The further properties at concrete inputs *)

(** X2, witness: a line of two spaces between an article and its body. *)
Lemma parse_text_blank_lines_witness :
  parse_text (U := cpython)
    (lit "Art. 1 foo" ++ 10 :: lit "  " ++ 10 :: lit "bar") __init__
  = parse_text (U := cpython) (lit "Art. 1 foo" ++ 10 :: lit "bar") __init__.
Proof.
  exact (@parse_text_blank_lines cpython (lit "Art. 1 foo") (lit "  ")
           (lit "bar") __init__ eq_refl).
Defined.

(** X3, witness: the flush of Article 1, twice. *)
Lemma flush_idempotent_witness :
  _save_article_chunk (U := cpython) flushed_article_1
  = Some flushed_article_1.
Proof.
  apply (@flush_idempotent cpython in_article_1 flushed_article_1).
  vm_compute. reflexivity.
Defined.

(** X4, witness: the flush of Article 1. *)
Lemma flushed_text_witness :
  exists s' c,
    _save_article_chunk (U := cpython) in_article_1 = Some s'
    /\ chunks s' = VList ([] ++ [c])
    /\ getitem "text" c
       = Some (VStr (join (lit " ")
                       (cleaned_lines (U := cpython)
                          (current_article_text in_article_1)))).
Proof.
  refine (@flushed_text cpython in_article_1 [] ready_in_article_1 eq_refl
            eq_refl _).
  left. vm_compute. discriminate.
Defined.

(** X5, witness. *)
Lemma emitted_text_witness :
  exists new,
    chunks sub_article_state = VList ([] ++ new)
    /\ Forall (text_field (U := cpython)) new.
Proof.
  refine (@emitted_text cpython sub_article_text __init__ sub_article_state
            (chunks sub_article_state) [] eq_refl _).
  vm_compute. reflexivity.
Defined.

(** X6, witness: "Titre III. Des salaires" inside Section 3. *)
Lemma heading_transition_witness :
  exists s1 s' g2 title consumed,
    _save_article_chunk (U := cpython) in_section_3 = Some s1
    /\ group 2 [(2%nat, lit "Des salaires"); (1%nat, lit "III")] = Some g2
    /\ continuation (U := cpython) (strip (U := cpython) g2) None
       = (title, consumed)
    /\ step (U := cpython) (lit "Titre III. Des salaires") None in_section_3
       = Some (s', consumed)
    /\ level_label Titre s'
       = Some (label "Titre" (Some (lit "III")) title)
    /\ (forall lv', (rank lv' < rank Titre)%nat ->
                    level_label lv' s' = level_label lv' in_section_3)
    /\ (forall lv', (rank Titre < rank lv')%nat -> level_label lv' s' = None)
    /\ current_article s' = None
    /\ current_article_number s' = None
    /\ chunks s' = chunks s1
    /\ current_article_text s' = current_article_text s1.
Proof.
  exact (@heading_transition cpython Titre (lit "Titre III. Des salaires")
           None [(2%nat, lit "Des salaires"); (1%nat, lit "III")]
           in_section_3 eq_refl ready_in_section_3).
Defined.

(** X7, witness: "Art. 8. Le texte" inside Section 3. *)
Lemma article_transition_witness :
  exists s1 number g2,
    _save_article_chunk (U := cpython) in_section_3 = Some s1
    /\ group 1 article_8_groups = Some number
    /\ group 2 article_8_groups = Some g2
    /\ step (U := cpython) article_8_line None in_section_3
       = Some (mkChunker (chunks s1) (Some (lit "Livre I"))
                 (Some (lit "Titre II")) (Some (lit "Chapitre I"))
                 (Some (lit "Section 3"))
                 (Some (lit "Article " ++ number)) (Some number)
                 (current_article_text s1
                  ++ (if nonempty (strip (U := cpython) g2)
                      then [strip (U := cpython) g2] else [])),
               false).
Proof.
  exact (@article_transition cpython article_8_line None article_8_groups
           in_section_3 eq_refl ready_in_section_3).
Defined.

(** X8, witness: "Art. 8. Le texte" closes Article 7 of Section 3. *)
Lemma closing_line_chunk_witness :
  exists s' consumed c meta,
    step (U := cpython) article_8_line None in_section_3
    = Some (s', consumed)
    /\ chunks s' = VList ([] ++ [c])
    /\ getitem "metadata" c = Some meta
    /\ (forall lv,
          getitem (level_key lv) meta
          = Some (of_opt (level_label lv in_section_3)))
    /\ getitem "article" meta = Some (VStr (lit "Article 7"))
    /\ getitem "article_number" meta = Some (VStr (lit "7")).
Proof.
  refine (@closing_line_chunk cpython article_8_line None in_section_3 []
            ready_in_section_3 eq_refl eq_refl _ _).
  - left. vm_compute. discriminate.
  - intros H. apply (f_equal (@nonempty_opt _)) in H. vm_compute in H.
    discriminate.
Defined.

(** X9, witness: two lines after the body of Article 1; the second starts
    with a keyword and is dropped. *)
Lemma body_lines_witness :
  parse_loop (U := cpython) [lit "bar"; lit "Articles divers"] in_article_1
  = Some (set_current_article_text [lit "foo"; lit "bar"] in_article_1).
Proof.
  refine (@body_lines cpython [lit "bar"; lit "Articles divers"]
            in_article_1 _).
  repeat constructor.
Defined.

(** X11, witness: one article line, one chunk. *)
Lemma chunk_count_witness :
  exists new,
    chunks one_article_state = VList ([] ++ new)
    /\ (length new
        <= active __init__
           + length (filter (article_line (U := cpython))
                       (normalize (U := cpython) (lit "Art. 1 foo"))))%nat.
Proof.
  refine (@chunk_count cpython (lit "Art. 1 foo") __init__ one_article_state
            (chunks one_article_state) [] eq_refl _).
  vm_compute. reflexivity.
Defined.

(** X12, witness: a parse, a PDF, a parse. *)
Lemma calls_never_raise_witness :
  exists s' l,
    run_calls (U := cpython) one_article mixed_calls __init__ = Some s'
    /\ chunks s' = VList l.
Proof.
  refine (@calls_never_raise cpython one_article mixed_calls __init__
            ready_init _).
  simpl. split; [discriminate | exact I].
Defined.

Lemma labelled_init : labelled __init__.
Proof. intros a H. discriminate. Defined.

(** X13, witness. *)
Lemma emitted_article_fields_witness :
  labelled sub_article_state
  /\ exists new,
       chunks sub_article_state = VList ([] ++ new)
       /\ Forall article_fields new.
Proof.
  refine (@emitted_article_fields cpython sub_article_text __init__
            sub_article_state (chunks sub_article_state) [] labelled_init
            eq_refl _).
  vm_compute. reflexivity.
Defined.

(** X14, witness: the statistics of a Book, a Title and two articles. *)
Lemma statistics_counts_witness :
  count_of (lit "total_chunks") two_articles_stats
  = Some (length (chunk_list two_articles_state))
  /\ count_of (lit "total_articles") two_articles_stats
     = Some (length (chunk_list two_articles_state))
  /\ count_of (lit "sub_articles") two_articles_stats
     = Some (length (filter flagged_sub (chunk_list two_articles_state)))
  /\ count_of (lit "base_articles") two_articles_stats
     = Some (length (chunk_list two_articles_state)
             - length (filter flagged_sub (chunk_list two_articles_state)))%nat
  /\ forall lv, exists set,
       count_of (lit (level_count lv)) two_articles_stats
       = Some (length set)
       /\ NoDup set
       /\ (length set <= length (chunk_list two_articles_state))%nat
       /\ forall v, In v set
                    <-> py_truthy v = true
                        /\ label_among (level_key lv)
                             (chunk_list two_articles_state) v.
Proof.
  refine (@statistics_counts two_articles_state
            (chunk_list two_articles_state) two_articles_stats _ _);
    vm_compute; reflexivity.
Defined.

(** X15, witness. *)
Lemma statistics_after_parse_witness :
  exists all d,
    chunks two_articles_state = VList all
    /\ get_statistics two_articles_state = Some d
    /\ count_of (lit "total_chunks") d = Some (length all)
    /\ count_of (lit "sub_articles") d = Some (length (filter sub_chunk all))
    /\ count_of (lit "base_articles") d
       = Some (length (filter (fun c => negb (sub_chunk c)) all)).
Proof.
  refine (@statistics_after_parse cpython two_articles_text __init__
            two_articles_state (chunks two_articles_state) [] eq_refl
            (Forall_nil _) _).
  vm_compute. reflexivity.
Defined.

(** X16, witness: accented text, saved and loaded on Windows. *)
Lemma parse_save_load_witness :
  exists s' l fs',
    parse_text (U := cpython) accent_text __init__ = Some (s', VList l)
    /\ save_to_json Windows (lit "chunks.json") s' no_files = Some fs'
    /\ load_from_json (lit "chunks.json") __init__ fs'
       = Some (set_chunks (VList l) __init__, VList l).
Proof.
  refine (@parse_save_load cpython Windows (lit "chunks.json") accent_text
            __init__ no_files _).
  vm_compute. reflexivity.
Defined.

(** X17, witness: the one-article document, with an output path. *)
Lemma chunk_pdf_effect_witness :
  exists s' l fs',
    parse_text (U := cpython) (lit "Art. 1 foo") __init__
    = Some (s', VList l)
    /\ chunk_pdf (U := cpython) one_article Posix (lit "code.pdf")
         (Some (lit "chunks.json")) no_files = Some (VList l, fs')
    /\ (truthy (Some (lit "chunks.json")) = false -> fs' = no_files)
    /\ (forall path, Some (lit "chunks.json") = Some path -> path <> [] ->
        load_from_json path __init__ fs'
        = Some (set_chunks (VList l) __init__, VList l)
        /\ forall other, str_eqb other path = false ->
                         fs' other = no_files other).
Proof.
  refine (@chunk_pdf_effect cpython one_article Posix (lit "code.pdf")
            (lit "Art. 1 foo") (Some (lit "chunks.json")) __init__
            no_files eq_refl _).
  vm_compute. reflexivity.
Defined.

(** X18, witness: the parts of "Art. 8. Le texte". *)
Lemma article_line_parts_witness :
  exists keyword blank number sep rest nl,
    article_8_line = keyword ++ blank ++ number ++ sep ++ rest ++ nl
    /\ (is_word "Art." keyword \/ is_word "Article" keyword)
    /\ forallb (isspace (UnicodeDB := cpython)) blank = true
    /\ article_number_form (U := cpython) number
    /\ forallb (sep_char (U := cpython)) sep = true
    /\ ~ In 10 rest
    /\ (nl = [] \/ nl = [10])
    /\ article_8_groups = [(2%nat, rest); (1%nat, number)].
Proof.
  exact (@article_line_parts cpython article_8_line article_8_groups eq_refl).
Defined.

Lemma numbered_init : numbered (U := cpython) __init__.
Proof. intros n H. discriminate. Defined.

(** X19, witness. *)
Lemma emitted_number_fields_witness :
  numbered (U := cpython) sub_article_state
  /\ exists new,
       chunks sub_article_state = VList ([] ++ new)
       /\ Forall (number_fields (U := cpython)) new.
Proof.
  refine (@emitted_number_fields cpython sub_article_text __init__
            sub_article_state (chunks sub_article_state) [] eq_refl
            numbered_init eq_refl _).
  vm_compute. reflexivity.
Defined.

(** The tables of CPython: the space is whitespace, the letters and the
    digits are not. *)
Lemma cpython_plain_spaces : plain_spaces (U := cpython).
Proof.
  split; [reflexivity|]. intros c H.
  change (cpython_isspace c = false).
  destruct (cpython_isspace c) eqn:E; [exfalso | reflexivity].
  unfold numeral_char, cpython_isspace, in_range in *.
  repeat (first [rewrite orb_true_iff in H | rewrite andb_true_iff in H
                | rewrite N.leb_le in H | rewrite N.eqb_eq in H]).
  repeat (first [rewrite orb_true_iff in E | rewrite andb_true_iff in E
                | rewrite N.leb_le in E | rewrite N.eqb_eq in E]).
  lia.
Defined.

Lemma headed_init : headed __init__.
Proof. intros lv lbl H. destruct lv; discriminate. Defined.

(** X20, witness: the path of the sub-article of Book I, Title II. *)
Lemma emitted_hierarchy_path_witness :
  headed two_articles_state
  /\ exists new,
       chunks two_articles_state = VList ([] ++ new)
       /\ Forall path_field new.
Proof.
  refine (@emitted_hierarchy_path cpython two_articles_text __init__
            two_articles_state (chunks two_articles_state) []
            cpython_plain_spaces headed_init eq_refl _).
  vm_compute. reflexivity.
Defined.

(** X10, witness: "Art. 8. Le texte" and one body line. *)
Lemma article_with_body_witness :
  exists s1 s2 c meta number,
    parse_loop (U := cpython) (article_8_line :: [lit "suite"]) __init__
    = Some s1
    /\ _save_article_chunk (U := cpython) s1 = Some s2
    /\ chunks s2 = VList ([] ++ [c])
    /\ getitem "text" c
       = Some (VStr (join (lit " ")
                       ((if nonempty (strip (U := cpython) (lit "Le texte"))
                         then [strip (U := cpython) (lit "Le texte")]
                         else [])
                        ++ [lit "suite"])))
    /\ group 1 article_8_groups = Some number
    /\ getitem "metadata" c = Some meta
    /\ getitem "article_number" meta = Some (VStr number)
    /\ forall lv,
         getitem (level_key lv) meta = Some (of_opt (level_label lv __init__)).
Proof.
  refine (@article_with_body cpython article_8_line (lit "Le texte")
            article_8_groups [lit "suite"] __init__ [] eq_refl eq_refl _ _
            eq_refl eq_refl eq_refl).
  - repeat constructor. discriminate.
  - right. discriminate.
Defined.

(** X21, witness. *)
Lemma emitted_single_line_witness :
  state_chars not_newline two_articles_state = true
  /\ chars_ok not_newline (chunks two_articles_state) = true.
Proof.
  refine (@emitted_single_line cpython two_articles_text __init__
            two_articles_state (chunks two_articles_state) eq_refl _).
  vm_compute. reflexivity.
Defined.
